(** * HURDAT2 best-track parser: a shallow embedding of [parse_hurdat.ipynb]

    The notebook reads a fixed-column text file, one header line per storm
    followed by a declared number of track-point lines, and builds a frame of
    composite records.  This development embeds the notebook's functions
    ([parse_header_line], [parse_data_line], [convert_lat_lon],
    [parse_hurdat2], [test_entries_count]) and its type-casting cells, and
    proves properties of them.

    Conventions of the embedding:
    - a Python [str] is a [string] of ASCII characters (the reference data
      file is pure ASCII);
    - a Python [float] is a binary64 value of [SpecFloat.spec_float], with
      the operations of the Standard Library's IEEE 754 specification;
    - a Python [dict] is an insertion-ordered association list;
    - a call that can raise returns in the [result] monad, whose failures
      are the Python exception classes the code can raise. *)

From Stdlib Require Import String Ascii List ZArith Bool Lia.
From Stdlib Require Import SpecFloat DecimalString DecimalPos DecimalZ.
Import ListNotations.

Local Open Scope string_scope.
Local Open Scope Z_scope.

(** ** Exceptions and the result monad *)

(** The exception classes raised by the built-ins the notebook calls:
    [int()] and [float()] raise [ValueError] (and [OverflowError] when a
    float infinity is truncated), list indexing raises [IndexError], a
    missing dict key or frame column raises [KeyError], and adding a
    string to what is not one raises [TypeError]. *)
Inductive exn : Type :=
| ValueError
| IndexError
| KeyError
| OverflowError
| TypeError.

(** The class name of an exception, as [type(e).__name__] gives it. *)
Definition exn_name (e : exn) : string :=
  match e with
  | ValueError => "ValueError"
  | IndexError => "IndexError"
  | KeyError => "KeyError"
  | OverflowError => "OverflowError"
  | TypeError => "TypeError"
  end.

Inductive result (A : Type) : Type :=
| Ok (a : A)
| Raise (e : exn).

Arguments Ok {A} a.
Arguments Raise {A} e.

Definition bind {A B : Type} (m : result A) (f : A -> result B) : result B :=
  match m with
  | Ok a => f a
  | Raise e => Raise e
  end.

Notation "x <- m ;; k" := (bind m (fun x => k))
  (at level 61, m at next level, right associativity).
Notation "' pat <- m ;; k" := (bind m (fun x => match x with pat => k end))
  (at level 61, pat pattern, m at next level, right associativity).

(** [r] is a failure whose exception class is named [cls]. *)
Definition fails_with {A : Type} (r : result A) (cls : string) : Prop :=
  exists e, r = Raise e /\ exn_name e = cls.

(** [r] is a normal return. *)
Definition returns {A : Type} (r : result A) : Prop :=
  exists a, r = Ok a.

(** ** Python strings *)

(** [str.isspace] on an ASCII character: tab, line feed, vertical tab, form
    feed, carriage return, the four separators 0x1c-0x1f, and space. *)
Definition is_space (c : ascii) : bool :=
  let n := nat_of_ascii c in
  ((9 <=? n) && (n <=? 13) || (28 <=? n) && (n <=? 32))%nat.

Fixpoint lstrip (s : string) : string :=
  match s with
  | EmptyString => EmptyString
  | String c r => if is_space c then lstrip r else s
  end.

Fixpoint rstrip (s : string) : string :=
  match s with
  | EmptyString => EmptyString
  | String c r =>
      match rstrip r with
      | EmptyString => if is_space c then EmptyString else String c EmptyString
      | r' => String c r'
      end
  end.

(** [s.strip()] *)
Definition strip (s : string) : string := rstrip (lstrip s).

(** [s[a:b]] for constant non-negative bounds: indices past the end are
    clipped, never an error. *)
Fixpoint drop (n : nat) (s : string) : string :=
  match n, s with
  | O, _ => s
  | S _, EmptyString => EmptyString
  | S n', String _ r => drop n' r
  end.

Fixpoint take (n : nat) (s : string) : string :=
  match n, s with
  | O, _ => EmptyString
  | S _, EmptyString => EmptyString
  | S n', String c r => String c (take n' r)
  end.

Definition slice (a b : nat) (s : string) : string := take (b - a) (drop a s).

(** [s.startswith(p)] *)
Fixpoint startswith (s p : string) {struct p} : bool :=
  match p, s with
  | EmptyString, _ => true
  | String _ _, EmptyString => false
  | String c p', String d s' => Ascii.eqb c d && startswith s' p'
  end.

(** ** Python [int] and [str] on integers *)

Definition is_digit (c : ascii) : bool :=
  let n := nat_of_ascii c in ((48 <=? n) && (n <=? 57))%nat.

Definition digit_val (c : ascii) : Z := Z.of_nat (nat_of_ascii c) - 48.

(** A [digitpart]: decimal digits, single underscores allowed between two
    digits.  [acc] is the value read so far, [cnt] the number of digits read
    so far, [after_digit] tells whether the previous character was a digit.
    Returns the value, the number of digits and the unread rest. *)
Fixpoint digitpart (acc : Z) (cnt : nat) (after_digit : bool) (s : string)
  : option (Z * nat * string) :=
  match s with
  | EmptyString => if after_digit then Some (acc, cnt, s) else None
  | String c r =>
      if is_digit c then digitpart (10 * acc + digit_val c) (S cnt) true r
      else if Ascii.eqb c "_" then
        match r with
        | String d _ =>
            if after_digit && is_digit d then digitpart acc cnt false r
            else if after_digit then Some (acc, cnt, s) else None
        | EmptyString => if after_digit then Some (acc, cnt, s) else None
        end
      else if after_digit then Some (acc, cnt, s) else None
  end.

(** [int(s)] for a string, base ten: surrounding whitespace, an optional
    sign, then one [digitpart] and nothing else. *)
Definition py_int (s : string) : result Z :=
  let t := strip s in
  let '(neg, body) :=
    match t with
    | String "+" r => (false, r)
    | String "-" r => (true, r)
    | _ => (false, t)
    end in
  match digitpart 0 0 false body with
  | Some (v, _, EmptyString) => Ok (if neg then - v else v)
  | _ => Raise ValueError
  end.

(** [str(z)] for an integer. *)
Definition py_str_of_int (z : Z) : string :=
  NilZero.string_of_int (Z.to_int z).

(** ** Python floats *)

(** binary64 *)
Definition prec : Z := 53.
Definition emax : Z := 1024.

Definition float : Type := spec_float.

(** [x * y] on floats. *)
Definition fmul (x y : float) : float := SFmul prec emax x y.

(** [-x] *)
Definition fneg (x : float) : float := SFopp x.

(** [float(z)] for an integer within the binary64 range, rounded to
    nearest even as CPython does (beyond that range CPython raises; the
    integers this code converts are 1, -1 and cells of a few digits). *)
Definition float_of_Z (z : Z) : float := binary_normalize prec emax z 0 false.

(** The binary64 value nearest to [(-1)^neg * m * 10^e10], ties to even:
    CPython's [float()] is correctly rounded.  An integer value is rounded
    directly; a fraction is the correctly rounded quotient of two exact
    integers. *)
Definition float_of_decimal (neg : bool) (m : Z) (e10 : Z) : float :=
  match m with
  | Zpos p =>
      if 0 <=? e10
      then binary_normalize prec emax ((if neg then Z.neg p else Z.pos p) * 10 ^ e10) 0 false
      else SFdiv prec emax (S754_finite neg p 0)
                           (S754_finite false (Z.to_pos (10 ^ (- e10))) 0)
  | _ => S754_zero neg
  end.

Definition lower_ascii (c : ascii) : ascii :=
  let n := nat_of_ascii c in
  if ((65 <=? n) && (n <=? 90))%nat then ascii_of_nat (n + 32) else c.

Fixpoint lower (s : string) : string :=
  match s with
  | EmptyString => EmptyString
  | String c r => String (lower_ascii c) (lower r)
  end.

(** [number ::= [digitpart] "." digitpart | digitpart ["."]]: returns the
    digits read as one integer, how many of them follow the point, and the
    unread rest. *)
Definition number (s : string) : option (Z * nat * string) :=
  match digitpart 0 0 false s with
  | Some (i, ni, String "." r) =>
      match digitpart i ni false r with
      | Some (m, n, rest) => Some (m, (n - ni)%nat, rest)
      | None => Some (i, O, r)
      end
  | Some (i, _, rest) => Some (i, O, rest)
  | None =>
      match s with
      | String "." r =>
          match digitpart 0 0 false r with
          | Some (m, n, rest) => Some (m, n, rest)
          | None => None
          end
      | _ => None
      end
  end.

(** [exponent ::= ("e" | "E") [sign] digitpart], up to the end of the
    string; the empty string is the absent exponent. *)
Definition exponent (s : string) : option Z :=
  match s with
  | EmptyString => Some 0
  | String c r =>
      if Ascii.eqb (lower_ascii c) "e" then
        let '(neg, body) :=
          match r with
          | String "+" r' => (false, r')
          | String "-" r' => (true, r')
          | _ => (false, r)
          end in
        match digitpart 0 0 false body with
        | Some (v, _, EmptyString) => Some (if neg then - v else v)
        | _ => None
        end
      else None
  end.

(** [float(s)] for a string: surrounding whitespace, an optional sign, then
    [inf], [infinity] or [nan] in any letter case, or a decimal
    [floatnumber]. *)
Definition py_float (s : string) : result float :=
  let t := strip s in
  let '(neg, body) :=
    match t with
    | String "+" r => (false, r)
    | String "-" r => (true, r)
    | _ => (false, t)
    end in
  let l := lower body in
  if String.eqb l "inf" || String.eqb l "infinity" then Ok (S754_infinity neg)
  else if String.eqb l "nan" then Ok S754_nan
  else
    match number body with
    | Some (m, nfrac, rest) =>
        match exponent rest with
        | Some e => Ok (float_of_decimal neg m (e - Z.of_nat nfrac))
        | None => Raise ValueError
        end
    | None => Raise ValueError
    end.

(** ** Python values and dicts *)

(** The values the notebook stores in its dicts and frame cells. *)
Inductive value : Type :=
| VStr (s : string)
| VInt (z : Z)
| VFloat (f : float).

(** [int(v)] *)
Definition int_ (v : value) : result Z :=
  match v with
  | VStr s => py_int s
  | VInt z => Ok z
  | VFloat (S754_zero _) => Ok 0
  | VFloat (S754_finite s m e) =>
      let a := match e with
               | Zneg p => Z.pos m / 2 ^ Z.pos p
               | _ => Z.pos m * 2 ^ e
               end in
      Ok (if s then - a else a)
  | VFloat (S754_infinity _) => Raise OverflowError
  | VFloat S754_nan => Raise ValueError
  end.

(** [float(v)] *)
Definition float_ (v : value) : result float :=
  match v with
  | VStr s => py_float s
  | VInt z => Ok (float_of_Z z)
  | VFloat f => Ok f
  end.

(** A dict keeps its keys in insertion order. *)
Definition dict : Type := list (string * value).

Fixpoint dict_get (k : string) (d : dict) : option value :=
  match d with
  | [] => None
  | (k', v) :: r => if String.eqb k k' then Some v else dict_get k r
  end.

(** [d[k]] read *)
Definition getitem (d : dict) (k : string) : result value :=
  match dict_get k d with
  | Some v => Ok v
  | None => Raise KeyError
  end.

(** [d[k] = v]: an existing key keeps its position, a new key goes last. *)
Fixpoint dict_set (d : dict) (k : string) (v : value) : dict :=
  match d with
  | [] => [(k, v)]
  | (k', v') :: r =>
      if String.eqb k k' then (k', v) :: r else (k', v') :: dict_set r k v
  end.

(** [{**a, **b}] *)
Definition dict_merge (a b : dict) : dict :=
  fold_left (fun acc kv => dict_set acc (fst kv) (snd kv)) b a.

(** ** The line parsers *)

(** A fixed-column field: [line[a:b].strip()]. *)
Definition field (a b : nat) (line : string) : value :=
  VStr (strip (slice a b line)).

(** [parse_header_line(line)] *)
Definition parse_header_line (line : string) : result dict :=
  let header_data :=
    [ ("Basin", field 0 2 line);
      ("CycloneID", field 2 4 line);
      ("Year", field 4 8 line);
      ("Name", field 18 28 line);
      ("Entries", field 33 36 line) ] in
  Ok header_data.

(** [parse_data_line(line)] *)
Definition parse_data_line (line : string) : result dict :=
  let parsed_data :=
    [ ("Year", field 0 4 line);
      ("Month", field 4 6 line);
      ("Day", field 6 8 line);
      ("Hours", field 10 12 line);
      ("Minutes", field 12 14 line);
      ("RecordID", field 16 17 line);
      ("Status", field 19 21 line);
      ("Latitude", field 23 27 line);
      ("LatHemisphere", field 27 28 line);
      ("Longitude", field 30 35 line);
      ("LonHemisphere", field 35 36 line);
      ("MaxWind", field 38 41 line);
      ("MinPressure", field 43 47 line);
      ("34NE", field 49 53 line);
      ("34SE", field 55 59 line);
      ("34SW", field 61 65 line);
      ("34NW", field 67 71 line);
      ("50NE", field 73 77 line);
      ("50SE", field 79 83 line);
      ("50SW", field 85 89 line);
      ("50NW", field 91 95 line);
      ("64NE", field 97 101 line);
      ("64SE", field 103 107 line);
      ("64SW", field 109 113 line);
      ("64NW", field 115 119 line);
      ("RadiusMaxWind", field 121 125 line) ] in
  Ok parsed_data.

(** ** The coordinate converter *)

(** [v == s] between a stored value and a string literal. *)
Definition eq_str (v : value) (s : string) : bool :=
  match v with
  | VStr t => String.eqb t s
  | _ => false
  end.

(** [convert_lat_lon(lat, lat_hem, lon, lon_hem)]: [float(lat)] is
    evaluated before [float(lon)], so a bad latitude is the error raised. *)
Definition convert_lat_lon (lat lat_hem lon lon_hem : value)
  : result (float * float) :=
  flat <- float_ lat ;;
  let lat' := fmul flat (float_of_Z (if eq_str lat_hem "N" then 1 else -1)) in
  flon <- float_ lon ;;
  let lon' := fmul flon (float_of_Z (if eq_str lon_hem "E" then 1 else -1)) in
  Ok (lat', lon').

(** ** The record assembler *)

(** One pass of the body of the [for] loop, on the line under the cursor:
    the composite record appended to [data]. *)
Definition data_record (header : dict) (raw : string) : result dict :=
  let data_line := strip raw in
  parsed_data <- parse_data_line data_line ;;
  lat0 <- getitem parsed_data "Latitude" ;;
  lath <- getitem parsed_data "LatHemisphere" ;;
  lon0 <- getitem parsed_data "Longitude" ;;
  lonh <- getitem parsed_data "LonHemisphere" ;;
  '(lat, lon) <- convert_lat_lon lat0 lath lon0 lonh ;;
  let parsed_data := dict_set parsed_data "Latitude" (VFloat lat) in
  let parsed_data := dict_set parsed_data "Longitude" (VFloat lon) in
  let combined_dict := dict_merge header parsed_data in
  Ok combined_dict.

(** [for _ in range(n)]: the cursor is the list of lines from index [i] on
    ([lines[i]] is its head, [i += 1] its tail, and [lines[i]] past the end
    raises [IndexError]); [k] is what runs once the loop is over, the next
    iteration of the enclosing [while]. *)
Fixpoint for_range (k : list string -> list dict -> result (list dict))
    (header : dict) (n : nat) (lines : list string) (data : list dict)
    {struct lines} : result (list dict) :=
  match n with
  | O => k lines data
  | S n' =>
      match lines with
      | [] => Raise IndexError
      | raw :: rest =>
          combined_dict <- data_record header raw ;;
          for_range k header n' rest (data ++ [combined_dict])
      end
  end.

(** [while i < len(lines)] *)
Fixpoint while_loop (lines : list string) (data : list dict)
    {struct lines} : result (list dict) :=
  match lines with
  | [] => Ok data
  | raw :: rest =>
      let line := strip raw in
      if startswith line "AL" then
        header <- parse_header_line line ;;
        e <- getitem header "Entries" ;;
        entries <- int_ e ;;
        let header := dict_set header "Entries" (VInt entries) in
        for_range while_loop header (Z.to_nat entries) rest data
      else
        while_loop rest data
  end.

(** [parse_hurdat2], on the list [file.readlines()] returns; the frame it
    builds has one row per dict of [data], in order. *)
Definition parse_hurdat2 (lines : list string) : result (list dict) :=
  while_loop lines [].

(** ** The validator *)

(** A frame is the list of its rows, each row a dict from column name to
    cell; the frames of this notebook come from [parse_hurdat2], whose rows
    all carry the same keys.  A frame built from an empty list has no
    column at all. *)
Definition frame : Type := list dict.

Definition float_eqb (x y : float) : bool := SFeqb x y.

(** [a == b] on cells. *)
Definition value_eqb (a b : value) : bool :=
  match a, b with
  | VStr s, VStr t => String.eqb s t
  | VInt x, VInt y => Z.eqb x y
  | VFloat x, VFloat y => float_eqb x y
  | VInt x, VFloat y => float_eqb (float_of_Z x) y
  | VFloat x, VInt y => float_eqb x (float_of_Z y)
  | _, _ => false
  end.

Fixpoint key_eqb (a b : list value) : bool :=
  match a, b with
  | [], [] => true
  | x :: a', y :: b' => value_eqb x y && key_eqb a' b'
  | _, _ => false
  end.

Fixpoint mapM {A B : Type} (f : A -> result B) (l : list A) : result (list B) :=
  match l with
  | [] => Ok []
  | x :: r => y <- f x ;; ys <- mapM f r ;; Ok (y :: ys)
  end.

(** [df[cols]]: the rows restricted to [cols]; a column the frame lacks
    raises [KeyError], and a frame without rows has no column. *)
Definition select (cols : list string) (df : frame) : result (list (list value)) :=
  match df with
  | [] => match cols with [] => Ok [] | _ => Raise KeyError end
  | _ => mapM (fun row => mapM (getitem row) cols) df
  end.

(** [drop_duplicates()]: the first occurrence of each row is kept. *)
Fixpoint drop_duplicates (rows : list (list value)) : list (list value) :=
  match rows with
  | [] => []
  | r :: rest =>
      r :: filter (fun r' => negb (key_eqb r r')) (drop_duplicates rest)
  end.

(** [groupby(keys).size()]: one row per distinct key, with the number of
    rows of the frame that carry it. *)
Definition group_sizes (keys : list (list value)) : list (list value * Z) :=
  map (fun k => (k, Z.of_nat (List.length (filter (key_eqb k) keys))))
      (drop_duplicates keys).

Definition group_columns : list string := ["Basin"; "CycloneID"; "Year"; "Name"].

(** [pd.merge(grouped, right, on=group_columns, how='left')], where [right]
    has the columns Basin, CycloneID, Entries, Year, Name: each group is
    paired with the Entries of every right row of the same key, or with no
    Entries ([None], a NaN cell) when there is none. *)
Definition merge_left (grouped : list (list value * Z))
    (right : list (list value)) : list (Z * option value) :=
  flat_map
    (fun g =>
       let matches :=
         flat_map
           (fun r =>
              match r with
              | [b; c; e; y; n] =>
                  if key_eqb (fst g) [b; c; y; n] then [e] else []
              | _ => []
              end) right in
       match matches with
       | [] => [(snd g, None)]
       | _ => map (fun e => (snd g, Some e)) matches
       end)
    grouped.

(** [test_entries_count(df)]; the printing is left out. *)
Definition test_entries_count (df : frame) : result bool :=
  keys <- select group_columns df ;;
  let grouped := group_sizes keys in
  right <- select ["Basin"; "CycloneID"; "Entries"; "Year"; "Name"] df ;;
  let merged := merge_left grouped (drop_duplicates right) in
  let mismatch :=
    filter (fun ne =>
              match snd ne with
              | Some e => negb (value_eqb (VInt (fst ne)) e)
              | None => true
              end) merged in
  match mismatch with
  | [] => Ok true
  | _ => Ok false
  end.

(** ** The type-casting cells

    Between the validator and these cells the notebook prunes the columns
    that hold a single value over the whole reference file
    ([df.loc[:, df.nunique() > 1]]).  That step depends on the data set as
    a whole and is left out here: the cells below are taken on the frame as
    the assembler builds it, and the pruning is modelled on its own further
    down ([prune]). *)

(** [df[c] = f(df[c])] cell by cell: the column is read (a [KeyError] if
    the frame lacks it), every cell converted in row order, and the result
    stored back. *)
Definition map_column (c : string) (f : value -> result value) (df : frame)
  : result frame :=
  match df with
  | [] => Raise KeyError
  | _ =>
      cells <- mapM (fun row => v <- getitem row c ;; f v) df ;;
      Ok (map (fun rc => dict_set (fst rc) c (snd rc)) (combine df cells))
  end.

(** [.astype('string')] on a cell: a string is kept as it is, an integer
    is written in decimal.  A float cell would be written with [repr]; the
    notebook casts no float column to a string, and the embedding leaves
    such a cell unchanged. *)
Definition astype_string (v : value) : result value :=
  match v with
  | VStr s => Ok (VStr s)
  | VInt z => Ok (VStr (py_str_of_int z))
  | VFloat f => Ok (VFloat f)
  end.

(** [.astype(int)] on a cell. *)
Definition astype_int (v : value) : result value :=
  z <- int_ v ;; Ok (VInt z).

(** A plain decimal integer: an optional sign and digits only. *)
Fixpoint all_digits (s : string) : bool :=
  match s with
  | EmptyString => true
  | String c r => is_digit c && all_digits r
  end.

Definition plain_int (s : string) : option Z :=
  let body := match s with
              | String "+" r => r
              | String "-" r => r
              | _ => s
              end in
  match body with
  | EmptyString => None
  | _ => if all_digits body
         then match py_int s with Ok z => Some z | Raise _ => None end
         else None
  end.

Fixpoint has_underscore (s : string) : bool :=
  match s with
  | EmptyString => false
  | String c r => Ascii.eqb c "_" || has_underscore r
  end.

(** The number a string cell denotes for [pd.to_numeric], if any: an
    integer for a plain decimal integer, a float for any other decimal
    float literal (written without underscores).  The integer is not
    bounded here, where pandas keeps 64 bits, and a float is the correctly
    rounded one, where the parser of pandas can be one unit in the last
    place away: the statements below bound the integers by the width of
    the fields and say nothing of the value of a float read from a
    string. *)
Definition pd_number (s : string) : option value :=
  match plain_int (strip s) with
  | Some z => Some (VInt z)
  | None =>
      if has_underscore s then None
      else match py_float s with
           | Ok f => Some (VFloat f)
           | Raise _ => None
           end
  end.

(** The missing marker of a numeric column. *)
Definition NaN : value := VFloat S754_nan.

(** One cell of [pd.to_numeric(..., errors='coerce')]: what does not parse
    as a number becomes NaN. *)
Definition to_numeric_cell (v : value) : value :=
  match v with
  | VStr s => match pd_number s with Some n => n | None => NaN end
  | _ => v
  end.

Definition is_int_cell (v : value) : bool :=
  match v with VInt _ => true | _ => false end.

(** An integer cell stored in a float64 column.  A cell that reads [-0]
    becomes [+0.0] this way, where pandas keeps the sign of the zero. *)
Definition as_float_cell (v : value) : value :=
  match v with
  | VInt z => VFloat (float_of_Z z)
  | _ => v
  end.

(** [pd.to_numeric(col, errors='coerce')] on a column: an all-integer
    column stays integer (int64), otherwise every cell becomes a float
    (float64). *)
Definition to_numeric_coerce (col : list value) : list value :=
  let cells := map to_numeric_cell col in
  if forallb is_int_cell cells then cells
  else map as_float_cell cells.

(** [df[c] = pd.to_numeric(df[c], errors='coerce')] *)
Definition to_numeric_column (c : string) (df : frame) : result frame :=
  match df with
  | [] => Raise KeyError
  | _ =>
      col <- mapM (fun row => getitem row c) df ;;
      Ok (map (fun rc => dict_set (fst rc) c (snd rc))
              (combine df (to_numeric_coerce col)))
  end.

Fixpoint foldM {A B : Type} (f : A -> B -> result A) (l : list B) (a : A)
  : result A :=
  match l with
  | [] => Ok a
  | x :: r => a' <- f a x ;; foldM f r a'
  end.

(** The three casts of the cell headed [# type cast columns]. *)
Inductive cast : Type :=
| AsString   (* .astype('string') *)
| AsInt      (* .astype(int) *)
| ToNumeric. (* pd.to_numeric(..., errors='coerce') *)

(** One assignment of the cell: [df[c] = <cast>(df[c])]. *)
Definition cast_column (df : frame) (step : string * cast) : result frame :=
  match snd step with
  | AsString => map_column (fst step) astype_string df
  | AsInt => map_column (fst step) astype_int df
  | ToNumeric => to_numeric_column (fst step) df
  end.

(** The assignments of the cell, in the order they are written; the last
    thirteen are the one [apply(pd.to_numeric, errors='coerce')] over the
    wind-radii columns, which converts each column on its own. *)
Definition type_cast_steps : list (string * cast) :=
  [ ("CycloneID", AsString);
    ("Year", AsInt);
    ("Name", AsString);
    ("Month", AsInt);
    ("Day", AsInt);
    ("Hours", AsInt);
    ("Minutes", AsInt);
    ("RecordID", AsString);
    ("Status", AsString);
    ("LonHemisphere", AsString);
    ("MaxWind", ToNumeric);
    ("MinPressure", ToNumeric);
    ("34NE", ToNumeric); ("34SE", ToNumeric); ("34SW", ToNumeric);
    ("34NW", ToNumeric); ("50NE", ToNumeric); ("50SE", ToNumeric);
    ("50SW", ToNumeric); ("50NW", ToNumeric); ("64NE", ToNumeric);
    ("64SE", ToNumeric); ("64SW", ToNumeric); ("64NW", ToNumeric);
    ("RadiusMaxWind", ToNumeric) ].

(** The cell headed [# type cast columns], run on the frame [df]. *)
Definition type_cast (df : frame) : result frame :=
  foldM cast_column type_cast_steps df.

(** [df['UniqueID'] = df.Year.astype('string') + df.CycloneID], on one
    row of the type-cast frame: the string of the year followed by the
    cyclone number. *)
Definition unique_id (row : dict) : result string :=
  y <- getitem row "Year" ;;
  ys <- astype_string y ;;
  c <- getitem row "CycloneID" ;;
  match ys, c with
  | VStr a, VStr b => Ok (a ++ b)
  | _, _ => Raise TypeError
  end.

(** [df['UniqueID'] = ...] on the whole frame.  On a frame that has no
    Year column the attribute access [df.Year] fails in pandas with an
    [AttributeError], a class the embedding does not have: the error
    raised here in that case stands for it, and no statement depends on
    it. *)
Definition add_unique_id (df : frame) : result frame :=
  match df with
  | [] => Raise KeyError
  | _ =>
      ids <- mapM unique_id df ;;
      Ok (map (fun ri => dict_set (fst ri) "UniqueID" (VStr (snd ri)))
              (combine df ids))
  end.

(** [lstrip] leaves a string that does not start with whitespace. *)
Definition no_leading_space (s : string) : Prop :=
  match s with
  | EmptyString => True
  | String c _ => is_space c = false
  end.

(** The header dict once [header['Entries']] has been replaced by the
    integer [entries]. *)
Definition assembled_header (line : string) (entries : Z) : dict :=
  [ ("Basin", field 0 2 line);
    ("CycloneID", field 2 4 line);
    ("Year", field 4 8 line);
    ("Name", field 18 28 line);
    ("Entries", VInt entries) ].

(** The data dict once its coordinates have been replaced by floats. *)
Definition converted_data (line : string) (lat lon : float) : dict :=
  dict_set (dict_set
    [ ("Year", field 0 4 line);
      ("Month", field 4 6 line);
      ("Day", field 6 8 line);
      ("Hours", field 10 12 line);
      ("Minutes", field 12 14 line);
      ("RecordID", field 16 17 line);
      ("Status", field 19 21 line);
      ("Latitude", field 23 27 line);
      ("LatHemisphere", field 27 28 line);
      ("Longitude", field 30 35 line);
      ("LonHemisphere", field 35 36 line);
      ("MaxWind", field 38 41 line);
      ("MinPressure", field 43 47 line);
      ("34NE", field 49 53 line);
      ("34SE", field 55 59 line);
      ("34SW", field 61 65 line);
      ("34NW", field 67 71 line);
      ("50NE", field 73 77 line);
      ("50SE", field 79 83 line);
      ("50SW", field 85 89 line);
      ("50NW", field 91 95 line);
      ("64NE", field 97 101 line);
      ("64SE", field 103 107 line);
      ("64SW", field 109 113 line);
      ("64NW", field 115 119 line);
      ("RadiusMaxWind", field 121 125 line) ]
    "Latitude" (VFloat lat)) "Longitude" (VFloat lon).

(** The coordinates [convert_lat_lon] computes for a stripped data line. *)
Definition line_coordinates (line : string) : result (float * float) :=
  convert_lat_lon (field 23 27 line) (field 27 28 line)
                  (field 30 35 line) (field 35 36 line).

(** ** What the assembler emits, as a relation

    [emits lines df]: scanning [lines] from the cursor to the end appends
    the records [df].  A line whose stripped text does not start with [AL]
    is passed over; a line that does is a header whose count field is read
    with [int], and the next [entries] lines, which must all be there, each
    give one record built from that header. *)
Inductive emits : list string -> list dict -> Prop :=
| emits_end : emits [] []
| emits_skip (raw : string) (rest : list string) (out : list dict) :
    startswith (strip raw) "AL" = false ->
    emits rest out ->
    emits (raw :: rest) out
| emits_storm (raw : string) (rest : list string) (entries : Z)
              (recs out : list dict) :
    startswith (strip raw) "AL" = true ->
    int_ (field 33 36 (strip raw)) = Ok entries ->
    (Z.to_nat entries <= List.length rest)%nat ->
    Forall2 (fun l r =>
               data_record (assembled_header (strip raw) entries) l = Ok r)
            (firstn (Z.to_nat entries) rest) recs ->
    emits (skipn (Z.to_nat entries) rest) out ->
    emits (raw :: rest) (recs ++ out).

(** A record of the frame and the two source lines it is made of. *)
Definition record_of (lines : list string) (r : dict) : Prop :=
  exists hraw raw entries,
    In hraw lines /\ In raw lines /\
    startswith (strip hraw) "AL" = true /\
    int_ (field 33 36 (strip hraw)) = Ok entries /\
    data_record (assembled_header (strip hraw) entries) raw = Ok r.

(** ** Sample input

    Lines in the layout of the reference file.  A header line carries the
    basin, cyclone number and year in columns 0-7, the name right-aligned
    up to column 27 and the entry count right-aligned up to column 35; a
    data line carries date, time, record identifier, status, latitude,
    longitude and wind, then the pressure, the twelve wind radii and the
    radius of maximum wind, all missing ([-999]) in these samples. *)

Definition nl : string := String "010" EmptyString.

Definition missing_tail : string :=
  ", -999, -999, -999, -999, -999, -999, -999, -999, -999, -999, -999, -999, -999, -999".

Definition track_line (date time rid status lat lon wind : string) : string :=
  date ++ ", " ++ time ++ ", " ++ rid ++ ", " ++ status ++ ", " ++ lat
       ++ ", " ++ lon ++ ", " ++ wind ++ missing_tail ++ nl.

(** The first storm of the reference file, with its count written with
    four digits. *)
Definition storm_1851_01 : list string :=
  [ "AL011851,            UNNAMED,   0005," ++ nl;
    track_line "18510625" "0000" " " "HU" "28.0N" " 94.8W" " 80";
    track_line "18510625" "0600" " " "HU" "28.0N" " 95.4W" " 80";
    track_line "18510625" "1200" " " "HU" "28.0N" " 96.0W" " 80";
    track_line "18510625" "1800" " " "HU" "28.1N" " 96.5W" " 80";
    track_line "18510625" "2100" "L" "HU" "28.2N" " 96.8W" " 80" ].

(** A header that declares three entries, followed by two data lines and
    the end of the input. *)
Definition truncated_storm : list string :=
  [ "AL021851,            UNNAMED,   0003," ++ nl;
    track_line "18510705" "1200" " " "HU" "22.2N" " 97.6W" " 80";
    track_line "18510705" "1800" " " "HU" "22.5N" " 98.0W" " 80" ].

(** A well-formed header of the eastern Pacific basin and its one data
    line. *)
Definition pacific_header : string :=
  "EP011949,            UNNAMED,      1," ++ nl.

Definition pacific_storm : list string :=
  [ pacific_header;
    track_line "19490611" "0000" " " "TS" "20.2N" "106.3W" " 45" ].

(** A storm that crosses a year boundary under one header. *)
Definition storm_1954_16 : list string :=
  [ "AL161954,              ALICE,      2," ++ nl;
    track_line "19541231" "1800" " " "HU" "23.5N" " 56.0W" " 65";
    track_line "19550101" "0000" " " "HU" "22.9N" " 57.2W" " 70" ].

(** A data line whose latitude field reads [283] and a header for it. *)
Definition storm_lat_283 : list string :=
  [ "AL011851,            UNNAMED,      1," ++ nl;
    track_line "18510625" "0000" " " "HU" " 283N" " 94.8W" " 80" ].

(** A data line with a hemisphere letter that is none of N, S, E, W, and
    one with a status code outside the nine documented ones. *)
Definition storm_odd_fields : list string :=
  [ "AL011851,            UNNAMED,      2," ++ nl;
    track_line "18510625" "0000" " " "HU" "28.0X" " 94.8Q" " 80";
    track_line "18510626" "0600" " " "XX" "28.0N" " 95.4W" " 80" ].

(** A header line cut short after the basin code, one whose count field
    is not a number, and one whose count is negative. *)
Definition short_header : string := "AL".

Definition bad_count_header : string :=
  "AL011851,            UNNAMED,    abc," ++ nl.

Definition negative_count_header : string :=
  "AL011851,            UNNAMED,     -2," ++ nl.

(** ** What the type-casting cell does to one row

    [step_cell op v0 v]: the cast [op] turns the cell [v0] into [v].  For
    [pd.to_numeric] the cell is the number read, as it is in an all-integer
    column and as a float otherwise. *)
Definition step_cell (op : cast) (v0 v : value) : Prop :=
  match op with
  | AsString => astype_string v0 = Ok v
  | AsInt => astype_int v0 = Ok v
  | ToNumeric => v = to_numeric_cell v0 \/ v = as_float_cell (to_numeric_cell v0)
  end.

(** [cast_rel steps r r']: the row [r'] is the row [r] after the
    assignments [steps], each one rewriting one cell of the row. *)
Fixpoint cast_rel (steps : list (string * cast)) (r r' : dict) : Prop :=
  match steps with
  | [] => r' = r
  | (c, op) :: rest =>
      exists v0 v,
        dict_get c r = Some v0 /\ step_cell op v0 v /\
        cast_rel rest (dict_set r c v) r'
  end.

(** A row on which the assignments [steps] can all be carried out: it has
    their columns, and [int] accepts the cells cast to integers. *)
Definition castable (steps : list (string * cast)) (r : dict) : Prop :=
  forall c op, In (c, op) steps ->
    exists v0, dict_get c r = Some v0 /\ (op = AsInt -> returns (int_ v0)).

Definition is_ok {A : Type} (r : result A) : bool :=
  match r with Ok _ => true | Raise _ => false end.

(** A data line the pipeline accepts: its two coordinates are float
    literals, and its year, month, day, hour and minute are integer
    literals. *)
Definition well_formed_data_line (raw : string) : bool :=
  let line := strip raw in
  is_ok (line_coordinates line) &&
  is_ok (int_ (field 0 4 line)) && is_ok (int_ (field 4 6 line)) &&
  is_ok (int_ (field 6 8 line)) && is_ok (int_ (field 10 12 line)) &&
  is_ok (int_ (field 12 14 line)).

Fixpoint nodupb (l : list string) : bool :=
  match l with
  | [] => true
  | x :: r => negb (existsb (String.eqb x) r) && nodupb r
  end.

(** The columns that go through [pd.to_numeric]: wind, pressure, the
    twelve wind radii and the radius of maximum wind. *)
Definition numeric_columns : list string :=
  ["MaxWind"; "MinPressure";
   "34NE"; "34SE"; "34SW"; "34NW"; "50NE"; "50SE"; "50SW"; "50NW";
   "64NE"; "64SE"; "64SW"; "64NW"; "RadiusMaxWind"].

(** [castable], decided. *)
Definition castableb (steps : list (string * cast)) (r : dict) : bool :=
  forallb (fun step =>
             match dict_get (fst step) r with
             | Some v0 => match snd step with
                          | AsInt => is_ok (int_ v0)
                          | _ => true
                          end
             | None => false
             end) steps.

(** The frame assembled from sample lines (empty if the assembler fails). *)
Definition frame_of (lines : list string) : frame :=
  match parse_hurdat2 lines with
  | Ok df => df
  | Raise _ => []
  end.

(** The column ranges of the two parsers, as the source writes them:
    the name of each field with the bounds of its slice. *)
Definition header_layout : list (string * (nat * nat)) :=
  [ ("Basin", (0, 2)); ("CycloneID", (2, 4)); ("Year", (4, 8));
    ("Name", (18, 28)); ("Entries", (33, 36)) ]%nat.

Definition data_layout : list (string * (nat * nat)) :=
  [ ("Year", (0, 4)); ("Month", (4, 6)); ("Day", (6, 8));
    ("Hours", (10, 12)); ("Minutes", (12, 14)); ("RecordID", (16, 17));
    ("Status", (19, 21)); ("Latitude", (23, 27));
    ("LatHemisphere", (27, 28)); ("Longitude", (30, 35));
    ("LonHemisphere", (35, 36)); ("MaxWind", (38, 41));
    ("MinPressure", (43, 47));
    ("34NE", (49, 53)); ("34SE", (55, 59)); ("34SW", (61, 65));
    ("34NW", (67, 71)); ("50NE", (73, 77)); ("50SE", (79, 83));
    ("50SW", (85, 89)); ("50NW", (91, 95)); ("64NE", (97, 101));
    ("64SE", (103, 107)); ("64SW", (109, 113)); ("64NW", (115, 119));
    ("RadiusMaxWind", (121, 125)) ]%nat.

(** The field of [line] a layout entry names. *)
Definition extract (line : string) (col : string * (nat * nat)) : string * value :=
  (fst col, field (fst (snd col)) (snd (snd col)) line).

(** ** The columns of the assembled frame

    The keys of [{**header, **parsed_data}], in the order the merge leaves
    them: the five header keys, then the data keys the header lacks. *)
Definition frame_columns : list string :=
  ["Basin"; "CycloneID"; "Year"; "Name"; "Entries";
   "Month"; "Day"; "Hours"; "Minutes"; "RecordID"; "Status";
   "Latitude"; "LatHemisphere"; "Longitude"; "LonHemisphere";
   "MaxWind"; "MinPressure";
   "34NE"; "34SE"; "34SW"; "34NW"; "50NE"; "50SE"; "50SW"; "50NW";
   "64NE"; "64SE"; "64SW"; "64NW"; "RadiusMaxWind"].

(** The kind of cell a column of the assembled frame holds: the integer
    count, a float coordinate, or a stripped string. *)
Definition cell_of_column (k : string) (v : value) : Prop :=
  if String.eqb k "Entries" then exists n, v = VInt n
  else if String.eqb k "Latitude" || String.eqb k "Longitude"
       then exists f, v = VFloat f /\ valid_binary prec emax f = true
       else exists s, v = VStr s /\ strip s = s.

(** ** The validator, row by row *)

(** The cells of a row in the columns [cols], NaN where the row has none. *)
Definition cells (cols : list string) (r : dict) : list value :=
  map (fun c => match dict_get c r with Some v => v | None => NaN end) cols.

(** Two rows belong to the same group of the validator's [groupby]. *)
Definition same_storm (r r' : dict) : bool :=
  key_eqb (cells group_columns r) (cells group_columns r').

(** The number of rows of the frame in the group of [r]. *)
Definition group_size (df : frame) (r : dict) : Z :=
  Z.of_nat (List.length (filter (same_storm r) df)).

(** The count a row declares. *)
Definition declared (r : dict) : Z :=
  match dict_get "Entries" r with
  | Some (VInt n) => n
  | _ => 0
  end.

(** A row as the assembler builds it, as far as the validator reads it:
    strings in the four identity columns, an integer count. *)
Definition keyed_row (r : dict) : Prop :=
  Forall (fun c => exists s, dict_get c r = Some (VStr s)) group_columns /\
  exists n, dict_get "Entries" r = Some (VInt n).

(** A cell that is compared by plain equality: a string or an integer. *)
Definition is_plain (v : value) : Prop :=
  match v with VFloat _ => False | _ => True end.

(** The columns the type-casting cell casts to integers. *)
Definition int_columns : list string :=
  ["Year"; "Month"; "Day"; "Hours"; "Minutes"].

(** A row that holds a string in each column the type-casting cell
    assigns, as the rows of the assembled frame do. *)
Definition raw_row (steps : list (string * cast)) (r : dict) : Prop :=
  forall c op, In (c, op) steps -> exists s, dict_get c r = Some (VStr s).

(** ** The type-casting cell, column by column *)

(** [df[c]]: the cells of the column [c], in row order. *)
Definition column (c : string) (df : frame) : result (list value) :=
  mapM (fun row => getitem row c) df.

(** [df[c] = cells] *)
Definition set_column (c : string) (df : frame) (cells : list value) : frame :=
  map (fun rc => dict_set (fst rc) c (snd rc)) (combine df cells).

(** A cast on the cells of one column. *)
Definition cast_cells (op : cast) (col : list value) : result (list value) :=
  match op with
  | AsString => mapM astype_string col
  | AsInt => mapM astype_int col
  | ToNumeric => Ok (to_numeric_coerce col)
  end.

(** A column on which the cast [op] changes nothing. *)
Definition settled (c : string) (op : cast) (df : frame) : Prop :=
  exists col, column c df = Ok col /\ cast_cells op col = Ok col.

(** The dtype of a numeric column: every cell an integer, or every cell a
    float. *)
Definition is_float_cell (v : value) : bool :=
  match v with VFloat _ => true | _ => false end.

(** Two storms of one data line each, whose lines differ in every field
    the parsers read except the basin and the northern hemisphere. *)
Definition varied_storms : list string :=
  [ "AL122005,            KATRINA,      1," ++ nl;
    "20050828, 1800, L, HU, 26.3N,  88.6W, 150,  902,  200,  201,  150,  202,  120,  121,   75,  100,   90,   91,   50,   76,   15" ++ nl;
    "AL052006,              ISAAC,      1," ++ nl;
    "20061015, 0615,  , TS, 31.0N,  12.5E,  45, 1001,   60,   61,   30,   40,   10,   11,   12,   13,    0,    1,    2,    3,   25" ++ nl ].

(** ** The pruning cell

    [df = df.loc[:, df.nunique() > 1]]: the columns with at most one
    distinct value over the whole frame are dropped. *)

(** The missing marker is left out of the count of distinct values. *)
Definition is_nan (v : value) : bool :=
  match v with VFloat S754_nan => true | _ => false end.

(** [unique()]: the distinct cells, in order of first appearance. *)
Fixpoint unique (col : list value) : list value :=
  match col with
  | [] => []
  | v :: rest => v :: filter (fun w => negb (value_eqb v w)) (unique rest)
  end.

(** [nunique()] on the cells of one column. *)
Definition nunique (col : list value) : nat :=
  List.length (unique (filter (fun v => negb (is_nan v)) col)).

(** The cells the rows of the frame hold in the column [c]. *)
Definition present (c : string) (df : frame) : list value :=
  flat_map (fun r => match dict_get c r with Some v => [v] | None => [] end) df.

(** [df.nunique() > 1] at the column [c]. *)
Definition varies (df : frame) (c : string) : bool :=
  (1 <? nunique (present c df))%nat.

(** [df.loc[:, df.nunique() > 1]] *)
Definition prune (df : frame) : frame :=
  map (filter (fun kv => varies df (fst kv))) df.

(** ** The columns the parsers read *)

(** The two lines hold the same character at an index, or both end
    before it. *)
Definition same_char (a b : option ascii) : bool :=
  match a, b with
  | Some x, Some y => Ascii.eqb x y
  | None, None => true
  | _, _ => false
  end.

(** Two lines agree on a layout: they hold the same characters at every
    index of every column range of the layout. *)
Definition agree (layout : list (string * (nat * nat))) (l1 l2 : string) : bool :=
  forallb
    (fun col =>
       forallb (fun i => same_char (String.get i l1) (String.get i l2))
               (seq (fst (snd col)) (snd (snd col) - fst (snd col))))
    layout.

(** Two raw lines with the same fields: stripped, they agree on the layout
    of a data line and, when they start with [AL], on the layout of a
    header line as well. *)
Definition same_fields (r1 r2 : string) : bool :=
  agree data_layout (strip r1) (strip r2) &&
  implb (startswith (strip r2) "AL")
        (agree header_layout (strip r1) (strip r2)).

(** The lines of [storm_1954_16] with every separator replaced, and text
    added after the last column of a data line. *)
Definition storm_1954_16_garbled : list string :=
  [ "AL161954;              ALICE;      2;" ++ nl;
    "19541231; 1800;  ; HU; 23.5N;  56.0W;  65; -999; -999; -999; -999; -999; -999; -999; -999; -999; -999; -999; -999; -999; -999; and nothing after";
    "19550101/ 0000/  / HU/ 22.9N/  57.2W/  70/ -999/ -999/ -999/ -999/ -999/ -999/ -999/ -999/ -999/ -999/ -999/ -999/ -999/ -999" ].

(** ** Lines in file order *)

(** [subseq l1 l2]: the list [l1] is [l2] with some elements left out, the
    others in the same order. *)
Inductive subseq {A : Type} : list A -> list A -> Prop :=
| subseq_nil : subseq [] []
| subseq_skip (x : A) (l1 l2 : list A) : subseq l1 l2 -> subseq l1 (x :: l2)
| subseq_keep (x : A) (l1 l2 : list A) :
    subseq l1 l2 -> subseq (x :: l1) (x :: l2).

(** ** What a trimmed field is

    The whitespace-trimmed substring of a column range, spelled out
    character by character, with neither [strip] nor the slice. *)

(** A string of whitespace only. *)
Fixpoint blank (s : string) : bool :=
  match s with
  | EmptyString => true
  | String c r => is_space c && blank r
  end.

Fixpoint last_char (s : string) : option ascii :=
  match s with
  | EmptyString => None
  | String c r => match r with EmptyString => Some c | _ => last_char r end
  end.

Definition no_trailing_space (s : string) : Prop :=
  match last_char s with
  | Some c => is_space c = false
  | None => True
  end.

(** [t] holds the characters of [line] at the columns [a] to [b - 1], as
    far as the line goes. *)
Definition columns_of (line : string) (a b : nat) (t : string) : Prop :=
  forall i, String.get i t =
            if (i <? b - a)%nat then String.get (a + i) line else None.

(** The cell is a string [s] such that the columns [a] to [b - 1] of the
    line read: whitespace, then [s], then whitespace; and [s] neither
    starts nor ends with whitespace. *)
Definition trimmed_field (line : string) (a b : nat) (cell : option value)
  : Prop :=
  exists s pre post,
    cell = Some (VStr s) /\
    columns_of line a b (pre ++ s ++ post) /\
    blank pre = true /\ blank post = true /\
    no_leading_space s /\ no_trailing_space s.

(** A year written with four decimal digits. *)
Definition four_digits (s : string) : bool :=
  (String.length s =? 4)%nat && all_digits s.

(** A header that declares three entries, followed by one data line that
    converts and one whose latitude is not a float literal. *)
Definition truncated_unreadable : list string :=
  [ "AL021851,            UNNAMED,      3," ++ nl;
    track_line "18510705" "1200" " " "HU" "22.2N" " 97.6W" " 80";
    track_line "18510705" "1800" " " "HU" "2x.5N" " 98.0W" " 80" ].

(** Two storms whose lines differ in every field the casts read; the
    first one crosses a year boundary under its header. *)
Definition new_year_storms : list string :=
  [ "AL122005,            KATRINA,      2," ++ nl;
    "20051231, 1800, L, HU, 26.3N,  88.6W, 150,  902,  200,  201,  150,  202,  120,  121,   75,  100,   90,   91,   50,   76,   15" ++ nl;
    "20060101, 0000, L, HU, 27.2N,  89.2W, 145,  904,  200,  201,  150,  202,  120,  121,   75,  100,   90,   91,   50,   76,   15" ++ nl;
    "AL052006,              ISAAC,      1," ++ nl;
    "20061015, 0615,  , TS, 31.0N,  12.5E,  45, 1001,   60,   61,   30,   40,   10,   11,   12,   13,    0,    1,    2,    3,   25" ++ nl ].

(** * Properties *)

(** ** Strings *)

Lemma drop_past_end (n : nat) (s : string) :
  (String.length s <= n)%nat -> drop n s = "".
Proof.
  revert s; induction n as [|n IH]; intros [|c r] H; simpl in *;
    try reflexivity; try lia.
  apply IH; lia.
Qed.

Lemma take_empty (n : nat) : take n "" = "".
Proof. destruct n; reflexivity. Qed.

Lemma take_length (n : nat) (s : string) :
  (String.length (take n s) <= n)%nat.
Proof.
  revert s; induction n as [|n IH]; intros [|c r]; simpl; try lia.
  specialize (IH r); lia.
Qed.

Lemma slice_past_end (a b : nat) (s : string) :
  (String.length s <= a)%nat -> slice a b s = "".
Proof.
  intros H; unfold slice; rewrite drop_past_end by exact H.
  apply take_empty.
Qed.

Lemma slice_length (a b : nat) (s : string) :
  (String.length (slice a b s) <= b - a)%nat.
Proof. apply take_length. Qed.

Lemma lstrip_no_leading (s : string) : no_leading_space (lstrip s).
Proof.
  induction s as [|c r IH]; simpl; [exact I|].
  destruct (is_space c) eqn:E; [exact IH | exact E].
Qed.

Lemma lstrip_fixed (s : string) : no_leading_space s -> lstrip s = s.
Proof. destruct s as [|c r]; simpl; [reflexivity | intros ->; reflexivity]. Qed.

Lemma rstrip_no_leading (s : string) :
  no_leading_space s -> no_leading_space (rstrip s).
Proof.
  destruct s as [|c r]; simpl; [exact (fun H => H)|].
  intros H; destruct (rstrip r); simpl; [rewrite H; exact H | exact H].
Qed.

Lemma rstrip_idempotent (s : string) : rstrip (rstrip s) = rstrip s.
Proof.
  induction s as [|c r IH]; simpl; [reflexivity|].
  destruct (rstrip r) as [|c' r'] eqn:E.
  - destruct (is_space c) eqn:Ec; simpl; [reflexivity | rewrite Ec; reflexivity].
  - change (rstrip (String c (String c' r'))) with
      (match rstrip (String c' r') with
       | EmptyString => if is_space c then EmptyString else String c EmptyString
       | r'' => String c r''
       end).
    rewrite IH; reflexivity.
Qed.

Lemma get_drop (a i : nat) (s : string) :
  String.get i (drop a s) = String.get (a + i) s.
Proof.
  revert s; induction a as [|a IH]; intros s; [reflexivity|].
  destruct s as [|c r]; simpl; [destruct i; reflexivity | apply IH].
Qed.

Lemma get_take (n i : nat) (s : string) :
  String.get i (take n s) = if (i <? n)%nat then String.get i s else None.
Proof.
  revert i s; induction n as [|n IH]; intros i s.
  - simpl; destruct i; reflexivity.
  - destruct s as [|c r]; simpl.
    + destruct (i <? S n)%nat; destruct i; reflexivity.
    + destruct i as [|i]; [reflexivity|].
      rewrite IH; reflexivity.
Qed.

Lemma get_slice (a b : nat) (s : string) : columns_of s a b (slice a b s).
Proof.
  intros i; unfold slice; rewrite get_take, get_drop; reflexivity.
Qed.

Lemma lstrip_split (s : string) :
  exists pre, s = (pre ++ lstrip s)%string /\ blank pre = true.
Proof.
  induction s as [|c r (pre & E & B)]; simpl.
  - exists ""; auto.
  - destruct (is_space c) eqn:Ec.
    + exists (String c pre); simpl; rewrite <- E, Ec, B; auto.
    + exists ""; auto.
Qed.

Lemma rstrip_split (s : string) :
  exists post, s = (rstrip s ++ post)%string /\ blank post = true.
Proof.
  induction s as [|c r (post & E & B)]; simpl.
  - exists ""; auto.
  - destruct (rstrip r) as [|c' r'] eqn:Er.
    + simpl in E; subst r.
      destruct (is_space c) eqn:Ec.
      * exists (String c post); simpl; rewrite Ec, B; auto.
      * exists post; auto.
    + exists post; split; [simpl; f_equal; exact E | exact B].
Qed.

Lemma rstrip_no_trailing (s : string) : no_trailing_space (rstrip s).
Proof.
  unfold no_trailing_space.
  induction s as [|c r IH]; simpl; [exact I|].
  destruct (rstrip r) as [|c' r'] eqn:Er.
  - destruct (is_space c) eqn:Ec; simpl; [exact I | exact Ec].
  - exact IH.
Qed.

(** [strip] trims: what it returns is what is left of the string once the
    whitespace at both ends is taken away. *)
Lemma strip_split (s : string) :
  exists pre post,
    s = (pre ++ strip s ++ post)%string /\
    blank pre = true /\ blank post = true /\
    no_leading_space (strip s) /\ no_trailing_space (strip s).
Proof.
  destruct (lstrip_split s) as (pre & E1 & B1).
  destruct (rstrip_split (lstrip s)) as (post & E2 & B2).
  exists pre, post; unfold strip.
  split; [rewrite <- E2; exact E1|].
  repeat split; try assumption.
  - apply rstrip_no_leading, lstrip_no_leading.
  - apply rstrip_no_trailing.
Qed.

(** A stripped string is a fixed point of [strip]: it carries no
    surrounding whitespace. *)
Lemma strip_idempotent (s : string) : strip (strip s) = strip s.
Proof.
  unfold strip.
  rewrite (lstrip_fixed (rstrip (lstrip s))).
  - apply rstrip_idempotent.
  - apply rstrip_no_leading, lstrip_no_leading.
Qed.

(** ** Dicts *)

Lemma dict_get_set_same (d : dict) (k : string) (v : value) :
  dict_get k (dict_set d k v) = Some v.
Proof.
  induction d as [|[k' v'] r IH]; simpl.
  - rewrite String.eqb_refl; reflexivity.
  - destruct (String.eqb k k') eqn:E; simpl; rewrite E; auto.
Qed.

Lemma dict_get_set_other (d : dict) (k k' : string) (v : value) :
  k <> k' -> dict_get k (dict_set d k' v) = dict_get k d.
Proof.
  intros N; induction d as [|[k0 v0] r IH]; simpl.
  - destruct (String.eqb_spec k k'); [contradiction | reflexivity].
  - destruct (String.eqb_spec k' k0) as [->|N0]; simpl.
    + destruct (String.eqb_spec k k0); [contradiction | reflexivity].
    + destruct (String.eqb k k0); [reflexivity | exact IH].
Qed.

Lemma dict_get_not_In (d : dict) (k : string) :
  ~ In k (map fst d) -> dict_get k d = None.
Proof.
  induction d as [|[k' v'] r IH]; simpl; [reflexivity|].
  intros N; destruct (String.eqb_spec k k') as [->|_].
  - exfalso; apply N; left; reflexivity.
  - apply IH; intros H; apply N; right; exact H.
Qed.

(** In [{**a, **b}] a key of [b] takes its value from [b], any other key
    keeps the value it has in [a]. *)
Lemma dict_get_merge (a b : dict) (k : string) :
  NoDup (map fst b) ->
  dict_get k (dict_merge a b) =
  match dict_get k b with
  | Some v => Some v
  | None => dict_get k a
  end.
Proof.
  unfold dict_merge; revert a.
  induction b as [|[k' v'] r IH]; intros a ND; simpl; [reflexivity|].
  inversion ND as [|? ? Hnotin ND']; subst.
  rewrite IH by exact ND'.
  destruct (String.eqb_spec k k') as [->|N].
  - rewrite (dict_get_not_In r k' Hnotin).
    apply dict_get_set_same.
  - rewrite dict_get_set_other by exact N; reflexivity.
Qed.

(** ** The result monad *)

Lemma bind_Ok {A B : Type} (m : result A) (f : A -> result B) (b : B) :
  bind m f = Ok b -> exists a, m = Ok a /\ f a = Ok b.
Proof. destruct m; simpl; [eauto | discriminate]. Qed.

Lemma mapM_length {A B : Type} (f : A -> result B) (l : list A) (l' : list B) :
  mapM f l = Ok l' -> List.length l' = List.length l.
Proof.
  revert l'; induction l as [|x r IH]; simpl; intros l' H.
  - injection H as <-; reflexivity.
  - apply bind_Ok in H as (y & _ & H).
    apply bind_Ok in H as (ys & Hys & H).
    injection H as <-; simpl; f_equal; exact (IH _ Hys).
Qed.

Lemma mapM_Forall2 {A B : Type} (f : A -> result B) (l : list A) (l' : list B) :
  mapM f l = Ok l' <-> Forall2 (fun x y => f x = Ok y) l l'.
Proof.
  revert l'; induction l as [|x r IH]; simpl; intros l'.
  - split.
    + intros [= <-]; constructor.
    + intros H; inversion H; reflexivity.
  - split.
    + intros H.
      apply bind_Ok in H as (y & Hy & H).
      apply bind_Ok in H as (ys & Hys & H).
      injection H as <-; constructor; [exact Hy | apply IH; exact Hys].
    + intros H; inversion H as [|? y ? ys Hy Hys]; subst.
      rewrite Hy; simpl.
      apply IH in Hys; rewrite Hys; reflexivity.
Qed.

Lemma fails_with_Ok {A : Type} (a : A) (cls : string) :
  ~ fails_with (Ok a) cls.
Proof. intros (e & H & _); discriminate. Qed.

(** ** The line parsers *)

Lemma strip_length (s : string) : (String.length (strip s) <= String.length s)%nat.
Proof.
  unfold strip.
  assert (L : forall t, (String.length (lstrip t) <= String.length t)%nat).
  { induction t as [|c r IH]; simpl; [lia|].
    destruct (is_space c); simpl; lia. }
  assert (R : forall t, (String.length (rstrip t) <= String.length t)%nat).
  { induction t as [|c r IH]; simpl; [lia|].
    destruct (rstrip r); [destruct (is_space c)|]; simpl in *; lia. }
  specialize (L s); specialize (R (lstrip s)); lia.
Qed.

Lemma field_trimmed (line : string) (a b : nat) :
  trimmed_field line a b (Some (field a b line)).
Proof.
  destruct (strip_split (slice a b line)) as (pre & post & E & B1 & B2 & L & T).
  exists (strip (slice a b line)), pre, post.
  split; [reflexivity|].
  split; [rewrite <- E; apply get_slice|].
  repeat split; assumption.
Qed.

Lemma field_past_end (line : string) (a b : nat) :
  (String.length line <= a)%nat -> Some (field a b line) = Some (VStr "").
Proof.
  intros H; unfold field; rewrite slice_past_end by exact H; reflexivity.
Qed.

(** C10.  The header line parser and the data line parser are total: on
    every string, the empty one and those shorter than the largest offset
    included, each returns its record without raising, with the keys in
    the order of the source.  Every field of the record is the
    whitespace-trimmed substring of its column range: the characters of
    the line at these columns, as far as the line goes, read whitespace,
    then the field, then whitespace, and the field neither starts nor ends
    with whitespace.  A field whose column range lies beyond the end of the
    line is the empty string. *)
Theorem parsers_total (line : string) :
  exists h d,
    parse_header_line line = Ok h /\
    parse_data_line line = Ok d /\
    map fst h = map fst header_layout /\
    map fst d = map fst data_layout /\
    (forall name a b, In (name, (a, b)) header_layout ->
       trimmed_field line a b (dict_get name h) /\
       ((String.length line <= a)%nat -> dict_get name h = Some (VStr ""))) /\
    (forall name a b, In (name, (a, b)) data_layout ->
       trimmed_field line a b (dict_get name d) /\
       ((String.length line <= a)%nat -> dict_get name d = Some (VStr ""))).
Proof.
  eexists; eexists.
  split; [reflexivity|]. split; [reflexivity|].
  split; [reflexivity|]. split; [reflexivity|].
  split; intros name a b Hin; simpl in Hin;
    repeat (destruct Hin as [Hin|Hin];
            [injection Hin as <- <- <-;
             split; [exact (field_trimmed line _ _)
                    | exact (field_past_end line _ _)]|]);
    destruct Hin.
Qed.

(** ** The record assembler *)

Lemma data_record_eq (header : dict) (raw : string) :
  data_record header raw =
  ('(lat, lon) <- line_coordinates (strip raw) ;;
   Ok (dict_merge header (converted_data (strip raw) lat lon))).
Proof. reflexivity. Qed.

Lemma convert_lat_lon_raises (lat lath lon lonh : string) (e : exn) :
  convert_lat_lon (VStr lat) (VStr lath) (VStr lon) (VStr lonh) = Raise e ->
  e = ValueError.
Proof.
  unfold convert_lat_lon, float_, py_float; simpl.
  repeat match goal with
         | |- context [match ?x with _ => _ end] => destruct x; simpl
         | |- context [if ?x then _ else _] => destruct x; simpl
         end; congruence.
Qed.

Lemma data_record_raises (header : dict) (raw : string) (e : exn) :
  data_record header raw = Raise e -> e = ValueError.
Proof.
  rewrite data_record_eq; unfold line_coordinates, field.
  destruct (convert_lat_lon _ _ _ _) as [[lat lon]|e'] eqn:E; cbn [bind].
  - discriminate.
  - intros [= <-]; exact (convert_lat_lon_raises _ _ _ _ _ E).
Qed.

(** The [for] loop as a whole: the next [n] lines are converted in order;
    the first line that fails to convert raises; when they all convert but
    fewer than [n] are left, reading past the end raises [IndexError];
    otherwise the loop hands over to [k] with the records appended. *)
Lemma for_range_eq (k : list string -> list dict -> result (list dict))
    (header : dict) (n : nat) (lines : list string) (data : list dict) :
  for_range k header n lines data =
  (recs <- mapM (data_record header) (firstn n lines) ;;
   if (n <=? List.length lines)%nat
   then k (skipn n lines) (data ++ recs)%list
   else Raise IndexError).
Proof.
  revert lines data; induction n as [|n IH]; intros lines data.
  - destruct lines; simpl; rewrite app_nil_r; reflexivity.
  - destruct lines as [|raw rest]; simpl; [reflexivity|].
    destruct (data_record header raw) as [r|e]; simpl; [|reflexivity].
    rewrite IH.
    destruct (mapM (data_record header) (firstn n rest)) as [rs|e]; simpl;
      [|reflexivity].
    rewrite <- app_assoc; reflexivity.
Qed.

Lemma while_loop_cons (raw : string) (rest : list string) (data : list dict) :
  while_loop (raw :: rest) data =
  (if startswith (strip raw) "AL" then
     header <- parse_header_line (strip raw) ;;
     e <- getitem header "Entries" ;;
     entries <- int_ e ;;
     for_range while_loop (dict_set header "Entries" (VInt entries))
               (Z.to_nat entries) rest data
   else while_loop rest data).
Proof. reflexivity. Qed.

Lemma while_loop_skip (raw : string) (rest : list string) (data : list dict) :
  startswith (strip raw) "AL" = false ->
  while_loop (raw :: rest) data = while_loop rest data.
Proof. intros H; rewrite while_loop_cons, H; reflexivity. Qed.

Lemma while_loop_header (raw : string) (rest : list string) (data : list dict) :
  startswith (strip raw) "AL" = true ->
  while_loop (raw :: rest) data =
  (entries <- int_ (field 33 36 (strip raw)) ;;
   recs <- mapM (data_record (assembled_header (strip raw) entries))
                (firstn (Z.to_nat entries) rest) ;;
   if (Z.to_nat entries <=? List.length rest)%nat
   then while_loop (skipn (Z.to_nat entries) rest) (data ++ recs)%list
   else Raise IndexError).
Proof.
  intros H; rewrite while_loop_cons, H.
  change (parse_header_line (strip raw)) with
    (Ok [ ("Basin", field 0 2 (strip raw)); ("CycloneID", field 2 4 (strip raw));
          ("Year", field 4 8 (strip raw)); ("Name", field 18 28 (strip raw));
          ("Entries", field 33 36 (strip raw)) ]).
  cbn [bind getitem dict_get String.eqb Ascii.eqb Bool.eqb].
  destruct (int_ (field 33 36 (strip raw))) as [entries|e]; cbn [bind];
    [|reflexivity].
  rewrite for_range_eq; reflexivity.
Qed.

(** The records already emitted play no part in what the loop does next. *)
Lemma while_loop_data (lines : list string) (data : list dict) :
  while_loop lines data =
  (recs <- while_loop lines [] ;; Ok (data ++ recs)%list).
Proof.
  remember (List.length lines) as len eqn:Hlen.
  revert lines data Hlen.
  induction len as [len IH] using lt_wf_ind; intros lines data Hlen.
  destruct lines as [|raw rest].
  - simpl; rewrite app_nil_r; reflexivity.
  - destruct (startswith (strip raw) "AL") eqn:Hal.
    + rewrite !while_loop_header by exact Hal.
      destruct (int_ (field 33 36 (strip raw))) as [entries|e]; simpl;
        [|reflexivity].
      destruct (mapM _ (firstn (Z.to_nat entries) rest)) as [recs|e]; simpl;
        [|reflexivity].
      destruct (Z.to_nat entries <=? List.length rest)%nat; [|reflexivity].
      assert (Hlt : (List.length (skipn (Z.to_nat entries) rest) < len)%nat).
      { rewrite length_skipn; simpl in Hlen; lia. }
      rewrite (IH _ Hlt _ (data ++ recs)%list eq_refl).
      rewrite (IH _ Hlt _ recs eq_refl).
      destruct (while_loop (skipn (Z.to_nat entries) rest) []) as [out|e];
        simpl; [rewrite app_assoc|]; reflexivity.
    + rewrite !while_loop_skip by exact Hal.
      apply (IH (List.length rest)); [simpl in Hlen; lia | reflexivity].
Qed.

(** A prefix of the input that is assembled without error is assembled the
    same way when more lines follow, and the scan resumes right after it. *)
Lemma while_loop_app (pre post : list string) (recs data : list dict) :
  while_loop pre [] = Ok recs ->
  while_loop (pre ++ post) data = while_loop post (data ++ recs)%list.
Proof.
  remember (List.length pre) as len eqn:Hlen.
  revert pre recs data Hlen.
  induction len as [len IH] using lt_wf_ind; intros pre recs data Hlen H.
  destruct pre as [|raw rest].
  - injection H as <-; simpl; rewrite app_nil_r; reflexivity.
  - rewrite <- app_comm_cons.
    destruct (startswith (strip raw) "AL") eqn:Hal.
    + rewrite while_loop_header in H |- * by exact Hal.
      destruct (int_ (field 33 36 (strip raw))) as [entries|e]; simpl in *;
        [|discriminate].
      destruct (mapM _ (firstn (Z.to_nat entries) rest)) as [block|e] eqn:Hb;
        simpl in H; [|discriminate].
      destruct (Z.to_nat entries <=? List.length rest)%nat eqn:Hn;
        [|discriminate].
      apply Nat.leb_le in Hn.
      rewrite firstn_app, skipn_app.
      replace (Z.to_nat entries - List.length rest)%nat with 0%nat by lia.
      simpl firstn; simpl skipn; rewrite app_nil_r, Hb; simpl.
      rewrite length_app.
      destruct (Nat.leb_spec (Z.to_nat entries)
                  (List.length rest + List.length post)); [|lia].
      rewrite while_loop_data in H.
      destruct (while_loop (skipn (Z.to_nat entries) rest) []) as [out|e] eqn:Ho;
        simpl in H; [|discriminate].
      injection H as <-.
      rewrite (IH (List.length (skipn (Z.to_nat entries) rest)))
        with (recs := out); try reflexivity; try exact Ho.
      * rewrite !app_assoc; reflexivity.
      * rewrite length_skipn; simpl in Hlen; lia.
    + rewrite while_loop_skip in H |- * by exact Hal.
      apply (IH (List.length rest)); [simpl in Hlen; lia | reflexivity | exact H].
Qed.

(** The assembler returns a frame exactly when the scan can be carried to
    the end of the input, and the frame is then what the scan emits. *)
Lemma parse_hurdat2_emits (lines : list string) (df : list dict) :
  parse_hurdat2 lines = Ok df <-> emits lines df.
Proof.
  unfold parse_hurdat2; split.
  - remember (List.length lines) as len eqn:Hlen.
    revert lines df Hlen.
    induction len as [len IH] using lt_wf_ind; intros lines df Hlen H.
    destruct lines as [|raw rest].
    + injection H as <-; constructor.
    + destruct (startswith (strip raw) "AL") eqn:Hal.
      * rewrite while_loop_header in H by exact Hal.
        destruct (int_ (field 33 36 (strip raw))) as [entries|e] eqn:He;
          simpl in H; [|discriminate].
        destruct (mapM _ (firstn (Z.to_nat entries) rest)) as [recs|e] eqn:Hb;
          simpl in H; [|discriminate].
        destruct (Z.to_nat entries <=? List.length rest)%nat eqn:Hn;
          [|discriminate].
        apply Nat.leb_le in Hn.
        rewrite while_loop_data in H.
        destruct (while_loop (skipn (Z.to_nat entries) rest) []) as [out|e] eqn:Ho;
          simpl in H; [|discriminate].
        injection H as <-.
        apply emits_storm with (entries := entries); auto.
        -- apply mapM_Forall2; exact Hb.
        -- apply (IH (List.length (skipn (Z.to_nat entries) rest)));
             [rewrite length_skipn; simpl in Hlen; lia | reflexivity | exact Ho].
      * rewrite while_loop_skip in H by exact Hal.
        apply emits_skip; [exact Hal|].
        apply (IH (List.length rest)); [simpl in Hlen; lia | reflexivity | exact H].
  - induction 1 as [|raw rest out Hal _ IH
                    |raw rest entries recs out Hal He Hn Hb _ IH].
    + reflexivity.
    + rewrite while_loop_skip by exact Hal; exact IH.
    + rewrite while_loop_header by exact Hal.
      rewrite He; simpl.
      apply mapM_Forall2 in Hb; rewrite Hb; simpl.
      apply Nat.leb_le in Hn; rewrite Hn.
      rewrite while_loop_data, IH; reflexivity.
Qed.

Lemma emits_record_of (lines : list string) (df : list dict) :
  emits lines df -> Forall (record_of lines) df.
Proof.
  assert (W : forall l l' r, incl l l' -> record_of l r -> record_of l' r).
  { intros l l' r Hi (hraw & raw & n & H1 & H2 & H3).
    exists hraw, raw, n; repeat split; try tauto; apply Hi; tauto. }
  induction 1 as [|raw rest out Hal _ IH
                  |raw rest entries recs out Hal He Hn Hb _ IH].
  - constructor.
  - eapply Forall_impl; [|exact IH].
    intros r; apply W; apply incl_tl, incl_refl.
  - apply Forall_app; split.
    + clear IH.
      assert (Hin : incl (firstn (Z.to_nat entries) rest) rest).
      { intros x Hx; rewrite <- (firstn_skipn (Z.to_nat entries) rest).
        apply in_or_app; left; exact Hx. }
      revert Hin; induction Hb as [|l r ls rs Hlr _ IHb]; intros Hin;
        constructor.
      * exists raw, l, entries; repeat split; auto.
        -- left; reflexivity.
        -- right; apply Hin; left; reflexivity.
      * apply IHb; intros x Hx; apply Hin; right; exact Hx.
    + eapply Forall_impl; [|exact IH].
      intros r; apply W.
      intros x Hx; right.
      rewrite <- (firstn_skipn (Z.to_nat entries) rest).
      apply in_or_app; right; exact Hx.
Qed.

(** The optional sign that [int] and [float] read first: names the sign
    and the rest of the stripped string. *)
Ltac split_sign s neg body :=
  destruct (match strip s with
            | String "+" r => (false, r)
            | String "-" r => (true, r)
            | _ => (false, strip s)
            end) as [neg body].

Lemma py_int_raises (s : string) (e : exn) : py_int s = Raise e -> e = ValueError.
Proof.
  unfold py_int.
  split_sign s neg body.
  destruct (digitpart 0 0 false body) as [[[v c] [|? ?]]|]; congruence.
Qed.

Lemma int_field_raises (a b : nat) (line : string) (e : exn) :
  int_ (field a b line) = Raise e -> e = ValueError.
Proof. apply py_int_raises. Qed.

Lemma parse_hurdat2_skip (raw : string) (rest : list string) :
  startswith (strip raw) "AL" = false ->
  parse_hurdat2 (raw :: rest) = parse_hurdat2 rest.
Proof. apply while_loop_skip. Qed.

Lemma parse_hurdat2_header (raw : string) (rest : list string) :
  startswith (strip raw) "AL" = true ->
  parse_hurdat2 (raw :: rest) =
  (entries <- int_ (field 33 36 (strip raw)) ;;
   recs <- mapM (data_record (assembled_header (strip raw) entries))
                (firstn (Z.to_nat entries) rest) ;;
   if (Z.to_nat entries <=? List.length rest)%nat
   then out <- parse_hurdat2 (skipn (Z.to_nat entries) rest) ;;
        Ok (recs ++ out)%list
   else Raise IndexError).
Proof.
  intros H; unfold parse_hurdat2.
  rewrite while_loop_header by exact H.
  destruct (int_ _) as [entries|e]; simpl; [|reflexivity].
  destruct (mapM _ _) as [recs|e]; simpl; [|reflexivity].
  destruct (_ <=? _)%nat; [|reflexivity].
  rewrite while_loop_data; reflexivity.
Qed.

(** C2 (amended).  The assembler tells a header from any other line by one
    test only: whether the stripped line starts with the two letters [AL].
    A line that does not is passed over, whatever its shape, and so is a
    well-formed header of another basin; a line that does is processed as a
    header, whatever its shape: its count field goes through [int], and the
    lines that follow are read as its data lines. *)
Theorem header_detection_by_prefix (raw : string) (rest : list string) :
  (startswith (strip raw) "AL" = false ->
   parse_hurdat2 (raw :: rest) = parse_hurdat2 rest) /\
  (startswith (strip raw) "AL" = true ->
   parse_hurdat2 (raw :: rest) =
   (entries <- int_ (field 33 36 (strip raw)) ;;
    recs <- mapM (data_record (assembled_header (strip raw) entries))
                 (firstn (Z.to_nat entries) rest) ;;
    if (Z.to_nat entries <=? List.length rest)%nat
    then out <- parse_hurdat2 (skipn (Z.to_nat entries) rest) ;;
         Ok (recs ++ out)%list
    else Raise IndexError)).
Proof.
  split; [apply parse_hurdat2_skip | apply parse_hurdat2_header].
Qed.

Lemma header_detection_by_prefix_witness :
  parse_hurdat2 pacific_storm = parse_hurdat2 (tl pacific_storm) /\
  exists r, parse_hurdat2 storm_lat_283 = Ok [r].
Proof.
  split.
  - apply (proj1 (header_detection_by_prefix pacific_header (tl pacific_storm))).
    vm_compute; reflexivity.
  - eexists.
    change storm_lat_283 with (hd "" storm_lat_283 :: tl storm_lat_283).
    rewrite (proj2 (header_detection_by_prefix (hd "" storm_lat_283)
                      (tl storm_lat_283))) by (vm_compute; reflexivity).
    vm_compute; reflexivity.
Defined.

(** C2, as stated, fails: the sample header of basin [EP] parses under the
    header line parser, with an integer count, and yet the assembler does
    not treat it as a header: nothing is emitted for its data line. *)
Lemma header_detection_counterexample :
  (exists h, parse_header_line (strip pacific_header) = Ok h /\
             dict_get "Basin" h = Some (VStr "EP") /\
             (e <- getitem h "Entries" ;; int_ e) = Ok 1) /\
  List.length (tl pacific_storm) = 1%nat /\
  parse_hurdat2 pacific_storm = Ok [].
Proof.
  split; [eexists; split; [reflexivity|]|]; vm_compute; auto.
Qed.

Lemma mapM_first_raise {A B : Type} (f : A -> result B)
    (good : list A) (bad : A) (tail : list A) (e : exn) :
  Forall (fun x => returns (f x)) good -> f bad = Raise e ->
  mapM f (good ++ bad :: tail) = Raise e.
Proof.
  intros Hgood Hbad; induction Hgood as [|x l [y Hy] _ IH]; simpl.
  - rewrite Hbad; reflexivity.
  - rewrite Hy, IH; reflexivity.
Qed.

(** C4 (amended).  When a header declares more entries than there are
    lines left, the assembler fails, and no record is returned: with
    [IndexError], raised by the read past the last line, when the lines
    that are left all convert; otherwise with the error of the first line
    whose coordinates do not convert, which is a [ValueError].  It never
    fails with an error of class [TruncatedStormError]. *)
Theorem truncated_storm_raises (pre : list string) (recs : list dict)
    (raw : string) (rest : list string) (n : Z) :
  parse_hurdat2 pre = Ok recs ->
  startswith (strip raw) "AL" = true ->
  int_ (field 33 36 (strip raw)) = Ok n ->
  Z.of_nat (List.length rest) < n ->
  (exists e, parse_hurdat2 (pre ++ raw :: rest) = Raise e /\
             (e = IndexError \/ e = ValueError)) /\
  (Forall (fun l => returns (line_coordinates (strip l))) rest ->
   parse_hurdat2 (pre ++ raw :: rest) = Raise IndexError) /\
  (forall good bad tail e,
      rest = (good ++ bad :: tail)%list ->
      Forall (fun l => returns (line_coordinates (strip l))) good ->
      line_coordinates (strip bad) = Raise e ->
      e = ValueError /\
      parse_hurdat2 (pre ++ raw :: rest) = Raise ValueError) /\
  ~ fails_with (parse_hurdat2 (pre ++ raw :: rest)) "TruncatedStormError".
Proof.
  intros Hpre Hal Hn Hlt.
  assert (Heq : parse_hurdat2 (pre ++ raw :: rest) =
                (_ <- mapM (data_record (assembled_header (strip raw) n)) rest ;;
                 Raise IndexError)).
  { unfold parse_hurdat2 in *.
    rewrite (while_loop_app pre (raw :: rest) recs [] Hpre).
    rewrite while_loop_header by exact Hal.
    rewrite Hn; simpl.
    rewrite firstn_all2 by lia.
    destruct (mapM _ rest); simpl; [|reflexivity].
    destruct (Nat.leb_spec (Z.to_nat n) (List.length rest)); [lia | reflexivity]. }
  assert (Hex : exists e, parse_hurdat2 (pre ++ raw :: rest) = Raise e /\
                          (e = IndexError \/ e = ValueError)).
  { rewrite Heq; clear Heq.
    generalize (assembled_header (strip raw) n); intros h.
    induction rest as [|l ls IH]; simpl.
    - eexists; split; [reflexivity | left; reflexivity].
    - destruct (data_record h l) as [r|e] eqn:Hr; simpl.
      + assert (Hlt' : Z.of_nat (List.length ls) < n) by (simpl in Hlt; lia).
        destruct (IH Hlt') as (e & He & Hor).
        destruct (mapM (data_record h) ls); simpl in *;
          eexists; split; try reflexivity; try (left; reflexivity).
        injection He as <-; exact Hor.
      + exists e; split; [reflexivity|].
        right; exact (data_record_raises _ _ _ Hr). }
  split; [exact Hex|]. split; [|split].
  - intros Hok; rewrite Heq; clear Heq Hex.
    generalize (assembled_header (strip raw) n); intros h.
    clear Hlt; induction Hok as [|l ls [[lat lon] Hl] _ IH]; simpl;
      [reflexivity|].
    rewrite data_record_eq, Hl; cbn [bind].
    destruct (mapM (data_record h) ls); cbn [bind] in *;
      [reflexivity | exact IH].
  - intros good bad tail e Hrest Hgood Hbad.
    assert (Hrec : data_record (assembled_header (strip raw) n) bad = Raise e).
    { rewrite data_record_eq, Hbad; reflexivity. }
    pose proof (data_record_raises _ _ _ Hrec) as He; subst e.
    split; [reflexivity|].
    rewrite Heq, Hrest.
    rewrite (mapM_first_raise _ good bad tail ValueError); [reflexivity| |exact Hrec].
    eapply Forall_impl; [|exact Hgood].
    intros l [[lat lon] Hl]; exists (dict_merge (assembled_header (strip raw) n)
                                      (converted_data (strip l) lat lon)).
    rewrite data_record_eq, Hl; reflexivity.
  - destruct Hex as (e & He & Hor); rewrite He.
    intros (e' & [= <-] & Hname).
    destruct Hor as [-> | ->]; discriminate.
Qed.

Lemma truncated_storm_raises_witness :
  parse_hurdat2 (storm_1851_01 ++ truncated_storm) = Raise IndexError /\
  parse_hurdat2 (storm_1851_01 ++ truncated_unreadable) = Raise ValueError.
Proof.
  assert (Hpre : exists recs, parse_hurdat2 storm_1851_01 = Ok recs)
    by (eexists; vm_compute; reflexivity).
  destruct Hpre as [recs Hpre].
  split.
  - change truncated_storm with (hd "" truncated_storm :: tl truncated_storm).
    refine (proj1 (proj2 (truncated_storm_raises storm_1851_01 recs
                            (hd "" truncated_storm) (tl truncated_storm) 3
                            Hpre _ _ _)) _).
    + vm_compute; reflexivity.
    + vm_compute; reflexivity.
    + vm_compute; reflexivity.
    + repeat constructor; eexists; vm_compute; reflexivity.
  - change truncated_unreadable
      with (hd "" truncated_unreadable :: tl truncated_unreadable).
    destruct (truncated_storm_raises storm_1851_01 recs
                (hd "" truncated_unreadable) (tl truncated_unreadable) 3 Hpre)
      as (_ & _ & H & _).
    + vm_compute; reflexivity.
    + vm_compute; reflexivity.
    + vm_compute; reflexivity.
    + apply (H [nth 1 truncated_unreadable ""]%list
               (nth 2 truncated_unreadable "") []%list ValueError).
      * reflexivity.
      * repeat constructor; eexists; vm_compute; reflexivity.
      * vm_compute; reflexivity.
Defined.

(** C4, as stated, fails: a header that declares three entries, followed
    by two data lines and the end of the input, makes the assembler raise
    [IndexError], which is not a [TruncatedStormError]. *)
Lemma truncated_storm_counterexample :
  parse_hurdat2 truncated_storm = Raise IndexError /\
  ~ fails_with (parse_hurdat2 truncated_storm) "TruncatedStormError".
Proof.
  assert (H : parse_hurdat2 truncated_storm = Raise IndexError)
    by (vm_compute; reflexivity).
  split; [exact H|].
  rewrite H; intros (e & [= <-] & Hname); discriminate.
Qed.

(** C6 (amended).  The header line parser never fails: on every line,
    however short and whatever stands in its count columns, it returns the
    five whitespace-trimmed fields.  The count (columns 33 to 35) is
    converted afterwards, by the assembler, with [int]: a line starting
    with [AL] whose count is not an integer literal makes the assembler
    fail with [ValueError], and a count that is zero or negative is
    accepted, no data line being read for it. *)
Theorem header_parser_never_fails (line : string) :
  parse_header_line line =
    Ok [ ("Basin", field 0 2 line); ("CycloneID", field 2 4 line);
         ("Year", field 4 8 line); ("Name", field 18 28 line);
         ("Entries", field 33 36 line) ] /\
  ~ fails_with (parse_header_line line) "MalformedHeaderError" /\
  (forall rest e,
      startswith (strip line) "AL" = true ->
      int_ (field 33 36 (strip line)) = Raise e ->
      parse_hurdat2 (line :: rest) = Raise ValueError) /\
  (forall rest n,
      startswith (strip line) "AL" = true ->
      int_ (field 33 36 (strip line)) = Ok n ->
      n <= 0 ->
      parse_hurdat2 (line :: rest) = parse_hurdat2 rest).
Proof.
  split; [reflexivity|].
  split; [apply fails_with_Ok|].
  split.
  - intros rest e Hal He.
    rewrite (parse_hurdat2_header line rest Hal), He; simpl.
    f_equal; exact (int_field_raises _ _ _ _ He).
  - intros rest n Hal Hn Hle.
    rewrite (parse_hurdat2_header line rest Hal), Hn; simpl.
    replace (Z.to_nat n) with 0%nat by lia; simpl.
    destruct (parse_hurdat2 rest); reflexivity.
Qed.

Lemma header_parser_never_fails_witness :
  parse_hurdat2 (bad_count_header :: tl storm_1851_01) = Raise ValueError /\
  parse_hurdat2 (negative_count_header :: tl pacific_storm) =
  parse_hurdat2 (tl pacific_storm).
Proof.
  split.
  - apply (proj1 (proj2 (proj2 (header_parser_never_fails bad_count_header)))
             (tl storm_1851_01) ValueError);
      vm_compute; reflexivity.
  - apply (proj2 (proj2 (proj2 (header_parser_never_fails negative_count_header)))
             (tl pacific_storm) (-2));
      vm_compute; congruence.
Defined.

(** C6, as stated, fails: a line of two characters, far shorter than the
    largest offset, and a line whose count columns read [abc], are both
    parsed without error. *)
Lemma header_parser_counterexample :
  (String.length short_header < 36)%nat /\
  parse_header_line short_header =
    Ok [ ("Basin", VStr "AL"); ("CycloneID", VStr ""); ("Year", VStr "");
         ("Name", VStr ""); ("Entries", VStr "") ] /\
  ~ fails_with (parse_header_line short_header) "MalformedHeaderError" /\
  int_ (field 33 36 bad_count_header) = Raise ValueError /\
  returns (parse_header_line bad_count_header) /\
  ~ fails_with (parse_header_line bad_count_header) "MalformedHeaderError".
Proof.
  split; [vm_compute; lia|].
  split; [reflexivity|].
  split; [apply fails_with_Ok|].
  split; [reflexivity|].
  split; [eexists; reflexivity | apply fails_with_Ok].
Qed.

(** ** Floats

    Every float the code computes is a valid binary64 value, and its
    multiplication by [1.0] or [-1.0] is exact. *)

Lemma digits2_size (p : positive) : digits2_pos p = Pos.size p.
Proof. induction p; simpl; congruence. Qed.

Lemma Zdigits2_log2 (p : positive) : Zdigits2 (Z.pos p) = Z.succ (Z.log2 (Z.pos p)).
Proof.
  simpl; rewrite digits2_size.
  destruct p; simpl; try rewrite Pos2Z.inj_succ; reflexivity.
Qed.

Lemma Zdigits2_bounds (m : Z) :
  0 < m -> 0 < Zdigits2 m /\ 2 ^ (Zdigits2 m - 1) <= m < 2 ^ Zdigits2 m.
Proof.
  destruct m as [|p|p]; try lia; intros _.
  rewrite Zdigits2_log2.
  pose proof (Z.log2_spec (Z.pos p) ltac:(lia)) as H.
  pose proof (Z.log2_nonneg (Z.pos p)).
  replace (Z.succ (Z.log2 (Z.pos p)) - 1) with (Z.log2 (Z.pos p)) by lia.
  lia.
Qed.

Lemma Zdigits2_unique (m d : Z) :
  2 ^ (d - 1) <= m < 2 ^ d -> 0 < m -> Zdigits2 m = d.
Proof.
  intros H Hm.
  destruct m as [|p|p]; try lia.
  rewrite Zdigits2_log2.
  assert (0 < d).
  { destruct (Z.ltb_spec 0 d); [assumption|].
    exfalso. destruct (Z.eqb_spec d 0).
    - subst; simpl in H; lia.
    - rewrite (Z.pow_neg_r 2 d) in H by lia. lia. }
  rewrite (Z.log2_unique (Z.pos p) (d - 1)); try lia.
  replace (Z.succ (d - 1)) with d by lia; lia.
Qed.

Lemma Zdigits2_nonneg (m : Z) : 0 <= Zdigits2 m.
Proof. destruct m; simpl; lia. Qed.

Lemma Zdigits2_lt_pow (m : Z) : 0 <= m -> m < 2 ^ Zdigits2 m.
Proof.
  intros H; destruct (Z.eqb_spec m 0) as [->|N]; [simpl; lia|].
  apply Zdigits2_bounds; lia.
Qed.

Lemma iter_pos_nat {A} (f : A -> A) (n : positive) (x : A) :
  iter_pos f n x = Nat.iter (Pos.to_nat n) f x.
Proof.
  revert x; induction n as [n IH|n IH|]; intros x; cbn [iter_pos].
  - rewrite !IH, Pos2Nat.inj_xI, Nat.iter_succ_r.
    replace (2 * Pos.to_nat n)%nat with (Pos.to_nat n + Pos.to_nat n)%nat by lia.
    rewrite Nat.iter_add; reflexivity.
  - rewrite !IH, Pos2Nat.inj_xO.
    replace (2 * Pos.to_nat n)%nat with (Pos.to_nat n + Pos.to_nat n)%nat by lia.
    rewrite Nat.iter_add; reflexivity.
  - reflexivity.
Qed.

Lemma shr_1_m (mrs : shr_record) :
  0 <= shr_m mrs -> shr_m (shr_1 mrs) = shr_m mrs / 2.
Proof.
  destruct mrs as [m r s]; simpl; intros H.
  destruct m as [|[p|p|]|p]; simpl; try lia; try reflexivity.
  - rewrite Pos2Z.inj_xI. apply Z.div_unique with 1; lia.
  - rewrite Pos2Z.inj_xO. apply Z.div_unique with 0; lia.
Qed.

Lemma shr_iter_m (n : nat) (mrs : shr_record) :
  0 <= shr_m mrs ->
  shr_m (Nat.iter n shr_1 mrs) = shr_m mrs / 2 ^ Z.of_nat n.
Proof.
  intros H; induction n as [|n IH].
  - simpl; rewrite Z.div_1_r; reflexivity.
  - rewrite Nat2Z.inj_succ, Z.pow_succ_r by lia.
    simpl Nat.iter. rewrite shr_1_m.
    + rewrite IH, Z.div_div by lia. f_equal; lia.
    + rewrite IH. apply Z.div_pos; lia.
Qed.

(** first component of shr_fexp *)
Lemma shr_fexp_m (m e : Z) (l : location) :
  0 <= m ->
  e <= fexp prec emax (Zdigits2 m + e) ->
  let '(mrs, e') := shr_fexp prec emax m e l in
  e' = fexp prec emax (Zdigits2 m + e) /\
  shr_m mrs = m / 2 ^ (e' - e).
Proof.
  intros Hm He. unfold shr_fexp, shr.
  assert (Hrec : shr_m (shr_record_of_loc m l) = m).
  { destruct l as [|[]]; reflexivity. }
  destruct (fexp prec emax (Zdigits2 m + e) - e) as [|p|p] eqn:Hn; try lia.
  - split; [lia|]. replace (e - e) with 0 by lia.
    rewrite Hrec, Z.div_1_r; reflexivity.
  - split; [lia|].
    rewrite iter_pos_nat, shr_iter_m by (rewrite Hrec; exact Hm).
    rewrite Hrec, positive_nat_Z. f_equal; f_equal; lia.
Qed.

Lemma fexp_eq (e : Z) : fexp prec emax e = Z.max (e - 53) (-1074).
Proof. reflexivity. Qed.

Lemma round_nearest_even_bounds (m : Z) (l : location) :
  m <= round_nearest_even m l <= m + 1.
Proof.
  destruct l as [|[]]; simpl; try lia.
  destruct (Z.even m); lia.
Qed.

Lemma pow2_split (a b : Z) : 0 <= a -> 0 <= b -> 2 ^ (a + b) = 2 ^ a * 2 ^ b.
Proof. intros; apply Z.pow_add_r; assumption. Qed.

Lemma binary_round_aux_valid (sx : bool) (mx ex : Z) (lx : location) :
  0 <= mx ->
  ex <= fexp prec emax (Zdigits2 mx + ex) ->
  valid_binary prec emax (binary_round_aux prec emax sx mx ex lx) = true.
Proof.
  intros Hm He. unfold binary_round_aux.
  pose proof (shr_fexp_m mx ex lx Hm He) as H1.
  destruct (shr_fexp prec emax mx ex lx) as [mrs1 e1].
  destruct H1 as [He1 Hm1].
  set (m1 := shr_m mrs1) in *.
  set (m2 := round_nearest_even m1 (loc_of_shr_record mrs1)).
  pose proof (round_nearest_even_bounds m1 (loc_of_shr_record mrs1)) as Hr.
  fold m2 in Hr.
  pose proof (Zdigits2_nonneg mx) as Hd0.
  pose proof (Zdigits2_lt_pow mx Hm) as Hd.
  rewrite fexp_eq in He, He1.
  assert (Hn : 0 <= e1 - ex) by lia.
  assert (Hp : 0 < 2 ^ (e1 - ex)) by (apply Z.pow_pos_nonneg; lia).
  assert (Hm1pos : 0 <= m1) by (rewrite Hm1; apply Z.div_pos; lia).
  assert (Hm1lt : m1 < 2 ^ 53).
  { rewrite Hm1. apply Z.div_lt_upper_bound; [exact Hp|].
    rewrite <- pow2_split by lia.
    eapply Z.lt_le_trans; [exact Hd|].
    apply Z.pow_le_mono_r; lia. }
  assert (Hm1ge : -1074 < e1 -> 2 ^ 52 <= m1).
  { intros Hgt.
    assert (He1' : e1 = Zdigits2 mx + ex - 53) by lia.
    assert (Hmpos : 0 < mx).
    { destruct (Z.eqb_spec mx 0) as [E|N]; [|lia].
      rewrite E in He1'; simpl in He1'; lia. }
    destruct (Zdigits2_bounds mx Hmpos) as (_ & Hlo & _).
    rewrite Hm1. apply Z.div_le_lower_bound; [exact Hp|].
    rewrite <- pow2_split by lia.
    replace (e1 - ex + 52) with (Zdigits2 mx - 1) by lia. exact Hlo. }
  assert (Hm2 : 0 <= m2 <= 2 ^ 53) by lia.
  assert (He2 : e1 <= fexp prec emax (Zdigits2 m2 + e1)).
  { rewrite fexp_eq.
    destruct (Z.leb_spec e1 (-1074)); [lia|].
    assert (2 ^ 52 <= m2) by (specialize (Hm1ge ltac:(lia)); lia).
    assert (53 <= Zdigits2 m2).
    { destruct (Z.ltb_spec (Zdigits2 m2) 53); [|assumption].
      exfalso.
      pose proof (Zdigits2_lt_pow m2 ltac:(lia)).
      assert (2 ^ Zdigits2 m2 <= 2 ^ 52) by (apply Z.pow_le_mono_r; lia).
      lia. }
    lia. }
  pose proof (shr_fexp_m m2 e1 loc_Exact (proj1 Hm2) He2) as H3.
  destruct (shr_fexp prec emax m2 e1 loc_Exact) as [mrs3 e3].
  destruct H3 as [He3 Hm3].
  rewrite fexp_eq in He3, He2.
  destruct (shr_m mrs3) as [|p|p] eqn:Hp3; try reflexivity.
  destruct (Z.leb_spec e3 (emax - prec)) as [Hle|Hgt]; [|reflexivity].
  simpl. unfold bounded, canonical_mantissa.
  apply andb_true_intro; split; [|apply Z.leb_le; exact Hle].
  apply Z.eqb_eq. rewrite fexp_eq.
  change (Z.pos (digits2_pos p)) with (Zdigits2 (Z.pos p)).
  clear Hp3.
  assert (Hm2pos : 0 < m2).
  { destruct (Z.eqb_spec m2 0) as [E|N]; [|lia].
    rewrite E, Z.div_0_l in Hm3; lia. }
  destruct (Z.eqb_spec m2 (2 ^ 53)) as [E|N].
  - assert (Hd2 : Zdigits2 m2 = 54).
    { apply Zdigits2_unique; [rewrite E; simpl; lia | lia]. }
    rewrite Hd2 in He3.
    assert (He31 : e3 - e1 = 1) by lia.
    rewrite He31, E in Hm3. change (2 ^ 53 / 2 ^ 1) with (2 ^ 52) in Hm3.
    rewrite Hm3.
    rewrite (Zdigits2_unique (2 ^ 52) 53) by (simpl; lia). lia.
  - assert (Hd2 : Zdigits2 m2 <= 53).
    { destruct (Z.leb_spec (Zdigits2 m2) 53); [assumption|].
      exfalso.
      destruct (Zdigits2_bounds m2 Hm2pos) as (_ & Hlo & _).
      assert (2 ^ 53 <= 2 ^ (Zdigits2 m2 - 1)) by (apply Z.pow_le_mono_r; lia).
      lia. }
    assert (He31 : e3 = e1) by lia.
    rewrite He31, Z.sub_diag, Z.div_1_r in Hm3.
    rewrite Hm3. lia.
Qed.

Lemma fexp_mono (a b : Z) : a <= b -> fexp prec emax a <= fexp prec emax b.
Proof. rewrite !fexp_eq; lia. Qed.

Lemma digits2_iter_xO (m d : positive) :
  Z.pos (digits2_pos (Pos.iter xO m d)) = Z.pos (digits2_pos m) + Z.pos d.
Proof.
  induction d as [|d IH] using Pos.peano_ind.
  - simpl. lia.
  - rewrite Pos.iter_succ. cbn [digits2_pos]. lia.
Qed.

Lemma binary_round_valid (sx : bool) (mx : positive) (ex : Z) :
  valid_binary prec emax (binary_round prec emax sx mx ex) = true.
Proof.
  unfold binary_round, shl_align.
  destruct (fexp prec emax (Z.pos (digits2_pos mx) + ex) - ex) as [|d|d] eqn:Hd;
    apply binary_round_aux_valid; try lia; cbn [Zdigits2]; try lia.
  rewrite digits2_iter_xO.
  replace (Z.pos (digits2_pos mx) + Z.pos d +
           fexp prec emax (Z.pos (digits2_pos mx) + ex))
    with (Z.pos (digits2_pos mx) + ex) by lia.
  lia.
Qed.

Lemma binary_normalize_valid (m e : Z) (s : bool) :
  valid_binary prec emax (binary_normalize prec emax m e s) = true.
Proof.
  destruct m; simpl; [reflexivity | apply binary_round_valid ..].
Qed.

Lemma SFdiv_finite_valid (sx sy : bool) (mx my : positive) (ex ey : Z) :
  valid_binary prec emax
    (SFdiv prec emax (S754_finite sx mx ex) (S754_finite sy my ey)) = true.
Proof.
  unfold SFdiv, SFdiv_core_binary.
  set (d1 := Zdigits2 (Z.pos mx)).
  set (d2 := Zdigits2 (Z.pos my)).
  set (e' := Z.min (fexp prec emax (d1 + ex - (d2 + ey))) (ex - ey)).
  set (s := ex - ey - e').
  set (m' := match s with
             | Z.pos _ => Z.shiftl (Z.pos mx) s
             | 0 => Z.pos mx
             | Z.neg _ => 0
             end).
  assert (Hs : 0 <= s) by (unfold s, e'; lia).
  assert (Hm' : m' = Z.pos mx * 2 ^ s).
  { unfold m'; destruct s as [|p|p] eqn:E; try lia.
    apply Z.shiftl_mul_pow2; lia. }
  pose proof (Z_div_mod m' (Z.pos my) ltac:(lia)) as Hdm.
  destruct (Z.div_eucl m' (Z.pos my)) as [q r] eqn:Hqr.
  destruct Hdm as [Hq Hr].
  assert (Hpow : 0 < 2 ^ s) by (apply Z.pow_pos_nonneg; lia).
  assert (Hm'pos : 0 < m') by (rewrite Hm'; lia).
  assert (Hq0 : 0 <= q) by nia.
  apply binary_round_aux_valid; [exact Hq0|].
  eapply Z.le_trans; [apply Z.le_min_l|].
  apply fexp_mono.
  destruct (Zdigits2_bounds (Z.pos mx) ltac:(lia)) as (Hd1 & Hlo1 & _).
  destruct (Zdigits2_bounds (Z.pos my) ltac:(lia)) as (Hd2 & _ & Hhi2).
  fold d1 in Hd1, Hlo1. fold d2 in Hd2, Hhi2.
  pose proof (Zdigits2_nonneg q) as Hdq.
  destruct (Z.leb_spec (d1 + s - d2) 0) as [Hk|Hk]; [unfold s in *; lia|].
  assert (Hqlo : 2 ^ (d1 + s - d2 - 1) <= q).
  { assert (Hq' : q = m' / Z.pos my).
    { apply Z.div_unique with r; lia. }
    rewrite Hq'. apply Z.div_le_lower_bound; [lia|].
    assert (2 ^ (d1 + s - d2 - 1) * 2 ^ d2 = 2 ^ (d1 - 1) * 2 ^ s).
    { rewrite <- !pow2_split by lia. f_equal; lia. }
    assert (0 < 2 ^ (d1 + s - d2 - 1)) by (apply Z.pow_pos_nonneg; lia).
    nia. }
  pose proof (Zdigits2_lt_pow q Hq0) as Hqhi.
  assert (d1 + s - d2 - 1 < Zdigits2 q).
  { apply (Z.pow_lt_mono_r_iff 2); lia. }
  unfold s in *; lia.
Qed.

Lemma float_of_Z_one : float_of_Z 1 = S754_finite false (2 ^ 52) (-52).
Proof. reflexivity. Qed.

Lemma float_of_Z_minus_one : float_of_Z (-1) = S754_finite true (2 ^ 52) (-52).
Proof. reflexivity. Qed.

Lemma shr_iter_exact (n : nat) (m : Z) :
  0 <= m ->
  Nat.iter n shr_1 (Build_shr_record (m * 2 ^ Z.of_nat n) false false) =
  Build_shr_record m false false.
Proof.
  revert m; induction n as [|n IH]; intros m Hm.
  - simpl. f_equal; lia.
  - rewrite Nat2Z.inj_succ, Z.pow_succ_r by lia.
    replace (m * (2 * 2 ^ Z.of_nat n)) with ((2 * m) * 2 ^ Z.of_nat n) by lia.
    rewrite Nat.iter_succ, IH by lia.
    destruct m as [|p|p]; try lia; reflexivity.
Qed.

(** Multiplying a binary64 value by [1.0] or [-1.0] is exact. *)
Lemma fmul_unit (x : float) (neg : bool) :
  valid_binary prec emax x = true ->
  fmul x (S754_finite neg (2 ^ 52) (-52)) = if neg then fneg x else x.
Proof.
  destruct x as [s|s| |s m e]; intros Hv.
  - destruct s, neg; reflexivity.
  - destruct s, neg; reflexivity.
  - destruct neg; reflexivity.
  - simpl in Hv. unfold bounded, canonical_mantissa in Hv.
    apply andb_prop in Hv as [Hc Hb].
    apply Z.eqb_eq in Hc. apply Z.leb_le in Hb.
    unfold fmul, SFmul, binary_round_aux.
    assert (Hs1 : shr_fexp prec emax (Z.pos (m * 2 ^ 52)) (e + -52) loc_Exact =
                  (Build_shr_record (Z.pos m) false false, e)).
    { unfold shr_fexp, shr.
      assert (Hd : Zdigits2 (Z.pos (m * 2 ^ 52)) = Z.pos (digits2_pos m) + 52).
      { change (2 ^ 52)%positive with (Pos.iter xO 1%positive 52).
        assert (E : (m * Pos.iter xO 1 52 = Pos.iter xO m 52)%positive).
        { cbn [Pos.iter]. rewrite !Pos.mul_xO_r, Pos.mul_1_r. reflexivity. }
        rewrite E. cbn [Zdigits2]. apply digits2_iter_xO. }
      rewrite Hd.
      replace (Z.pos (digits2_pos m) + 52 + (e + -52))
        with (Z.pos (digits2_pos m) + e) by lia.
      rewrite Hc.
      replace (e - (e + -52)) with 52 by lia.
      rewrite iter_pos_nat.
      cbn [shr_record_of_loc].
      replace (Z.pos (m * 2 ^ 52)) with (Z.pos m * 2 ^ Z.of_nat (Pos.to_nat 52))
        by (rewrite positive_nat_Z; reflexivity).
      rewrite shr_iter_exact by lia.
      f_equal; lia. }
    rewrite Hs1. cbn [shr_m loc_of_shr_record round_nearest_even].
    assert (Hs2 : shr_fexp prec emax (Z.pos m) e loc_Exact =
                  (Build_shr_record (Z.pos m) false false, e)).
    { unfold shr_fexp, shr. cbn [Zdigits2]. rewrite Hc, Z.sub_diag. reflexivity. }
    rewrite Hs2. cbn [shr_m].
    apply Z.leb_le in Hb. rewrite Hb.
    destruct s, neg; reflexivity.
Qed.

Lemma float_of_decimal_valid (neg : bool) (m e10 : Z) :
  valid_binary prec emax (float_of_decimal neg m e10) = true.
Proof.
  unfold float_of_decimal; destruct m; try reflexivity.
  destruct (0 <=? e10).
  - apply binary_normalize_valid.
  - apply SFdiv_finite_valid.
Qed.

Lemma py_float_valid (s : string) (a : float) :
  py_float s = Ok a -> valid_binary prec emax a = true.
Proof.
  unfold py_float.
  split_sign s neg body.
  destruct (_ || _); [intros [= <-]; reflexivity|].
  destruct (String.eqb _ _); [intros [= <-]; reflexivity|].
  destruct (number body) as [[[m nf] rest]|]; [|discriminate].
  destruct (exponent rest); [|discriminate].
  intros [= <-]; apply float_of_decimal_valid.
Qed.

Lemma py_float_raises (s : string) (e : exn) :
  py_float s = Raise e -> e = ValueError.
Proof.
  unfold py_float.
  split_sign s neg body.
  destruct (_ || _); [discriminate|].
  destruct (String.eqb _ _); [discriminate|].
  destruct (number body) as [[[m nf] rest]|]; [|congruence].
  destruct (exponent rest); congruence.
Qed.

(** ** The coordinate converter *)

Lemma convert_lat_lon_Ok (lat lat_hem lon lon_hem : string) (a b : float) :
  py_float lat = Ok a ->
  py_float lon = Ok b ->
  convert_lat_lon (VStr lat) (VStr lat_hem) (VStr lon) (VStr lon_hem) =
  Ok (if String.eqb lat_hem "N" then a else fneg a,
      if String.eqb lon_hem "E" then b else fneg b).
Proof.
  intros Ha Hb.
  unfold convert_lat_lon, float_, eq_str; rewrite Ha, Hb; simpl.
  pose proof (py_float_valid _ _ Ha) as Va.
  pose proof (py_float_valid _ _ Hb) as Vb.
  f_equal; f_equal.
  - destruct (String.eqb lat_hem "N").
    + rewrite float_of_Z_one; exact (fmul_unit a false Va).
    + rewrite float_of_Z_minus_one; exact (fmul_unit a true Va).
  - destruct (String.eqb lon_hem "E").
    + rewrite float_of_Z_one; exact (fmul_unit b false Vb).
    + rewrite float_of_Z_minus_one; exact (fmul_unit b true Vb).
Qed.

(** C3 (amended).  The coordinate converter returns the magnitude as it
    is for the hemisphere letter [N] (latitude) or [E] (longitude), and the
    negated magnitude for every other hemisphere string: [S] and [W], and
    just as well any other character, or none.  No hemisphere is rejected,
    and the converter never fails with [InvalidHemisphereError]; it fails,
    with [ValueError], exactly when a magnitude is not a float literal. *)
Theorem convert_lat_lon_signs (lat lat_hem lon lon_hem : string) :
  (forall a b,
      py_float lat = Ok a -> py_float lon = Ok b ->
      convert_lat_lon (VStr lat) (VStr lat_hem) (VStr lon) (VStr lon_hem) =
      Ok (if String.eqb lat_hem "N" then a else fneg a,
          if String.eqb lon_hem "E" then b else fneg b)) /\
  (forall e,
      py_float lat = Raise e ->
      convert_lat_lon (VStr lat) (VStr lat_hem) (VStr lon) (VStr lon_hem) =
      Raise ValueError) /\
  (forall a e,
      py_float lat = Ok a -> py_float lon = Raise e ->
      convert_lat_lon (VStr lat) (VStr lat_hem) (VStr lon) (VStr lon_hem) =
      Raise ValueError) /\
  ~ fails_with
      (convert_lat_lon (VStr lat) (VStr lat_hem) (VStr lon) (VStr lon_hem))
      "InvalidHemisphereError".
Proof.
  split; [intros a b; apply convert_lat_lon_Ok|].
  split; [|split].
  - intros e He.
    unfold convert_lat_lon, float_; rewrite He; simpl.
    f_equal; exact (py_float_raises _ _ He).
  - intros a e Ha He.
    unfold convert_lat_lon, float_; rewrite Ha, He; simpl.
    f_equal; exact (py_float_raises _ _ He).
  - intros (e & He & Hname).
    apply convert_lat_lon_raises in He; subst e; discriminate.
Qed.

Lemma convert_lat_lon_signs_witness :
  exists a b,
    py_float "28.0" = Ok a /\ py_float "94.8" = Ok b /\
    convert_lat_lon (VStr "28.0") (VStr "S") (VStr "94.8") (VStr "E") =
    Ok (fneg a, b) /\
    convert_lat_lon (VStr "28.0") (VStr "N") (VStr "abc") (VStr "E") =
    Raise ValueError /\
    convert_lat_lon (VStr "") (VStr "N") (VStr "94.8") (VStr "E") =
    Raise ValueError.
Proof.
  eexists; eexists.
  split; [vm_compute; reflexivity|].
  split; [vm_compute; reflexivity|].
  split.
  - apply (proj1 (convert_lat_lon_signs "28.0" "S" "94.8" "E"));
      vm_compute; reflexivity.
  - split.
    + eapply (proj1 (proj2 (proj2 (convert_lat_lon_signs "28.0" "N" "abc" "E"))));
        vm_compute; reflexivity.
    + eapply (proj1 (proj2 (convert_lat_lon_signs "" "N" "94.8" "E")));
        vm_compute; reflexivity.
Defined.

(** C3, as stated, fails: with the hemisphere letters [X] and [Q], which
    are none of N, S, E, W, the converter returns the two negated
    magnitudes instead of failing. *)
Lemma convert_lat_lon_counterexample :
  exists a b,
    py_float "28.0" = Ok a /\ py_float "94.8" = Ok b /\
    convert_lat_lon (VStr "28.0") (VStr "X") (VStr "94.8") (VStr "Q") =
    Ok (fneg a, fneg b) /\
    ~ fails_with
        (convert_lat_lon (VStr "28.0") (VStr "X") (VStr "94.8") (VStr "Q"))
        "InvalidHemisphereError".
Proof.
  eexists; eexists.
  split; [vm_compute; reflexivity|].
  split; [vm_compute; reflexivity|].
  assert (H : convert_lat_lon (VStr "28.0") (VStr "X") (VStr "94.8") (VStr "Q") =
              Ok (fneg (S754_finite false 7881299347898368 (-48)),
                  fneg (S754_finite false 6670956948042547 (-46))))
    by (vm_compute; reflexivity).
  split; [exact H|].
  rewrite H; apply fails_with_Ok.
Qed.

(** ** The type-casting cell *)

Lemma Forall2_map_combine {A B C : Type} (P : A -> B -> Prop)
    (g : A * B -> C) (l : list A) (l' : list B) :
  Forall2 P l l' ->
  Forall2 (fun x y => exists z, P x z /\ y = g (x, z)) l (map g (combine l l')).
Proof.
  induction 1 as [|x z l l' Hxz _ IH]; simpl; constructor; eauto.
Qed.

Lemma Forall2_length_eq {A B : Type} (P : A -> B -> Prop) (l : list A) (l' : list B) :
  Forall2 P l l' -> List.length l' = List.length l.
Proof. induction 1; simpl; congruence. Qed.

Lemma Forall2_compose {A : Type} (P Q R : A -> A -> Prop) (l1 l2 l3 : list A) :
  (forall x y z, P x y -> Q y z -> R x z) ->
  Forall2 P l1 l2 -> Forall2 Q l2 l3 -> Forall2 R l1 l3.
Proof.
  intros HR H12; revert l3.
  induction H12 as [|x y l1 l2 Hxy _ IH]; intros l3 H23;
    inversion H23; subst; constructor; eauto.
Qed.

Lemma map_column_spec (c : string) (f : value -> result value) (df df' : frame) :
  map_column c f df = Ok df' ->
  Forall2 (fun r r' => exists v0 v,
               dict_get c r = Some v0 /\ f v0 = Ok v /\ r' = dict_set r c v)
          df df'.
Proof.
  unfold map_column; destruct df as [|r0 df0]; [discriminate|].
  set (df := r0 :: df0); clearbody df.
  intros H; apply bind_Ok in H as (cells & Hc & H); injection H as <-.
  apply mapM_Forall2 in Hc.
  eapply Forall2_impl;
    [|apply (Forall2_map_combine _ (fun rc => dict_set (fst rc) c (snd rc)) _ _ Hc)].
  intros r r' (v & Hv & ->); simpl.
  unfold getitem in Hv.
  destruct (dict_get c r) as [v0|]; simpl in Hv; [|discriminate].
  exists v0, v; auto.
Qed.

Lemma to_numeric_coerce_cells (col : list value) :
  Forall2 (fun v0 v => v = to_numeric_cell v0 \/
                       v = as_float_cell (to_numeric_cell v0))
          col (to_numeric_coerce col).
Proof.
  unfold to_numeric_coerce.
  destruct (forallb is_int_cell (map to_numeric_cell col)).
  - induction col; simpl; constructor; auto.
  - induction col; simpl; constructor; auto.
Qed.

Lemma to_numeric_column_spec (c : string) (df df' : frame) :
  to_numeric_column c df = Ok df' ->
  Forall2 (fun r r' => exists v0 v,
               dict_get c r = Some v0 /\ step_cell ToNumeric v0 v /\
               r' = dict_set r c v)
          df df'.
Proof.
  unfold to_numeric_column; destruct df as [|r0 df0]; [discriminate|].
  set (df := r0 :: df0); clearbody df.
  intros H; apply bind_Ok in H as (col & Hc & H); injection H as <-.
  apply mapM_Forall2 in Hc.
  pose proof (to_numeric_coerce_cells col) as Hn.
  assert (H2 : Forall2 (fun r v => exists v0, dict_get c r = Some v0 /\
                                     step_cell ToNumeric v0 v)
                       df (to_numeric_coerce col)).
  { revert Hn; generalize (to_numeric_coerce col).
    induction Hc as [|r v0 df col Hr _ IH]; intros l Hn;
      inversion Hn; subst; constructor; auto.
    exists v0; split; [|assumption].
    unfold getitem in Hr; destruct (dict_get c r); congruence. }
  eapply Forall2_impl;
    [|apply (Forall2_map_combine _ (fun rc => dict_set (fst rc) c (snd rc)) _ _ H2)].
  intros r r' (v & (v0 & Hv0 & Hs) & ->); simpl.
  exists v0, v; auto.
Qed.

Lemma cast_column_spec (c : string) (op : cast) (df df' : frame) :
  cast_column df (c, op) = Ok df' ->
  Forall2 (fun r r' => exists v0 v,
               dict_get c r = Some v0 /\ step_cell op v0 v /\
               r' = dict_set r c v)
          df df'.
Proof.
  unfold cast_column; destruct op; simpl.
  - apply map_column_spec.
  - apply map_column_spec.
  - apply to_numeric_column_spec.
Qed.

Lemma foldM_cast_rel (steps : list (string * cast)) (df df' : frame) :
  foldM cast_column steps df = Ok df' -> Forall2 (cast_rel steps) df df'.
Proof.
  revert df; induction steps as [|[c op] rest IH]; intros df; simpl.
  - intros [= <-]. induction df; constructor; auto.
  - intros H; apply bind_Ok in H as (df1 & H1 & H2).
    apply cast_column_spec in H1. apply IH in H2.
    eapply Forall2_compose; [|exact H1|exact H2].
    intros r r1 r' (v0 & v & Hv0 & Hs & ->) Hrel.
    exists v0, v; auto.
Qed.

(** A column the cell does not assign keeps its cells. *)
Lemma cast_rel_other (steps : list (string * cast)) (r r' : dict) (k : string) :
  cast_rel steps r r' -> ~ In k (map fst steps) -> dict_get k r' = dict_get k r.
Proof.
  revert r; induction steps as [|[c op] rest IH]; intros r; simpl.
  - intros ->; reflexivity.
  - intros (v0 & v & _ & _ & Hrel) Hk.
    rewrite (IH _ Hrel) by tauto.
    apply dict_get_set_other; intros ->; tauto.
Qed.

(** A column the cell assigns once holds the cast of its former cell. *)
Lemma cast_rel_column (steps : list (string * cast)) (r r' : dict)
    (k : string) (op : cast) :
  NoDup (map fst steps) -> In (k, op) steps -> cast_rel steps r r' ->
  exists v0 v, dict_get k r = Some v0 /\ step_cell op v0 v /\
               dict_get k r' = Some v.
Proof.
  revert r; induction steps as [|[c op'] rest IH]; intros r ND Hin; simpl.
  - destruct Hin.
  - inversion ND as [|? ? Hnotin ND']; subst.
    intros (v0 & v & Hv0 & Hs & Hrel).
    destruct Hin as [[= -> ->]|Hin].
    + exists v0, v; repeat split; auto.
      rewrite (cast_rel_other _ _ _ _ Hrel Hnotin).
      apply dict_get_set_same.
    + destruct (IH _ ND' Hin Hrel) as (w0 & w & Hw0 & Hws & Hw).
      exists w0, w; repeat split; auto.
      rewrite dict_get_set_other in Hw0; [exact Hw0|].
      intros E; apply Hnotin; rewrite <- E.
      change k with (fst (k, op)); apply in_map; exact Hin.
Qed.

Lemma nodupb_NoDup (l : list string) : nodupb l = true -> NoDup l.
Proof.
  induction l as [|x r IH]; simpl; [constructor|].
  intros H; apply andb_prop in H as [Hx Hr].
  constructor; [|exact (IH Hr)].
  intros Hin. apply negb_true_iff in Hx.
  assert (existsb (String.eqb x) r = true); [|congruence].
  apply existsb_exists; exists x; split; [exact Hin | apply String.eqb_refl].
Qed.

Lemma type_cast_steps_NoDup : NoDup (map fst type_cast_steps).
Proof. apply nodupb_NoDup; vm_compute; reflexivity. Qed.

Lemma mapM_returns {A B : Type} (f : A -> result B) (l : list A) :
  Forall (fun x => returns (f x)) l -> returns (mapM f l).
Proof.
  induction 1 as [|x l [y Hy] _ [ys Hys]]; simpl.
  - eexists; reflexivity.
  - rewrite Hy, Hys; eexists; reflexivity.
Qed.

Lemma cast_column_returns (c : string) (op : cast) (df : frame) :
  df <> [] ->
  Forall (fun r => exists v0, dict_get c r = Some v0 /\
                              (op = AsInt -> returns (int_ v0))) df ->
  returns (cast_column df (c, op)).
Proof.
  intros Hne Hall.
  unfold cast_column, map_column, to_numeric_column; simpl.
  destruct df as [|r0 df0]; [contradiction|].
  set (df := r0 :: df0) in *; clearbody df.
  destruct op.
  - destruct (mapM_returns (fun row => v <- getitem row c ;; astype_string v) df)
      as [cells Hc].
    { eapply Forall_impl; [|exact Hall].
      intros r (v0 & Hv0 & _); unfold getitem; rewrite Hv0; simpl.
      destruct v0; eexists; reflexivity. }
    rewrite Hc; eexists; reflexivity.
  - destruct (mapM_returns (fun row => v <- getitem row c ;; astype_int v) df)
      as [cells Hc].
    { eapply Forall_impl; [|exact Hall].
      intros r (v0 & Hv0 & Hint); unfold getitem; rewrite Hv0; simpl.
      destruct (Hint eq_refl) as [z Hz].
      unfold astype_int; rewrite Hz; eexists; reflexivity. }
    rewrite Hc; eexists; reflexivity.
  - destruct (mapM_returns (fun row => getitem row c) df) as [col Hc].
    { eapply Forall_impl; [|exact Hall].
      intros r (v0 & Hv0 & _); unfold getitem; rewrite Hv0.
      eexists; reflexivity. }
    rewrite Hc; eexists; reflexivity.
Qed.

Lemma Forall2_Forall_transfer {A B : Type} (P : A -> Prop) (Q : B -> Prop)
    (R : A -> B -> Prop) (l : list A) (l' : list B) :
  (forall x y, P x -> R x y -> Q y) ->
  Forall P l -> Forall2 R l l' -> Forall Q l'.
Proof.
  intros HQ HP HR; induction HR as [|x y l l' Hxy _ IH];
    inversion HP; subst; constructor; eauto.
Qed.

(** The cell runs to its end on every frame that has rows, all castable. *)
Lemma foldM_cast_returns (steps : list (string * cast)) (df : frame) :
  NoDup (map fst steps) -> df <> [] -> Forall (castable steps) df ->
  returns (foldM cast_column steps df).
Proof.
  revert df; induction steps as [|[c op] rest IH]; intros df ND Hne Hall.
  - eexists; reflexivity.
  - inversion ND as [|? ? Hnotin ND']; subst.
    destruct (cast_column_returns c op df Hne) as [df1 H1].
    { eapply Forall_impl; [|exact Hall].
      intros r Hr; apply Hr; left; reflexivity. }
    simpl; rewrite H1; simpl.
    pose proof (cast_column_spec _ _ _ _ H1) as Hspec.
    apply IH; [exact ND'| |].
    + intros ->; apply Forall2_length_eq in Hspec.
      destruct df; [contradiction | discriminate].
    + eapply Forall2_Forall_transfer; [|exact Hall|exact Hspec].
      intros r r1 Hr (v0 & v & _ & _ & ->) c' op' Hin.
      destruct (Hr c' op' (or_intror Hin)) as (w & Hw & Hint).
      exists w; split; [|exact Hint].
      rewrite dict_get_set_other; [exact Hw|].
      intros ->; apply Hnotin.
      change c with (fst (c, op')); apply in_map; exact Hin.
Qed.

Lemma type_cast_rel (df df' : frame) :
  type_cast df = Ok df' ->
  List.length df' = List.length df /\
  Forall2 (cast_rel type_cast_steps) df df'.
Proof.
  intros H; apply foldM_cast_rel in H.
  split; [exact (Forall2_length_eq _ _ _ H) | exact H].
Qed.

Lemma foldM_cast_raises (steps : list (string * cast)) (df : frame) (e : exn) :
  foldM cast_column steps df = Raise e ->
  e = ValueError \/ e = KeyError \/ e = OverflowError.
Proof.
  assert (M : forall (f : dict -> result value) l e0,
             (forall r e1, f r = Raise e1 ->
                           e1 = ValueError \/ e1 = KeyError \/ e1 = OverflowError) ->
             mapM f l = Raise e0 ->
             e0 = ValueError \/ e0 = KeyError \/ e0 = OverflowError).
  { intros f l e0 Hf; induction l as [|r l IH]; simpl; [discriminate|].
    destruct (f r) as [y|e1] eqn:E; simpl.
    - destruct (mapM f l); simpl; [discriminate|].
      intros [= <-]; apply IH; reflexivity.
    - intros [= <-]; eapply Hf; exact E. }
  assert (G : forall (r : dict) c e1, getitem r c = Raise e1 -> e1 = KeyError).
  { intros r c e1; unfold getitem; destruct (dict_get c r); congruence. }
  revert df; induction steps as [|[c op] rest IH]; intros df; simpl;
    [discriminate|].
  destruct (cast_column df (c, op)) as [df1|e1] eqn:E; simpl; [apply IH|].
  intros [= <-].
  unfold cast_column, map_column, to_numeric_column in E; cbn [fst snd] in E.
  destruct df as [|r0 df0]; [destruct op; injection E as <-; auto|].
  cbv beta iota in E.
  set (df := r0 :: df0) in *; clearbody df.
  destruct op.
  - destruct (mapM _ df) eqn:Em; simpl in E; [discriminate|].
    injection E as <-; eapply M; [|exact Em].
    intros r e0; cbv beta; destruct (getitem r c) eqn:Eg; simpl.
    + destruct a; simpl; discriminate.
    + intros [= <-]; right; left; eapply G; exact Eg.
  - destruct (mapM _ df) eqn:Em; simpl in E; [discriminate|].
    injection E as <-; eapply M; [|exact Em].
    intros r e0; cbv beta; destruct (getitem r c) as [v|] eqn:Eg; simpl.
    + unfold astype_int.
      destruct (int_ v) eqn:Ei; simpl; [discriminate|].
      intros [= <-].
      destruct v as [s|z|[ | | |]]; simpl in Ei; try discriminate.
      * left; eapply py_int_raises; exact Ei.
      * injection Ei as <-; auto.
      * injection Ei as <-; auto.
    + intros [= <-]; right; left; eapply G; exact Eg.
  - destruct (mapM _ df) eqn:Em; simpl in E; [discriminate|].
    injection E as <-; eapply M; [|exact Em].
    intros r e0 Hg; right; left; eapply G; exact Hg.
Qed.

Lemma is_ok_returns {A : Type} (r : result A) : is_ok r = true <-> returns r.
Proof.
  destruct r as [a|e]; simpl; split; try discriminate; eauto.
  - intros _; exists a; reflexivity.
  - intros [a H]; discriminate.
Qed.

Lemma castableb_castable (steps : list (string * cast)) (r : dict) :
  castableb steps r = true -> castable steps r.
Proof.
  unfold castableb, castable; rewrite forallb_forall.
  intros H c op Hin; specialize (H _ Hin); simpl in H.
  destruct (dict_get c r) as [v0|]; [|discriminate].
  exists v0; split; [reflexivity|].
  intros ->; apply is_ok_returns; exact H.
Qed.

Lemma Forall_castableb (steps : list (string * cast)) (df : frame) :
  forallb (castableb steps) df = true -> Forall (castable steps) df.
Proof.
  rewrite forallb_forall; intros H; apply Forall_forall.
  intros r Hr; apply castableb_castable, H, Hr.
Qed.

Lemma type_cast_column (df df' : frame) (k : string) (op : cast) :
  In (k, op) type_cast_steps ->
  type_cast df = Ok df' ->
  Forall2 (fun r r' => exists v0 v, dict_get k r = Some v0 /\
                                    step_cell op v0 v /\
                                    dict_get k r' = Some v) df df'.
Proof.
  intros Hin H; apply type_cast_rel in H as [_ H].
  eapply Forall2_impl; [|exact H].
  intros r r'; apply cast_rel_column; [apply type_cast_steps_NoDup | exact Hin].
Qed.

(** C7 (amended).  The status column is only cast to the string type: no
    code is rejected.  The type-casting cell never fails with
    [UnknownStatusError]; when it returns, every status code, one of the
    nine documented ones or any other string, is in the result as it was
    in the input; and on a frame it can be run on, it can be run just as
    well after any string whatever has been stored as the status of every
    row. *)
Theorem status_cast_accepts_any_code (df : frame) :
  ~ fails_with (type_cast df) "UnknownStatusError" /\
  (forall df', type_cast df = Ok df' ->
     Forall2 (fun r r' => forall code,
                  dict_get "Status" r = Some (VStr code) ->
                  dict_get "Status" r' = Some (VStr code)) df df') /\
  (forall code, df <> [] -> Forall (castable type_cast_steps) df ->
     exists df',
       type_cast (map (fun r => dict_set r "Status" (VStr code)) df) = Ok df' /\
       List.length df' = List.length df /\
       Forall (fun r' => dict_get "Status" r' = Some (VStr code)) df').
Proof.
  split; [|split].
  - intros (e & He & Hname).
    apply foldM_cast_raises in He as [-> | [-> | ->]]; discriminate.
  - intros df' H.
    eapply Forall2_impl;
      [|apply (type_cast_column df df' "Status" AsString);
        [simpl; tauto | exact H]].
    intros r r' (v0 & v & Hv0 & Hs & Hv) code Hcode.
    rewrite Hcode in Hv0; injection Hv0 as <-.
    simpl in Hs; injection Hs as <-; exact Hv.
  - intros code Hne Hall.
    set (g := fun r : dict => dict_set r "Status" (VStr code)).
    destruct (foldM_cast_returns type_cast_steps (map g df)) as [df' H].
    + apply type_cast_steps_NoDup.
    + destruct df; [contradiction | discriminate].
    + apply Forall_map. eapply Forall_impl; [|exact Hall].
      intros r Hr c op Hin; unfold g.
      destruct (String.eqb_spec c "Status") as [->|N].
      * exists (VStr code); split; [apply dict_get_set_same|].
        intros ->; exfalso; simpl in Hin.
        repeat (destruct Hin as [Hin|Hin]; [discriminate|]); exact Hin.
      * destruct (Hr c op Hin) as (v0 & Hv0 & Hint).
        exists v0; split; [|exact Hint].
        rewrite dict_get_set_other by exact N; exact Hv0.
    + exists df'; split; [exact H|].
      pose proof (type_cast_rel _ _ H) as [Hlen _].
      rewrite length_map in Hlen; split; [exact Hlen|].
      eapply (Forall2_Forall_transfer (fun r => exists r0, r = g r0));
        [| |apply (type_cast_column _ _ "Status" AsString);
            [simpl; tauto | exact H]].
      * intros r r' (r0 & ->) (v0 & v & Hv0 & Hs & Hv).
        unfold g in Hv0; rewrite dict_get_set_same in Hv0.
        injection Hv0 as <-; simpl in Hs; injection Hs as <-; exact Hv.
      * apply Forall_map, Forall_forall; intros r _; exists r; reflexivity.
Qed.

Lemma status_cast_accepts_any_code_witness :
  exists df',
    type_cast (map (fun r => dict_set r "Status" (VStr "ZZ"))
                   (frame_of storm_1851_01)) = Ok df' /\
    List.length df' = 5%nat /\
    Forall (fun r' => dict_get "Status" r' = Some (VStr "ZZ")) df'.
Proof.
  apply (proj2 (proj2 (status_cast_accepts_any_code (frame_of storm_1851_01)))).
  - vm_compute; discriminate.
  - apply Forall_castableb; vm_compute; reflexivity.
Defined.

(** C7, as stated, fails: the sample data line whose status reads [XX],
    which is none of the nine codes, goes through the type-casting cell,
    and [XX] is the status of its row in the result. *)
Lemma status_cast_counterexample :
  exists df',
    type_cast (frame_of storm_odd_fields) = Ok df' /\
    map (dict_get "Status") df' = [Some (VStr "HU"); Some (VStr "XX")] /\
    ~ fails_with (type_cast (frame_of storm_odd_fields)) "UnknownStatusError".
Proof.
  destruct (type_cast (frame_of storm_odd_fields)) as [df'|e] eqn:E;
    [|vm_compute in E; discriminate].
  exists df'; split; [reflexivity|].
  split; [|apply fails_with_Ok].
  vm_compute in E; injection E as <-; reflexivity.
Qed.

Lemma numeric_columns_steps (c : string) :
  In c numeric_columns -> In (c, ToNumeric) type_cast_steps.
Proof.
  unfold numeric_columns; simpl.
  intros H; repeat (destruct H as [<-|H]; [tauto|]); destruct H.
Qed.

(** C8 (amended).  In the numeric coercion of the wind, pressure,
    wind-radii and radius-of-maximum-wind columns, no row is dropped and
    every cell that does not read as a number becomes the missing marker
    NaN; but the sentinel [-999] reads as a number and stays the number
    -999 (the integer in an all-integer column, the float otherwise): it
    is not mapped to the missing marker. *)
Theorem numeric_coercion_keeps_sentinel (df df' : frame) :
  type_cast df = Ok df' ->
  List.length df' = List.length df /\
  Forall2 (fun r r' =>
             forall c s,
               In c numeric_columns -> dict_get c r = Some (VStr s) ->
               (pd_number s = None -> dict_get c r' = Some NaN) /\
               (s = "-999" ->
                dict_get c r' = Some (VInt (-999)) \/
                dict_get c r' = Some (VFloat (float_of_Z (-999)))))
          df df' /\
  VInt (-999) <> NaN /\ VFloat (float_of_Z (-999)) <> NaN.
Proof.
  intros H.
  split; [exact (proj1 (type_cast_rel _ _ H))|].
  split; [|split; discriminate].
  pose proof (type_cast_rel _ _ H) as [_ Hrel].
  eapply Forall2_impl; [|exact Hrel].
  intros r r' Hr c s Hc Hs.
  destruct (cast_rel_column _ _ _ c ToNumeric type_cast_steps_NoDup
              (numeric_columns_steps c Hc) Hr) as (v0 & v & Hv0 & Hstep & Hv).
  rewrite Hs in Hv0; injection Hv0 as <-.
  rewrite Hv; simpl in Hstep; split.
  - intros Hnone; rewrite Hnone in Hstep.
    destruct Hstep as [-> | ->]; reflexivity.
  - intros ->.
    change (pd_number "-999") with (Some (VInt (-999))) in Hstep.
    destruct Hstep as [-> | ->]; [left | right]; reflexivity.
Qed.

Lemma numeric_coercion_keeps_sentinel_witness :
  exists df',
    type_cast (frame_of storm_1851_01) = Ok df' /\ List.length df' = 5%nat.
Proof.
  destruct (type_cast (frame_of storm_1851_01)) as [df'|e] eqn:E;
    [|vm_compute in E; discriminate].
  exists df'; split; [reflexivity|].
  exact (proj1 (numeric_coercion_keeps_sentinel (frame_of storm_1851_01) df' E)).
Defined.

(** C8, as stated, fails: a wind-radii cell that reads [-999] is converted
    to the integer -999, which is not the missing marker; so it is in the
    frame of the sample storm, whose radii are all [-999]. *)
Lemma numeric_coercion_counterexample :
  to_numeric_coerce [VStr "-999"] = [VInt (-999)] /\
  VInt (-999) <> NaN /\
  exists df',
    type_cast (frame_of storm_1851_01) = Ok df' /\
    map (dict_get "34NE") (frame_of storm_1851_01) =
      repeat (Some (VStr "-999")) 5 /\
    map (dict_get "34NE") df' = repeat (Some (VInt (-999))) 5.
Proof.
  split; [reflexivity|]. split; [discriminate|].
  destruct (type_cast (frame_of storm_1851_01)) as [df'|e] eqn:E;
    [|vm_compute in E; discriminate].
  exists df'; split; [reflexivity|].
  split; [vm_compute; reflexivity|].
  vm_compute in E; injection E as <-; reflexivity.
Qed.

(** ** Integers as strings *)

Lemma py_str_of_int_injective (z1 z2 : Z) :
  py_str_of_int z1 = py_str_of_int z2 -> z1 = z2.
Proof.
  unfold py_str_of_int; intros H.
  assert (R : forall z, NilZero.int_of_string (NilZero.string_of_int (Z.to_int z))
                        = Some (Z.to_int z)).
  { intros z; apply NilZero.isi; destruct z; simpl; try discriminate;
      intros [= E]; exact (DecimalPos.Unsigned.to_uint_nonnil _ E). }
  pose proof (R z1) as R1; rewrite H, R in R1.
  injection R1 as R1.
  rewrite <- (DecimalZ.of_to z1), <- (DecimalZ.of_to z2), R1; reflexivity.
Qed.

Lemma append_length (s t : string) :
  String.length (s ++ t) = (String.length s + String.length t)%nat.
Proof. induction s as [|c s IH]; simpl; [reflexivity | rewrite IH; reflexivity]. Qed.

Lemma append_cancel_r (s1 s2 t : string) : s1 ++ t = s2 ++ t -> s1 = s2.
Proof.
  revert s2; induction s1 as [|c s1 IH]; intros [|c2 s2] H; simpl in H.
  - reflexivity.
  - apply (f_equal String.length) in H; simpl in H.
    rewrite append_length in H; lia.
  - apply (f_equal String.length) in H; simpl in H.
    rewrite append_length in H; lia.
  - injection H as -> H; f_equal; exact (IH _ H).
Qed.

(** ** Records *)

Lemma converted_data_keys (line : string) (lat lon : float) :
  map fst (converted_data line lat lon) =
  ["Year"; "Month"; "Day"; "Hours"; "Minutes"; "RecordID"; "Status";
   "Latitude"; "LatHemisphere"; "Longitude"; "LonHemisphere"; "MaxWind";
   "MinPressure"; "34NE"; "34SE"; "34SW"; "34NW"; "50NE"; "50SE"; "50SW";
   "50NW"; "64NE"; "64SE"; "64SW"; "64NW"; "RadiusMaxWind"].
Proof. reflexivity. Qed.

Lemma converted_data_NoDup (line : string) (lat lon : float) :
  NoDup (map fst (converted_data line lat lon)).
Proof. rewrite converted_data_keys; apply nodupb_NoDup; reflexivity. Qed.

(** A cell of a composite record: the cell of the data line when the data
    line has the column, the cell of the header otherwise. *)
Lemma data_record_get (header : dict) (raw : string) (r : dict) :
  data_record header raw = Ok r ->
  exists lat lon,
    line_coordinates (strip raw) = Ok (lat, lon) /\
    forall k, dict_get k r =
              match dict_get k (converted_data (strip raw) lat lon) with
              | Some v => Some v
              | None => dict_get k header
              end.
Proof.
  rewrite data_record_eq.
  destruct (line_coordinates (strip raw)) as [[lat lon]|e]; cbn [bind];
    [|discriminate].
  intros H.
  assert (E : r = dict_merge header (converted_data (strip raw) lat lon))
    by congruence.
  subst r; exists lat, lon; split; [reflexivity|].
  intros k; apply dict_get_merge, converted_data_NoDup.
Qed.

(** The cells of a composite record that the claims are about. *)
Lemma data_record_cells (header : dict) (raw : string) (r : dict) :
  data_record header raw = Ok r ->
  dict_get "Year" r = Some (field 0 4 (strip raw)) /\
  dict_get "Month" r = Some (field 4 6 (strip raw)) /\
  dict_get "Day" r = Some (field 6 8 (strip raw)) /\
  dict_get "Hours" r = Some (field 10 12 (strip raw)) /\
  dict_get "Minutes" r = Some (field 12 14 (strip raw)) /\
  dict_get "Status" r = Some (field 19 21 (strip raw)) /\
  dict_get "Basin" r = dict_get "Basin" header /\
  dict_get "CycloneID" r = dict_get "CycloneID" header /\
  dict_get "Name" r = dict_get "Name" header /\
  dict_get "Entries" r = dict_get "Entries" header /\
  exists lat lon,
    line_coordinates (strip raw) = Ok (lat, lon) /\
    dict_get "Latitude" r = Some (VFloat lat) /\
    dict_get "Longitude" r = Some (VFloat lon).
Proof.
  intros H; destruct (data_record_get _ _ _ H) as (lat & lon & Hc & Hget).
  repeat (split; [rewrite Hget; reflexivity|]).
  exists lat, lon; split; [exact Hc|].
  split; rewrite Hget; reflexivity.
Qed.

(** A column the type-casting cell does not assign is the same before and
    after it. *)
Lemma type_cast_keeps (df df' : frame) (k : string) :
  ~ In k (map fst type_cast_steps) ->
  type_cast df = Ok df' ->
  Forall2 (fun r r' => dict_get k r' = dict_get k r) df df'.
Proof.
  intros Hk H; apply type_cast_rel in H as [_ H].
  eapply Forall2_impl; [|exact H].
  intros r r' Hr; exact (cast_rel_other _ _ _ _ Hr Hk).
Qed.

(** C5 (amended).  A data line whose latitude field reads [283] and whose
    hemisphere field reads [N] gives a record whose latitude is the float
    283.0: the field goes through [float] as it is written, there is no
    implied decimal point.  The type-casting cell leaves the latitude as
    it is, and 283.0 is not the float 28.3. *)
Theorem latitude_is_not_scaled (header : dict) (raw : string) :
  field 23 27 (strip raw) = VStr "283" ->
  field 27 28 (strip raw) = VStr "N" ->
  returns (float_ (field 30 35 (strip raw))) ->
  (exists r, data_record header raw = Ok r /\
             dict_get "Latitude" r = Some (VFloat (float_of_Z 283))) /\
  (forall df df', type_cast df = Ok df' ->
     Forall2 (fun r r' => dict_get "Latitude" r' = dict_get "Latitude" r)
             df df') /\
  (forall x, py_float "28.3" = Ok x -> float_eqb x (float_of_Z 283) = false).
Proof.
  intros Hlat Hhem [b Hb].
  split; [|split].
  - assert (Hc : line_coordinates (strip raw) =
                 Ok (float_of_Z 283,
                     if String.eqb (strip (slice 35 36 (strip raw))) "E"
                     then b else fneg b)).
    { unfold line_coordinates; rewrite Hlat, Hhem.
      unfold field in *; simpl in Hb.
      apply (convert_lat_lon_Ok "283" "N" _ _ (float_of_Z 283) b);
        [vm_compute; reflexivity | exact Hb]. }
    destruct (data_record header raw) as [r|e] eqn:Hr.
    + exists r; split; [reflexivity|].
      destruct (data_record_cells _ _ _ Hr)
        as (_ & _ & _ & _ & _ & _ & _ & _ & _ & _ & lat & lon & Hc' & Hl & _).
      rewrite Hc in Hc'; injection Hc' as <- _; exact Hl.
    + rewrite data_record_eq, Hc in Hr; discriminate.
  - intros df df'; apply type_cast_keeps.
    simpl; intros H;
      repeat (destruct H as [H|H]; [discriminate|]); exact H.
  - intros x Hx; vm_compute in Hx; injection Hx as <-; reflexivity.
Qed.

Lemma latitude_is_not_scaled_witness :
  exists r,
    data_record (assembled_header (strip (hd "" storm_lat_283)) 1)
                (hd "" (tl storm_lat_283)) = Ok r /\
    dict_get "Latitude" r = Some (VFloat (float_of_Z 283)).
Proof.
  apply (proj1 (latitude_is_not_scaled
                  (assembled_header (strip (hd "" storm_lat_283)) 1)
                  (hd "" (tl storm_lat_283))
                  eq_refl eq_refl
                  (ex_intro _ (S754_finite false 6670956948042547 (-46)) eq_refl))).
Defined.

(** C5, as stated, fails: the sample data line with the latitude field
    [283] and the hemisphere [N] is assembled into one record whose
    latitude is 283.0, and that is not the float 28.3. *)
Lemma latitude_counterexample :
  map (dict_get "Latitude") (frame_of storm_lat_283) =
    [Some (VFloat (float_of_Z 283))] /\
  py_float "283" = Ok (float_of_Z 283) /\
  exists x, py_float "28.3" = Ok x /\
            float_eqb x (float_of_Z 283) = false /\
            map (dict_get "Latitude") (frame_of storm_lat_283) <>
              [Some (VFloat x)].
Proof.
  split; [vm_compute; reflexivity|].
  split; [vm_compute; reflexivity|].
  eexists; split; [vm_compute; reflexivity|].
  split; [vm_compute; reflexivity|].
  vm_compute; discriminate.
Qed.

Lemma Forall_Forall2_and {A : Type} (P : A -> Prop) (R1 R2 : A -> A -> Prop)
    (l l' : list A) :
  Forall P l -> Forall2 R1 l l' -> Forall2 R2 l l' ->
  Forall2 (fun x y => P x /\ R1 x y /\ R2 x y) l l'.
Proof.
  intros HP H1; revert HP.
  induction H1 as [|x y l l' Hxy _ IH]; intros HP H2;
    inversion HP; inversion H2; subst; constructor; auto.
Qed.

Lemma record_of_cells (lines : list string) (r : dict) :
  record_of lines r ->
  exists hraw raw,
    In hraw lines /\ In raw lines /\
    dict_get "Year" r = Some (field 0 4 (strip raw)) /\
    dict_get "Basin" r = Some (field 0 2 (strip hraw)) /\
    dict_get "CycloneID" r = Some (field 2 4 (strip hraw)) /\
    dict_get "Name" r = Some (field 18 28 (strip hraw)).
Proof.
  intros (hraw & raw & n & H1 & H2 & _ & _ & Hr).
  exists hraw, raw.
  destruct (data_record_cells _ _ _ Hr)
    as (Hy & _ & _ & _ & _ & _ & Hb & Hc & Hn & _).
  repeat split; auto.
Qed.

(** The unique id of a type-cast row: the string of the integer read from
    the year of the data line, followed by the cyclone number of the
    header. *)
Lemma type_cast_unique_id (lines : list string) (df df' : frame) :
  Forall (record_of lines) df ->
  type_cast df = Ok df' ->
  Forall2 (fun r r' => exists y z c,
               dict_get "Year" r = Some (VStr y) /\ py_int y = Ok z /\
               dict_get "CycloneID" r = Some (VStr c) /\
               dict_get "Year" r' = Some (VInt z) /\
               unique_id r' = Ok (py_str_of_int z ++ c)) df df'.
Proof.
  intros Hrec Hcast.
  pose proof (type_cast_column df df' "Year" AsInt
                ltac:(simpl; tauto) Hcast) as HY.
  pose proof (type_cast_column df df' "CycloneID" AsString
                ltac:(simpl; tauto) Hcast) as HC.
  eapply Forall2_impl; [|exact (Forall_Forall2_and _ _ _ _ _ Hrec HY HC)].
  intros r r' (Hr & (y0 & y1 & Hy0 & Hys & Hy1) & (c0 & c1 & Hc0 & Hcs & Hc1)).
  destruct (record_of_cells _ _ Hr) as (hraw & raw & _ & _ & Hy & _ & Hc & _).
  rewrite Hy in Hy0; injection Hy0 as <-.
  rewrite Hc in Hc0; injection Hc0 as <-.
  unfold field in *.
  simpl in Hcs; injection Hcs as <-.
  cbn [step_cell] in Hys; unfold astype_int, int_ in Hys.
  destruct (py_int (strip (slice 0 4 (strip raw)))) as [z|e] eqn:Hz;
    simpl in Hys; [|discriminate].
  injection Hys as <-.
  exists (strip (slice 0 4 (strip raw))), z, (strip (slice 2 4 (strip hraw))).
  repeat split; auto.
  unfold unique_id, getitem; rewrite Hy1, Hc1; reflexivity.
Qed.

(** The sample storm that crosses a year boundary: one header, of year
    1954, and two records whose years differ, and so do the unique ids
    computed for them from the assembled frame; the validator then reports
    a mismatch. *)
Example storm_across_new_year :
  field 4 8 (strip (hd "" storm_1954_16)) = VStr "1954" /\
  map (dict_get "Year") (frame_of storm_1954_16) =
    [Some (VStr "1954"); Some (VStr "1955")] /\
  (df' <- type_cast (frame_of storm_1954_16) ;; mapM unique_id df') =
    Ok ["195416"; "195516"] /\
  test_entries_count (frame_of storm_1954_16) = Ok false.
Proof. vm_compute; auto. Qed.

(** ** The validator *)

Lemma drop_duplicates_repeat (k : list value) (m : nat) :
  key_eqb k k = true -> drop_duplicates (repeat k (S m)) = [k].
Proof.
  intros Hk; induction m as [|m IH].
  - reflexivity.
  - change (repeat k (S (S m))) with (k :: repeat k (S m)).
    cbn [drop_duplicates]; rewrite IH; simpl; rewrite Hk; reflexivity.
Qed.

Lemma filter_repeat_true {A : Type} (f : A -> bool) (x : A) (n : nat) :
  f x = true -> filter f (repeat x n) = repeat x n.
Proof.
  intros H; induction n as [|n IH]; simpl; [reflexivity|].
  rewrite H, IH; reflexivity.
Qed.

Lemma select_uniform (cols : list string) (df : frame) (key : list value) :
  df <> [] ->
  Forall (fun r => mapM (getitem r) cols = Ok key) df ->
  select cols df = Ok (repeat key (List.length df)).
Proof.
  intros Hne Hall; unfold select.
  destruct df as [|r0 df0]; [contradiction|].
  clear Hne; induction Hall as [|r l Hr _ IH]; [reflexivity|].
  cbn [mapM List.length repeat]; rewrite Hr, IH; reflexivity.
Qed.

(** On a frame whose rows all belong to one storm identity, declared with
    [n] entries, the validator returns whether the number of rows is [n]. *)
Lemma test_entries_count_one_storm (df : frame) (b c y nm : string) (n : Z) :
  df <> [] ->
  Forall (fun r => dict_get "Basin" r = Some (VStr b) /\
                   dict_get "CycloneID" r = Some (VStr c) /\
                   dict_get "Year" r = Some (VStr y) /\
                   dict_get "Name" r = Some (VStr nm) /\
                   dict_get "Entries" r = Some (VInt n)) df ->
  test_entries_count df = Ok (Z.of_nat (List.length df) =? n).
Proof.
  intros Hne Hall; unfold test_entries_count.
  rewrite (select_uniform group_columns df [VStr b; VStr c; VStr y; VStr nm] Hne).
  2:{ eapply Forall_impl; [|exact Hall].
      intros r (Hb & Hc & Hy & Hn & _); unfold group_columns, getitem; simpl.
      rewrite Hb, Hc, Hy, Hn; reflexivity. }
  rewrite (select_uniform _ df [VStr b; VStr c; VInt n; VStr y; VStr nm] Hne).
  2:{ eapply Forall_impl; [|exact Hall].
      intros r (Hb & Hc & Hy & Hn & He); unfold getitem; simpl.
      rewrite Hb, Hc, Hy, Hn, He; reflexivity. }
  cbn [bind].
  destruct (List.length df) as [|m] eqn:Hlen;
    [destruct df; [contradiction | discriminate]|].
  assert (K : key_eqb [VStr b; VStr c; VStr y; VStr nm]
                      [VStr b; VStr c; VStr y; VStr nm] = true).
  { simpl; rewrite !String.eqb_refl; reflexivity. }
  assert (K' : key_eqb [VStr b; VStr c; VInt n; VStr y; VStr nm]
                       [VStr b; VStr c; VInt n; VStr y; VStr nm] = true).
  { simpl; rewrite !String.eqb_refl, Z.eqb_refl; reflexivity. }
  unfold group_sizes.
  rewrite !drop_duplicates_repeat by assumption.
  cbn [map]; rewrite (filter_repeat_true _ _ _ K), repeat_length.
  unfold merge_left; cbn [flat_map fst snd app]; rewrite K.
  cbn [app map filter fst snd value_eqb].
  destruct (Z.of_nat (S m) =? n); reflexivity.
Qed.

Lemma field_basin_AL (line : string) :
  field 0 2 line = VStr "AL" -> startswith line "AL" = true.
Proof.
  unfold field, slice, strip; intros [= H].
  destruct line as [|c1 [|c2 rest]]; simpl in H.
  - discriminate.
  - destruct (is_space c1); simpl in H; try discriminate.
    destruct (is_space c1); discriminate.
  - destruct (is_space c1) eqn:E1; simpl in H.
    + destruct (is_space c2) eqn:E2; simpl in H; try discriminate.
      rewrite E2 in H; discriminate.
    + destruct (is_space c2) eqn:E2; simpl in H.
      * rewrite E1 in H; discriminate.
      * injection H as -> ->; reflexivity.
Qed.

(** ** One storm, end to end *)

Lemma data_record_returns (header : dict) (raw : string) :
  well_formed_data_line raw = true -> returns (data_record header raw).
Proof.
  unfold well_formed_data_line; intros H.
  repeat (apply andb_prop in H as [H _]).
  apply is_ok_returns in H as [[lat lon] Hc].
  rewrite data_record_eq, Hc; eexists; reflexivity.
Qed.

Lemma data_record_castable (line : string) (n : Z) (raw : string) (r : dict) :
  data_record (assembled_header line n) raw = Ok r ->
  well_formed_data_line raw = true ->
  castable type_cast_steps r.
Proof.
  intros Hr Hwf.
  destruct (data_record_get _ _ _ Hr) as (lat & lon & _ & Hget).
  unfold well_formed_data_line in Hwf.
  apply andb_prop in Hwf as [Hwf Hmi].
  apply andb_prop in Hwf as [Hwf Hh].
  apply andb_prop in Hwf as [Hwf Hd].
  apply andb_prop in Hwf as [Hwf Hm].
  apply andb_prop in Hwf as [_ Hy].
  apply is_ok_returns in Hy, Hm, Hd, Hh, Hmi.
  intros c op Hin; simpl in Hin.
  repeat (destruct Hin as [Hin|Hin];
          [injection Hin as <- <-; rewrite Hget;
           eexists; (split; [reflexivity|]); intros Hop;
           first [discriminate Hop | assumption]|]).
  destruct Hin.
Qed.

(** The unique-id cell on a frame whose rows all get the same id. *)
Lemma add_unique_id_uniform (df : frame) (id : string) :
  df <> [] ->
  Forall (fun r => unique_id r = Ok id) df ->
  exists df',
    add_unique_id df = Ok df' /\ List.length df' = List.length df /\
    Forall (fun r' => dict_get "UniqueID" r' = Some (VStr id)) df'.
Proof.
  intros Hne Hall.
  assert (Hm : mapM unique_id df = Ok (repeat id (List.length df))).
  { clear Hne; induction Hall as [|r l Hr _ IH]; [reflexivity|].
    cbn [mapM List.length repeat]; rewrite Hr, IH; reflexivity. }
  unfold add_unique_id; destruct df as [|r0 df0]; [contradiction|].
  set (df := r0 :: df0) in *; clearbody df.
  rewrite Hm; cbn [bind]; eexists; split; [reflexivity|].
  split.
  - rewrite length_map, length_combine, repeat_length; lia.
  - clear Hm Hne Hall; induction df as [|r l IH]; simpl; constructor;
      [apply dict_get_set_same | exact IH].
Qed.

(** * Further properties of the notebook's code *)

(** ** The assembler on whole inputs *)

Lemma data_record_strip (header : dict) (raw : string) :
  data_record header (strip raw) = data_record header raw.
Proof. rewrite !data_record_eq, strip_idempotent; reflexivity. Qed.

Lemma mapM_map {A B C : Type} (f : B -> result C) (g : A -> B) (l : list A) :
  mapM f (map g l) = mapM (fun x => f (g x)) l.
Proof.
  induction l as [|x l IH]; simpl; [reflexivity | rewrite IH; reflexivity].
Qed.

Lemma mapM_ext {A B : Type} (f g : A -> result B) (l : list A) :
  (forall x, f x = g x) -> mapM f l = mapM g l.
Proof.
  intros H; induction l as [|x l IH]; simpl;
    [reflexivity | rewrite H, IH; reflexivity].
Qed.

Lemma while_loop_strip (lines : list string) (data : list dict) :
  while_loop (map strip lines) data = while_loop lines data.
Proof.
  remember (List.length lines) as len eqn:Hlen.
  revert lines data Hlen.
  induction len as [len IH] using lt_wf_ind; intros lines data Hlen.
  destruct lines as [|raw rest]; [reflexivity|].
  cbn [map].
  destruct (startswith (strip raw) "AL") eqn:Hal.
  - rewrite (while_loop_header (strip raw)), (while_loop_header raw);
      rewrite ?strip_idempotent; try exact Hal.
    destruct (int_ (field 33 36 (strip raw))) as [entries|e]; cbn [bind];
      [|reflexivity].
    rewrite firstn_map, skipn_map, length_map, mapM_map.
    rewrite (mapM_ext _ (data_record (assembled_header (strip raw) entries)))
      by (intros x; apply data_record_strip).
    destruct (mapM _ (firstn (Z.to_nat entries) rest)) as [recs|e]; cbn [bind];
      [|reflexivity].
    destruct (Z.to_nat entries <=? List.length rest)%nat; [|reflexivity].
    apply (IH (List.length (skipn (Z.to_nat entries) rest)));
      [rewrite length_skipn; simpl in Hlen; lia | reflexivity].
  - rewrite (while_loop_skip (strip raw)), (while_loop_skip raw);
      rewrite ?strip_idempotent; try exact Hal.
    apply (IH (List.length rest)); [simpl in Hlen; lia | reflexivity].
Qed.

(** X1.  Columns are counted on the stripped line: leading and trailing
    whitespace of an input line, its line terminator included, never
    changes what the assembler returns or raises. *)
Theorem assembler_ignores_surrounding_whitespace (lines : list string) :
  parse_hurdat2 (map strip lines) = parse_hurdat2 lines.
Proof. apply while_loop_strip. Qed.

(** X2.  An input that the assembler turns into a frame can be followed by
    more lines: the result is then the frame of the first part followed by
    the frame of the second, or the error of the second. *)
Theorem assembler_concatenation (first second : list string) (recs : frame) :
  parse_hurdat2 first = Ok recs ->
  parse_hurdat2 (first ++ second) =
  (more <- parse_hurdat2 second ;; Ok (recs ++ more)%list).
Proof.
  intros H; unfold parse_hurdat2 in *.
  rewrite (while_loop_app first second recs [] H).
  apply while_loop_data.
Qed.

Lemma assembler_concatenation_witness :
  parse_hurdat2 (storm_1851_01 ++ storm_1954_16) =
  Ok (frame_of storm_1851_01 ++ frame_of storm_1954_16)%list.
Proof.
  rewrite (assembler_concatenation storm_1851_01 storm_1954_16
             (frame_of storm_1851_01) eq_refl).
  vm_compute; reflexivity.
Defined.

(** X3.  An input in which no stripped line starts with [AL], the empty
    input included, gives the empty frame; and on the empty frame, which
    has no column, the validator and the type-casting cell each raise
    [KeyError]. *)
Theorem input_without_header (lines : list string) :
  Forall (fun raw => startswith (strip raw) "AL" = false) lines ->
  parse_hurdat2 lines = Ok [] /\
  (df <- parse_hurdat2 lines ;; test_entries_count df) = Raise KeyError /\
  (df <- parse_hurdat2 lines ;; type_cast df) = Raise KeyError.
Proof.
  intros H.
  assert (E : parse_hurdat2 lines = Ok []).
  { induction H as [|raw rest Hal _ IH]; [reflexivity|].
    rewrite parse_hurdat2_skip by exact Hal; exact IH. }
  rewrite E; repeat split; reflexivity.
Qed.

Lemma input_without_header_witness :
  parse_hurdat2 (tl storm_1851_01) = Ok [] /\
  (df <- parse_hurdat2 (tl storm_1851_01) ;; test_entries_count df) =
    Raise KeyError.
Proof.
  destruct (input_without_header (tl storm_1851_01)) as (H1 & H2 & _).
  - repeat constructor.
  - split; assumption.
Defined.

(** ** The shape of the assembled frame *)

Lemma line_coordinates_valid (line : string) (lat lon : float) :
  line_coordinates line = Ok (lat, lon) ->
  valid_binary prec emax lat = true /\ valid_binary prec emax lon = true.
Proof.
  unfold line_coordinates, field.
  destruct (py_float (strip (slice 23 27 line))) as [a|e] eqn:Ea.
  - destruct (py_float (strip (slice 30 35 line))) as [b|e] eqn:Eb.
    + rewrite (convert_lat_lon_Ok _ _ _ _ a b Ea Eb).
      pose proof (py_float_valid _ _ Ea) as Va.
      pose proof (py_float_valid _ _ Eb) as Vb.
      intros [= <- <-]; split.
      * destruct (String.eqb _ "N"); [exact Va | destruct a; exact Va].
      * destruct (String.eqb _ "E"); [exact Vb | destruct b; exact Vb].
    + unfold convert_lat_lon, float_; rewrite Ea, Eb; discriminate.
  - unfold convert_lat_lon, float_; rewrite Ea; discriminate.
Qed.

(** The composite record, key by key. *)
Lemma combined_dict_eq (line : string) (entries : Z) (data_line : string)
    (lat lon : float) :
  dict_merge (assembled_header line entries)
             (converted_data data_line lat lon) =
  [ ("Basin", field 0 2 line);
    ("CycloneID", field 2 4 line);
    ("Year", field 0 4 data_line);
    ("Name", field 18 28 line);
    ("Entries", VInt entries);
    ("Month", field 4 6 data_line);
    ("Day", field 6 8 data_line);
    ("Hours", field 10 12 data_line);
    ("Minutes", field 12 14 data_line);
    ("RecordID", field 16 17 data_line);
    ("Status", field 19 21 data_line);
    ("Latitude", VFloat lat);
    ("LatHemisphere", field 27 28 data_line);
    ("Longitude", VFloat lon);
    ("LonHemisphere", field 35 36 data_line);
    ("MaxWind", field 38 41 data_line);
    ("MinPressure", field 43 47 data_line);
    ("34NE", field 49 53 data_line);
    ("34SE", field 55 59 data_line);
    ("34SW", field 61 65 data_line);
    ("34NW", field 67 71 data_line);
    ("50NE", field 73 77 data_line);
    ("50SE", field 79 83 data_line);
    ("50SW", field 85 89 data_line);
    ("50NW", field 91 95 data_line);
    ("64NE", field 97 101 data_line);
    ("64SE", field 103 107 data_line);
    ("64SW", field 109 113 data_line);
    ("64NW", field 115 119 data_line);
    ("RadiusMaxWind", field 121 125 data_line) ].
Proof. reflexivity. Qed.

Lemma field_cell (a b : nat) (line : string) :
  exists s, field a b line = VStr s /\ strip s = s.
Proof.
  eexists; split; [reflexivity | apply strip_idempotent].
Qed.

(** X4.  Every record of the assembled frame has the same thirty columns
    in the same order, with no column twice; the count column holds an
    integer, the two coordinate columns hold binary64 floats, and every
    other column holds a string without surrounding whitespace. *)
Theorem assembled_frame_schema (lines : list string) (df : frame) :
  parse_hurdat2 lines = Ok df ->
  Forall (fun r => map fst r = frame_columns /\
                   Forall (fun kv => cell_of_column (fst kv) (snd kv)) r) df /\
  NoDup frame_columns /\ List.length frame_columns = 30%nat.
Proof.
  intros H.
  split; [|split; [apply nodupb_NoDup; reflexivity | reflexivity]].
  pose proof (emits_record_of _ _ (proj1 (parse_hurdat2_emits _ _) H)) as Hrec.
  eapply Forall_impl; [|exact Hrec].
  intros r (hraw & raw & n & _ & _ & _ & _ & Hr).
  rewrite data_record_eq in Hr.
  destruct (line_coordinates (strip raw)) as [[lat lon]|e] eqn:Hc;
    cbn [bind] in Hr; [|discriminate].
  destruct (line_coordinates_valid _ _ _ Hc) as [Vlat Vlon].
  assert (E : r = dict_merge (assembled_header (strip hraw) n)
                             (converted_data (strip raw) lat lon))
    by congruence.
  rewrite combined_dict_eq in E; subst r.
  split; [reflexivity|].
  repeat (constructor;
          [first [ apply field_cell
                 | eexists; reflexivity
                 | eexists; split; [reflexivity | assumption] ]|]).
  constructor.
Qed.

Lemma assembled_frame_schema_witness :
  Forall (fun r => map fst r = frame_columns /\
                   Forall (fun kv => cell_of_column (fst kv) (snd kv)) r)
         (frame_of storm_1954_16).
Proof.
  exact (proj1 (assembled_frame_schema storm_1954_16 (frame_of storm_1954_16)
                  eq_refl)).
Defined.

(** ** The validator on any assembled frame *)

Lemma value_eqb_plain (v v' : value) :
  is_plain v -> is_plain v' -> (value_eqb v v' = true <-> v = v').
Proof.
  destruct v as [s|x|], v' as [t|y|]; simpl; try contradiction; intros _ _;
    split; try discriminate.
  - intros H; apply String.eqb_eq in H; congruence.
  - intros [= ->]; apply String.eqb_refl.
  - intros H; apply Z.eqb_eq in H; congruence.
  - intros [= ->]; apply Z.eqb_refl.
Qed.

Lemma key_eqb_plain (k k' : list value) :
  Forall is_plain k -> Forall is_plain k' ->
  (key_eqb k k' = true <-> k = k').
Proof.
  intros Hk; revert k'; induction Hk as [|v k Hv _ IH]; intros [|v' k'] Hk';
    simpl; split; try discriminate; try reflexivity;
    inversion Hk' as [|? ? Hv' Hk'']; subst.
  - intros H; apply andb_prop in H as [H1 H2].
    apply (value_eqb_plain v v' Hv Hv') in H1; apply (IH _ Hk'') in H2.
    congruence.
  - intros [= <- <-]; apply andb_true_intro; split.
    + apply (value_eqb_plain v v Hv Hv); reflexivity.
    + apply (IH _ Hk''); reflexivity.
Qed.

(** On rows of plain cells, [drop_duplicates] keeps exactly the rows that
    occur. *)
Lemma drop_duplicates_In (l : list (list value)) (x : list value) :
  Forall (Forall is_plain) l ->
  (In x (drop_duplicates l) <-> In x l).
Proof.
  intros Hall; induction Hall as [|r rest Hr Hrest IH]; simpl; [tauto|].
  rewrite filter_In, IH.
  split; [intros [H|[H _]]; auto|].
  intros [H|H]; [auto|].
  destruct (key_eqb r x) eqn:E; [|right; auto].
  left; apply (key_eqb_plain r x Hr); [|exact E].
  exact (proj1 (Forall_forall _ _) Hrest x H).
Qed.

Lemma filter_nil_iff {A : Type} (f : A -> bool) (l : list A) :
  filter f l = [] <-> forall x, In x l -> f x = false.
Proof.
  induction l as [|a l IH]; simpl; [split; [intros _ x [] | reflexivity]|].
  destruct (f a) eqn:E; split.
  - discriminate.
  - intros H; specialize (H a (or_introl eq_refl)); congruence.
  - intros H x [<-|Hx]; [exact E | apply IH; assumption].
  - intros H; apply IH; intros x Hx; apply H; right; exact Hx.
Qed.

Lemma keyed_row_cells (r : dict) :
  keyed_row r ->
  exists b c y n,
    cells group_columns r = [VStr b; VStr c; VStr y; VStr n] /\
    mapM (getitem r) group_columns = Ok [VStr b; VStr c; VStr y; VStr n] /\
    mapM (getitem r) ["Basin"; "CycloneID"; "Entries"; "Year"; "Name"] =
      Ok [VStr b; VStr c; VInt (declared r); VStr y; VStr n].
Proof.
  intros [Hk [n Hn]].
  unfold group_columns in *.
  inversion Hk as [|? ? [b Hb] Hk1]; subst.
  inversion Hk1 as [|? ? [c Hc] Hk2]; subst.
  inversion Hk2 as [|? ? [y Hy] Hk3]; subst.
  inversion Hk3 as [|? ? [nm Hnm] _]; subst.
  exists b, c, y, nm.
  unfold cells, declared, getitem; simpl.
  rewrite Hb, Hc, Hy, Hnm, Hn; simpl; auto.
Qed.

Lemma select_rows (cols : list string) (df : frame) (f : dict -> list value) :
  df <> [] ->
  Forall (fun r => mapM (getitem r) cols = Ok (f r)) df ->
  select cols df = Ok (map f df).
Proof.
  intros Hne Hall; unfold select.
  destruct df as [|r0 df0]; [contradiction|].
  clear Hne; induction Hall as [|r l Hr _ IH]; [reflexivity|].
  cbn [mapM map]; rewrite Hr, IH; reflexivity.
Qed.

Lemma filter_map_length {A B : Type} (g : A -> B) (p : B -> bool) (l : list A) :
  List.length (filter p (map g l)) = List.length (filter (fun x => p (g x)) l).
Proof.
  induction l as [|a l IH]; simpl; [reflexivity|].
  destruct (p (g a)); simpl; rewrite IH; reflexivity.
Qed.

Lemma merge_rows_In (c : Z) (ms : list value) (m : Z * option value) :
  In m (match ms with
        | [] => [(c, None)]
        | _ => map (fun e => (c, Some e)) ms
        end) <->
  (ms = [] /\ m = (c, None)) \/ (exists e, In e ms /\ m = (c, Some e)).
Proof.
  destruct ms as [|e0 ms].
  - simpl; split.
    + intros [<-|[]]; left; auto.
    + intros [[_ ->]|(e & [] & _)]; left; reflexivity.
  - rewrite in_map_iff; split.
    + intros (e & <- & He); right; exists e; auto.
    + intros [[H _]|(e & He & ->)]; [discriminate | exists e; auto].
Qed.

(** On a frame of keyed rows, the validator returns [True] exactly when
    every row declares the size of its own group. *)
Lemma test_entries_count_rows (df : frame) :
  df <> [] -> Forall keyed_row df ->
  test_entries_count df =
  Ok (forallb (fun r => group_size df r =? declared r) df).
Proof.
  intros Hne Hall.
  set (kf := cells group_columns).
  set (rf := fun r => match kf r with
                      | [b; c; y; n] => [b; c; VInt (declared r); y; n]
                      | _ => []
                      end).
  assert (Hrow : forall r, In r df ->
            exists b c y n,
              kf r = [VStr b; VStr c; VStr y; VStr n] /\
              rf r = [VStr b; VStr c; VInt (declared r); VStr y; VStr n] /\
              mapM (getitem r) group_columns = Ok (kf r) /\
              mapM (getitem r) ["Basin"; "CycloneID"; "Entries"; "Year"; "Name"] =
                Ok (rf r)).
  { intros r Hr.
    destruct (keyed_row_cells r (proj1 (Forall_forall _ _) Hall r Hr))
      as (b & c & y & n & E & E1 & E2).
    exists b, c, y, n; unfold rf, kf; rewrite E; auto. }
  assert (Hsel1 : select group_columns df = Ok (map kf df)).
  { apply select_rows; [exact Hne|]; apply Forall_forall; intros r Hr.
    destruct (Hrow r Hr) as (b & c & y & n & _ & _ & E & _); exact E. }
  assert (Hsel2 : select ["Basin"; "CycloneID"; "Entries"; "Year"; "Name"] df =
                  Ok (map rf df)).
  { apply select_rows; [exact Hne|]; apply Forall_forall; intros r Hr.
    destruct (Hrow r Hr) as (b & c & y & n & _ & _ & _ & E); exact E. }
  assert (Hkplain : forall r, In r df -> Forall is_plain (kf r)).
  { intros r Hr; destruct (Hrow r Hr) as (b & c & y & n & E & _).
    rewrite E; repeat constructor. }
  assert (Hkeys : forall x, In x (drop_duplicates (map kf df)) <->
                            exists r, In r df /\ x = kf r).
  { intros x; rewrite drop_duplicates_In.
    - rewrite in_map_iff; split; intros (r & H1 & H2); exists r; auto.
    - apply Forall_map, Forall_forall; exact Hkplain. }
  assert (Hright : forall x, In x (drop_duplicates (map rf df)) <->
                             exists r, In r df /\ x = rf r).
  { intros x; rewrite drop_duplicates_In.
    - rewrite in_map_iff; split; intros (r & H1 & H2); exists r; auto.
    - apply Forall_map, Forall_forall; intros r Hr.
      destruct (Hrow r Hr) as (b & c & y & n & _ & E & _).
      rewrite E; repeat constructor. }
  assert (Hcnt : forall r,
            Z.of_nat (List.length (filter (key_eqb (kf r)) (map kf df))) =
            group_size df r).
  { intros r; unfold group_size; rewrite filter_map_length; reflexivity. }
  set (M := fun k : list value =>
              flat_map (fun row => match row with
                                   | [b; c; e; y; n] =>
                                       if key_eqb k [b; c; y; n] then [e] else []
                                   | _ => []
                                   end) (drop_duplicates (map rf df))).
  assert (HM : forall r0 e, In r0 df ->
            (In e (M (kf r0)) <->
             exists r1, In r1 df /\ kf r1 = kf r0 /\ e = VInt (declared r1))).
  { intros r0 e Hr0; unfold M; rewrite in_flat_map; split.
    - intros (row & Hrow' & He).
      apply Hright in Hrow' as (r1 & Hr1 & ->).
      destruct (Hrow r1 Hr1) as (b & c & y & n & Ek & Er & _).
      rewrite Er in He.
      destruct (key_eqb (kf r0) [VStr b; VStr c; VStr y; VStr n]) eqn:E;
        [|destruct He].
      destruct He as [<-|[]].
      exists r1; repeat split; auto.
      rewrite Ek; symmetry.
      apply (key_eqb_plain (kf r0)); auto.
      repeat constructor.
    - intros (r1 & Hr1 & Ek & ->).
      exists (rf r1); split; [apply Hright; exists r1; auto|].
      destruct (Hrow r1 Hr1) as (b & c & y & n & Ek1 & Er & _).
      rewrite Er, <- Ek, Ek1.
      rewrite (proj2 (key_eqb_plain [VStr b; VStr c; VStr y; VStr n]
                        [VStr b; VStr c; VStr y; VStr n]
                        ltac:(repeat constructor) ltac:(repeat constructor))
                 eq_refl).
      left; reflexivity. }
  unfold test_entries_count; rewrite Hsel1, Hsel2; cbn [bind].
  match goal with
  | |- match ?mm with [] => _ | _ => _ end = _ =>
      assert (Hiff : mm = [] <->
                     forallb (fun r => group_size df r =? declared r) df = true);
      [|destruct mm;
        [rewrite (proj1 Hiff eq_refl); reflexivity
        |destruct (forallb _ df);
         [discriminate (proj2 Hiff eq_refl) | reflexivity]]]
  end.
  rewrite filter_nil_iff, forallb_forall.
  unfold merge_left, group_sizes; fold M.
  split.
  - intros H r Hr.
    assert (Hin : In (group_size df r, Some (VInt (declared r)))
                     (flat_map
                        (fun g => match M (fst g) with
                                  | [] => [(snd g, None)]
                                  | _ => map (fun e => (snd g, Some e)) (M (fst g))
                                  end)
                        (map (fun k => (k, Z.of_nat (List.length
                                (filter (key_eqb k) (map kf df)))))
                             (drop_duplicates (map kf df))))).
    { apply in_flat_map.
      exists (kf r, group_size df r); split.
      - apply in_map_iff; exists (kf r); split; [rewrite Hcnt; reflexivity|].
        apply Hkeys; exists r; auto.
      - apply merge_rows_In; right.
        exists (VInt (declared r)); split; [|reflexivity].
        apply (HM r _ Hr); exists r; auto. }
    specialize (H _ Hin); cbn [fst snd value_eqb] in H.
    apply negb_false_iff in H; exact H.
  - intros H [cnt oe] Hin.
    apply in_flat_map in Hin as ([k c] & Hg & Hm).
    apply in_map_iff in Hg as (k' & [= <- <-] & Hk).
    apply Hkeys in Hk as (r0 & Hr0 & ->).
    cbn [fst snd] in Hm.
    apply merge_rows_In in Hm as [[Hnil _]|(e & He & [= -> ->])].
    + exfalso.
      assert (In (VInt (declared r0)) (M (kf r0)))
        by (apply (HM r0 _ Hr0); exists r0; auto).
      assert (E : M (kf r0) = []) by exact Hnil.
      rewrite E in H0; destruct H0.
    + apply (HM r0 _ Hr0) in He as (r1 & Hr1 & Ek & ->).
      cbn [fst snd value_eqb]; apply negb_false_iff.
      pose proof (H r1 Hr1) as H1.
      rewrite <- (Hcnt r1), Ek in H1; exact H1.
Qed.

Lemma data_record_keyed (line : string) (n : Z) (raw : string) (r : dict) :
  data_record (assembled_header line n) raw = Ok r ->
  keyed_row r /\ declared r = n /\
  cells group_columns r =
    [field 0 2 line; field 2 4 line; field 0 4 (strip raw); field 18 28 line].
Proof.
  intros Hr.
  destruct (data_record_cells _ _ _ Hr)
    as (Hy & _ & _ & _ & _ & _ & Hb & Hc & Hn & He & _).
  change (dict_get "Basin" (assembled_header line n))
    with (Some (field 0 2 line)) in Hb.
  change (dict_get "CycloneID" (assembled_header line n))
    with (Some (field 2 4 line)) in Hc.
  change (dict_get "Name" (assembled_header line n))
    with (Some (field 18 28 line)) in Hn.
  change (dict_get "Entries" (assembled_header line n))
    with (Some (VInt n)) in He.
  split; [|split].
  - split; [|exists n; exact He].
    unfold group_columns; repeat constructor; eexists;
      first [exact Hb | exact Hc | exact Hy | exact Hn].
  - unfold declared; rewrite He; reflexivity.
  - unfold cells, group_columns; simpl; rewrite Hb, Hc, Hy, Hn; reflexivity.
Qed.

Lemma record_of_keyed (lines : list string) (r : dict) :
  record_of lines r -> keyed_row r.
Proof.
  intros (hraw & raw & n & _ & _ & _ & _ & Hr).
  exact (proj1 (data_record_keyed _ _ _ _ Hr)).
Qed.

(** X5.  On the frame the assembler returns, when it has rows, the
    validator never raises, and it returns [True] exactly when every row
    declares, in its count column, the number of rows of the frame that
    share its basin, cyclone number, year and name. *)
Theorem validator_checks_every_group (lines : list string) (df : frame) :
  parse_hurdat2 lines = Ok df ->
  df <> [] ->
  test_entries_count df =
    Ok (forallb (fun r => group_size df r =? declared r) df) /\
  (test_entries_count df = Ok true <->
   forall r, In r df -> group_size df r = declared r).
Proof.
  intros H Hne.
  pose proof (emits_record_of _ _ (proj1 (parse_hurdat2_emits _ _) H)) as Hrec.
  assert (E : test_entries_count df =
              Ok (forallb (fun r => group_size df r =? declared r) df)).
  { apply test_entries_count_rows; [exact Hne|].
    eapply Forall_impl; [|exact Hrec]; apply record_of_keyed. }
  split; [exact E|].
  rewrite E; split.
  - intros [= Hb] r Hr.
    rewrite forallb_forall in Hb; apply Z.eqb_eq, Hb, Hr.
  - intros Hall; f_equal; apply forallb_forall.
    intros r Hr; apply Z.eqb_eq, Hall, Hr.
Qed.

Lemma validator_checks_every_group_witness :
  test_entries_count (frame_of storm_1954_16) =
    Ok (forallb (fun r => group_size (frame_of storm_1954_16) r =? declared r)
                (frame_of storm_1954_16)).
Proof.
  refine (proj1 (validator_checks_every_group storm_1954_16
                   (frame_of storm_1954_16) eq_refl _)).
  vm_compute; discriminate.
Defined.

Lemma filter_full {A : Type} (f : A -> bool) (l : list A) :
  List.length (filter f l) = List.length l -> forall x, In x l -> f x = true.
Proof.
  induction l as [|a l IH]; simpl; [intros _ x []|].
  pose proof (filter_length_le f l) as Hle.
  destruct (f a) eqn:E; simpl; intros H x [<-|Hx]; auto; lia.
Qed.

(** X6.  For an input made of one header and exactly the data lines it
    declares, at least one, all with float coordinates, the validator
    returns [True] exactly when all the data lines carry the same year
    field; a storm whose lines cross into another year is always reported
    as a mismatch. *)
Theorem validator_on_one_block (hraw : string) (ds : list string) (n : Z) :
  startswith (strip hraw) "AL" = true ->
  int_ (field 33 36 (strip hraw)) = Ok n ->
  1 <= n -> List.length ds = Z.to_nat n ->
  Forall (fun raw => returns (line_coordinates (strip raw))) ds ->
  exists df,
    parse_hurdat2 (hraw :: ds) = Ok df /\
    List.length df = List.length ds /\
    (test_entries_count df = Ok true <->
     forall raw, In raw ds ->
       field 0 4 (strip raw) = field 0 4 (strip (hd "" ds))) /\
    (test_entries_count df = Ok true \/ test_entries_count df = Ok false).
Proof.
  intros Hal Hn Hpos Hlen Hds.
  set (header := assembled_header (strip hraw) n).
  destruct (mapM_returns (data_record header) ds) as [df Hdf].
  { eapply Forall_impl; [|exact Hds].
    intros raw [[lat lon] Hc]; rewrite data_record_eq, Hc; eexists; reflexivity. }
  assert (Hparse : parse_hurdat2 (hraw :: ds) = Ok df).
  { rewrite (parse_hurdat2_header hraw ds Hal), Hn; cbn [bind].
    rewrite firstn_all2, skipn_all2 by lia.
    fold header; rewrite Hdf; cbn [bind].
    rewrite Hlen, Nat.leb_refl; simpl; rewrite app_nil_r; reflexivity. }
  pose proof (proj1 (mapM_Forall2 _ _ _) Hdf) as H2.
  pose proof (mapM_length _ _ _ Hdf) as Hdflen.
  assert (Hne : df <> []).
  { intros ->; simpl in Hdflen; lia. }
  assert (Hrows : Forall2 (fun raw r =>
            keyed_row r /\ declared r = n /\
            cells group_columns r =
              [field 0 2 (strip hraw); field 2 4 (strip hraw);
               field 0 4 (strip raw); field 18 28 (strip hraw)]) ds df).
  { eapply Forall2_impl; [|exact H2].
    intros raw r Hr; exact (data_record_keyed _ _ _ _ Hr). }
  assert (E : test_entries_count df =
              Ok (forallb (fun r => group_size df r =? declared r) df)).
  { apply test_entries_count_rows; [exact Hne|].
    eapply Forall2_Forall_transfer with (P := fun _ => True);
      [|apply Forall_forall; intros; exact I|exact Hrows].
    intros raw r _ [H _]; exact H. }
  exists df; split; [exact Hparse|]. split; [exact Hdflen|].
  split; [|rewrite E; destruct (forallb _ df); auto].
  destruct ds as [|raw0 ds0]; [simpl in Hlen; lia|].
  destruct df as [|r0 df0]; [contradiction|].
  set (ds := raw0 :: ds0) in *. set (df := r0 :: df0) in *.
  assert (H0 : keyed_row r0 /\ declared r0 = n /\
               cells group_columns r0 =
                 [field 0 2 (strip hraw); field 2 4 (strip hraw);
                  field 0 4 (strip raw0); field 18 28 (strip hraw)]).
  { unfold ds, df in Hrows; inversion Hrows; subst; assumption. }
  assert (Hsame : forall raw r,
            keyed_row r /\ declared r = n /\
            cells group_columns r =
              [field 0 2 (strip hraw); field 2 4 (strip hraw);
               field 0 4 (strip raw); field 18 28 (strip hraw)] ->
            (same_storm r0 r = true <->
             field 0 4 (strip raw) = field 0 4 (strip raw0))).
  { intros raw r (_ & _ & Ec).
    destruct H0 as (_ & _ & Ec0).
    unfold same_storm; rewrite Ec, Ec0.
    rewrite key_eqb_plain by (unfold field; repeat constructor).
    unfold field; split; congruence. }
  change (hd "" ds) with raw0.
  assert (Hin0 : In r0 df) by (left; reflexivity).
  clearbody ds df; split.
  - rewrite E; intros Hb' raw Hraw.
    assert (Hb : forallb (fun r => group_size df r =? declared r) df = true)
      by congruence.
    rewrite forallb_forall in Hb.
    pose proof (Hb r0 Hin0) as Hb0.
    apply Z.eqb_eq in Hb0.
    rewrite (proj1 (proj2 H0)) in Hb0.
    unfold group_size in Hb0.
    assert (Hfull : List.length (filter (same_storm r0) df) = List.length df)
      by lia.
    pose proof (filter_full _ _ Hfull) as Hall.
    clear -Hrows Hall Hsame Hraw.
    induction Hrows as [|raw' r ds' df' Hr _ IH]; [destruct Hraw|].
    destruct Hraw as [<-|Hraw].
    + apply (Hsame raw' r Hr), Hall; left; reflexivity.
    + apply IH; [exact Hraw|].
      intros x Hx; apply Hall; right; exact Hx.
  - intros Hall.
    rewrite (test_entries_count_one_storm df
               (strip (slice 0 2 (strip hraw))) (strip (slice 2 4 (strip hraw)))
               (strip (slice 0 4 (strip raw0)))
               (strip (slice 18 28 (strip hraw))) n Hne).
    + f_equal; apply Z.eqb_eq; lia.
    + eapply Forall2_Forall_transfer with (P := fun raw => In raw ds);
        [|apply Forall_forall; intros x Hx; exact Hx|exact H2].
      intros raw r Hraw Hr; cbv beta in Hr.
      destruct (data_record_cells _ _ _ Hr)
        as (Hy & _ & _ & _ & _ & _ & Hb & Hc & Hnm & He & _).
      rewrite Hy, Hb, Hc, Hnm, He, (Hall raw Hraw).
      repeat split; reflexivity.
Qed.

Lemma validator_on_one_block_witness :
  exists df,
    parse_hurdat2 storm_1954_16 = Ok df /\
    List.length df = 2%nat /\
    (test_entries_count df = Ok true <->
     forall raw, In raw (tl storm_1954_16) ->
       field 0 4 (strip raw) = field 0 4 (strip (hd "" (tl storm_1954_16)))) /\
    (test_entries_count df = Ok true \/ test_entries_count df = Ok false).
Proof.
  change storm_1954_16 with (hd "" storm_1954_16 :: tl storm_1954_16) at 1.
  apply (validator_on_one_block (hd "" storm_1954_16) (tl storm_1954_16) 2).
  - vm_compute; reflexivity.
  - vm_compute; reflexivity.
  - lia.
  - reflexivity.
  - repeat constructor; eexists; vm_compute; reflexivity.
Defined.

(** ** The type-casting cell on whole frames *)

Lemma dict_set_keys (d : dict) (k : string) (v0 v : value) :
  dict_get k d = Some v0 -> map fst (dict_set d k v) = map fst d.
Proof.
  induction d as [|[k' v'] r IH]; simpl; [discriminate|].
  destruct (String.eqb k k'); simpl; [reflexivity|].
  intros H; rewrite (IH H); reflexivity.
Qed.

Lemma cast_rel_keys (steps : list (string * cast)) (r r' : dict) :
  cast_rel steps r r' -> map fst r' = map fst r.
Proof.
  revert r; induction steps as [|[c op] rest IH]; intros r; simpl.
  - intros ->; reflexivity.
  - intros (v0 & v & Hv0 & _ & Hrel).
    rewrite (IH _ Hrel); exact (dict_set_keys _ _ _ _ Hv0).
Qed.

(** X7.  When the type-casting cell returns, the frame has the same number
    of rows, every row has the same columns in the same order, and every
    column the cell does not assign (the identity columns it leaves alone,
    the count, the coordinates) holds the cells it held. *)
Theorem type_cast_preserves_shape (df df' : frame) :
  type_cast df = Ok df' ->
  List.length df' = List.length df /\
  Forall2 (fun r r' =>
             map fst r' = map fst r /\
             forall k, ~ In k (map fst type_cast_steps) ->
                       dict_get k r' = dict_get k r) df df' /\
  Forall (fun k => ~ In k (map fst type_cast_steps))
         ["Basin"; "Entries"; "Latitude"; "LatHemisphere"; "Longitude"].
Proof.
  intros H; destruct (type_cast_rel _ _ H) as [Hlen Hrel].
  split; [exact Hlen|]. split.
  - eapply Forall2_impl; [|exact Hrel].
    intros r r' Hr; split; [exact (cast_rel_keys _ _ _ Hr)|].
    intros k Hk; exact (cast_rel_other _ _ _ _ Hr Hk).
  - repeat constructor; simpl; intros Hin;
      repeat (destruct Hin as [Hin|Hin]; [discriminate|]); exact Hin.
Qed.

Lemma type_cast_preserves_shape_witness :
  exists df',
    type_cast (frame_of storm_1954_16) = Ok df' /\
    List.length df' = List.length (frame_of storm_1954_16).
Proof.
  destruct (type_cast (frame_of storm_1954_16)) as [df'|e] eqn:E;
    [|vm_compute in E; discriminate].
  exists df'; split; [reflexivity|].
  exact (proj1 (type_cast_preserves_shape (frame_of storm_1954_16) df' E)).
Defined.

Lemma mapM_raises {A B : Type} (f : A -> result B) (l : list A) (e : exn) :
  mapM f l = Raise e -> exists x, In x l /\ f x = Raise e.
Proof.
  induction l as [|a l IH]; simpl; [discriminate|].
  destruct (f a) as [y|e'] eqn:E; simpl.
  - destruct (mapM f l) as [ys|e'']; simpl; [discriminate|].
    intros [= <-]; destruct (IH eq_refl) as (x & Hx & Hf); eauto.
  - intros [= <-]; exists a; auto.
Qed.

Lemma cast_column_raises_str (c : string) (op : cast) (df : frame) (e : exn) :
  df <> [] ->
  Forall (fun r => exists s, dict_get c r = Some (VStr s)) df ->
  cast_column df (c, op) = Raise e -> e = ValueError.
Proof.
  intros Hne Hall.
  unfold cast_column, map_column, to_numeric_column; cbn [fst snd].
  destruct df as [|r0 df0]; [contradiction|].
  set (df := r0 :: df0) in *; clearbody df.
  rewrite Forall_forall in Hall.
  destruct op.
  - destruct (mapM _ df) eqn:Em; cbn [bind]; [discriminate|].
    apply mapM_raises in Em as (r & Hr & Hf).
    destruct (Hall r Hr) as [s Hs]; unfold getitem in Hf; rewrite Hs in Hf.
    discriminate.
  - destruct (mapM _ df) eqn:Em; cbn [bind]; [discriminate|].
    intros [= <-].
    apply mapM_raises in Em as (r & Hr & Hf).
    destruct (Hall r Hr) as [s Hs]; unfold getitem in Hf; rewrite Hs in Hf.
    cbn [bind] in Hf; unfold astype_int, int_ in Hf.
    destruct (py_int s) as [z|e'] eqn:Ez; cbn [bind] in Hf; [discriminate|].
    injection Hf as <-; exact (py_int_raises _ _ Ez).
  - destruct (mapM _ df) eqn:Em; cbn [bind]; [discriminate|].
    apply mapM_raises in Em as (r & Hr & Hf).
    destruct (Hall r Hr) as [s Hs]; unfold getitem in Hf; rewrite Hs in Hf.
    discriminate.
Qed.

Lemma foldM_cast_raises_str (steps : list (string * cast)) (df : frame) (e : exn) :
  NoDup (map fst steps) -> df <> [] -> Forall (raw_row steps) df ->
  foldM cast_column steps df = Raise e -> e = ValueError.
Proof.
  revert df; induction steps as [|[c op] rest IH]; intros df ND Hne Hall;
    simpl; [discriminate|].
  inversion ND as [|? ? Hnotin ND']; subst.
  destruct (cast_column df (c, op)) as [df1|e1] eqn:E1; cbn [bind].
  - pose proof (cast_column_spec _ _ _ _ E1) as Hspec.
    apply IH; [exact ND'| |].
    + intros ->; apply Forall2_length_eq in Hspec.
      destruct df; [contradiction | discriminate].
    + eapply Forall2_Forall_transfer; [|exact Hall|exact Hspec].
      intros r r1 Hr (v0 & v & _ & _ & ->) c' op' Hin.
      destruct (Hr c' op' (or_intror Hin)) as [s Hs].
      exists s; rewrite dict_get_set_other; [exact Hs|].
      intros ->; apply Hnotin.
      change c with (fst (c, op')); apply in_map; exact Hin.
  - intros [= <-].
    apply (cast_column_raises_str c op df e1 Hne); [|exact E1].
    eapply Forall_impl; [|exact Hall].
    intros r Hr; exact (Hr c op (or_introl eq_refl)).
Qed.

Lemma record_of_raw_row (lines : list string) (r : dict) :
  record_of lines r -> raw_row type_cast_steps r.
Proof.
  intros (hraw & raw & n & _ & _ & _ & _ & Hr) c op Hin.
  destruct (data_record_get _ _ _ Hr) as (lat & lon & _ & Hget).
  simpl in Hin.
  repeat (destruct Hin as [Hin|Hin];
          [injection Hin as <- <-; rewrite Hget; eexists; reflexivity|]).
  destruct Hin.
Qed.

Lemma Forall2_In_l {A B : Type} (R : A -> B -> Prop) (l : list A) (l' : list B)
    (x : A) :
  Forall2 R l l' -> In x l -> exists y, In y l' /\ R x y.
Proof.
  induction 1 as [|a b l l' Hab _ IH]; intros Hin; [destruct Hin|].
  destruct Hin as [<-|Hin].
  - exists b; split; [left; reflexivity | exact Hab].
  - destruct (IH Hin) as (y & Hy & Hxy); exists y; split; [right|]; assumption.
Qed.

(** X8.  On a frame the assembler returns, with at least one row, the
    type-casting cell returns exactly when the year, month, day, hour and
    minute fields of every row are integer literals; when one is not (a
    blank field is enough) the cell fails, and the error is [ValueError].
    No other field of a data line can make it fail. *)
Theorem type_cast_on_assembled_frame (lines : list string) (df : frame) :
  parse_hurdat2 lines = Ok df ->
  df <> [] ->
  (returns (type_cast df) <->
   Forall (fun r => forall c, In c int_columns ->
                      exists s, dict_get c r = Some (VStr s) /\
                                returns (py_int s)) df) /\
  (forall e, type_cast df = Raise e -> e = ValueError).
Proof.
  intros H Hne.
  pose proof (emits_record_of _ _ (proj1 (parse_hurdat2_emits _ _) H)) as Hrec.
  assert (Hraw : Forall (raw_row type_cast_steps) df).
  { eapply Forall_impl; [|exact Hrec]; apply record_of_raw_row. }
  split; [split|].
  - intros [df' Hcast].
    apply Forall_forall; intros r Hr c Hc.
    assert (Hstep : In (c, AsInt) type_cast_steps).
    { unfold int_columns in Hc; simpl in Hc; simpl.
      repeat (destruct Hc as [<-|Hc]; [tauto|]); destruct Hc. }
    destruct (Forall2_In_l _ _ _ r (type_cast_column df df' c AsInt Hstep Hcast) Hr)
      as (r' & _ & v0 & v & Hv0 & Hs & _).
    destruct (proj1 (Forall_forall _ _) Hraw r Hr c AsInt Hstep) as [s Hs0].
    rewrite Hs0 in Hv0; injection Hv0 as <-.
    exists s; split; [exact Hs0|].
    cbn [step_cell] in Hs; unfold astype_int, int_ in Hs.
    destruct (py_int s) as [z|e]; [eexists; reflexivity | discriminate].
  - intros Hint.
    apply foldM_cast_returns; [apply type_cast_steps_NoDup | exact Hne|].
    apply Forall_forall; intros r Hr c op Hin.
    destruct (proj1 (Forall_forall _ _) Hraw r Hr c op Hin) as [s Hs].
    exists (VStr s); split; [exact Hs|].
    intros ->.
    assert (Hc : In c int_columns).
    { simpl in Hin; unfold int_columns; simpl.
      repeat (destruct Hin as [Hin|Hin];
              [first [discriminate Hin | injection Hin as <-; tauto]|]).
      destruct Hin. }
    destruct (proj1 (Forall_forall _ _) Hint r Hr c Hc) as (s' & Hs' & Hret).
    rewrite Hs in Hs'; injection Hs' as <-; exact Hret.
  - intros e He.
    exact (foldM_cast_raises_str _ _ _ type_cast_steps_NoDup Hne Hraw He).
Qed.

Lemma type_cast_on_assembled_frame_witness :
  returns (type_cast (frame_of storm_1954_16)) <->
  Forall (fun r => forall c, In c int_columns ->
                     exists s, dict_get c r = Some (VStr s) /\
                               returns (py_int s))
         (frame_of storm_1954_16).
Proof.
  refine (proj1 (type_cast_on_assembled_frame storm_1954_16
                   (frame_of storm_1954_16) eq_refl _)).
  vm_compute; discriminate.
Defined.

(** ** Numeric coercion of a column *)

Lemma to_numeric_cell_number (v : value) :
  is_int_cell (to_numeric_cell v) = true \/
  is_float_cell (to_numeric_cell v) = true.
Proof.
  destruct v as [s|z|f]; simpl; auto.
  unfold pd_number.
  destruct (plain_int (strip s)); simpl; auto.
  destruct (has_underscore s); simpl; auto.
  destruct (py_float s); simpl; auto.
Qed.

Lemma to_numeric_cell_fixed (v : value) :
  is_int_cell v = true \/ is_float_cell v = true -> to_numeric_cell v = v.
Proof. destruct v; simpl; intros [H|H]; congruence. Qed.

Lemma as_float_cell_float (v : value) :
  is_int_cell v = true \/ is_float_cell v = true ->
  is_float_cell (as_float_cell v) = true.
Proof. destruct v; simpl; intros [H|H]; congruence. Qed.

Lemma map_fixed {A : Type} (f : A -> A) (l : list A) :
  Forall (fun x => f x = x) l -> map f l = l.
Proof. induction 1; simpl; congruence. Qed.

Lemma to_numeric_coerce_int (col : list value) :
  forallb is_int_cell (map to_numeric_cell col) = true ->
  to_numeric_coerce col = map to_numeric_cell col.
Proof. unfold to_numeric_coerce; intros ->; reflexivity. Qed.

Lemma to_numeric_coerce_float (col : list value) :
  forallb is_int_cell (map to_numeric_cell col) = false ->
  to_numeric_coerce col = map as_float_cell (map to_numeric_cell col).
Proof. unfold to_numeric_coerce; intros ->; reflexivity. Qed.

Lemma to_numeric_coerce_dtype (col : list value) :
  forallb is_int_cell (to_numeric_coerce col) = true \/
  forallb is_float_cell (to_numeric_coerce col) = true.
Proof.
  destruct (forallb is_int_cell (map to_numeric_cell col)) eqn:E.
  - left; rewrite (to_numeric_coerce_int _ E); exact E.
  - right; rewrite (to_numeric_coerce_float _ E).
    apply forallb_forall; intros v Hv.
    apply in_map_iff in Hv as (w & <- & Hw).
    apply in_map_iff in Hw as (u & <- & _).
    apply as_float_cell_float, to_numeric_cell_number.
Qed.

Lemma to_numeric_coerce_fixed (col : list value) :
  forallb is_int_cell col = true \/ forallb is_float_cell col = true ->
  to_numeric_coerce col = col.
Proof.
  intros H.
  assert (Hfix : map to_numeric_cell col = col).
  { apply map_fixed, Forall_forall; intros v Hv; apply to_numeric_cell_fixed.
    destruct H as [H|H]; [left|right];
      exact (proj1 (forallb_forall _ _) H v Hv). }
  unfold to_numeric_coerce; rewrite Hfix.
  destruct (forallb is_int_cell col) eqn:E; [reflexivity|].
  destruct H as [H|H]; [discriminate|].
  apply map_fixed, Forall_forall; intros v Hv.
  pose proof (proj1 (forallb_forall _ _) H v Hv) as Hf.
  destruct v; simpl in *; congruence.
Qed.

Lemma to_numeric_coerce_length (col : list value) :
  List.length (to_numeric_coerce col) = List.length col.
Proof.
  unfold to_numeric_coerce.
  destruct (forallb _ _); rewrite ?length_map; reflexivity.
Qed.


(** ** Running the type-casting cell twice *)

Lemma dict_set_same (d : dict) (k : string) (v : value) :
  dict_get k d = Some v -> dict_set d k v = d.
Proof.
  induction d as [|[k' v'] r IH]; simpl; [discriminate|].
  destruct (String.eqb k k') eqn:E.
  - intros [= ->]; reflexivity.
  - intros H; rewrite (IH H); reflexivity.
Qed.

Lemma getitem_Ok (r : dict) (c : string) (v : value) :
  getitem r c = Ok v <-> dict_get c r = Some v.
Proof.
  unfold getitem; destruct (dict_get c r); split; congruence.
Qed.

Lemma column_length (c : string) (df : frame) (col : list value) :
  column c df = Ok col -> List.length col = List.length df.
Proof. apply mapM_length. Qed.

Lemma set_column_same (c : string) (df : frame) (col : list value) :
  column c df = Ok col -> set_column c df col = df.
Proof.
  intros H; apply mapM_Forall2 in H; unfold set_column.
  induction H as [|r v df col Hr _ IH]; simpl; [reflexivity|].
  rewrite IH, (dict_set_same _ _ _ (proj1 (getitem_Ok _ _ _) Hr)); reflexivity.
Qed.

Lemma column_set_column (c : string) (df : frame) (col cells : list value) :
  column c df = Ok col -> List.length cells = List.length col ->
  column c (set_column c df cells) = Ok cells.
Proof.
  intros H; apply mapM_Forall2 in H; revert cells; unfold column, set_column.
  induction H as [|r v df col Hr _ IH]; intros [|w cells] Hlen;
    simpl in Hlen; try discriminate; [reflexivity|].
  simpl. unfold getitem at 1; rewrite dict_get_set_same; cbn [bind].
  rewrite IH by congruence; reflexivity.
Qed.

Lemma column_set_other (c c' : string) (df : frame) (cells : list value) :
  c' <> c -> List.length cells = List.length df ->
  column c' (set_column c df cells) = column c' df.
Proof.
  intros Hne; revert cells; unfold column, set_column.
  induction df as [|r df IH]; intros [|w cells] Hlen;
    simpl in Hlen; try discriminate; [reflexivity|].
  simpl. unfold getitem at 1 3; rewrite dict_get_set_other by exact Hne.
  rewrite IH by congruence; reflexivity.
Qed.

Lemma mapM_bind {A B C : Type} (f : A -> result B) (g : B -> result C)
    (l : list A) (l' : list C) :
  mapM (fun x => y <- f x ;; g y) l = Ok l' <->
  exists m, mapM f l = Ok m /\ mapM g m = Ok l'.
Proof.
  revert l'; induction l as [|a l IH]; intros l'; simpl.
  - split; [intros [= <-]; exists []; auto|].
    intros (m & [= <-] & H); exact H.
  - split.
    + intros H; apply bind_Ok in H as (z & Hz & H).
      apply bind_Ok in Hz as (y & Hy & Hg).
      apply bind_Ok in H as (zs & Hzs & H); injection H as <-.
      apply IH in Hzs as (m & Hm & Hgm).
      exists (y :: m); rewrite Hy, Hm; simpl; rewrite Hg, Hgm; auto.
    + intros (m & Hm & Hg).
      apply bind_Ok in Hm as (y & Hy & Hm).
      apply bind_Ok in Hm as (ys & Hys & Hm); injection Hm as <-.
      simpl in Hg; apply bind_Ok in Hg as (z & Hz & Hg).
      apply bind_Ok in Hg as (zs & Hzs & Hg); injection Hg as <-.
      rewrite Hy; cbn [bind]; rewrite Hz; cbn [bind].
      rewrite (proj2 (IH zs)); [reflexivity|]; eauto.
Qed.

(** One assignment of the cell, on the column as a whole. *)
Lemma cast_column_columns (c : string) (op : cast) (df df' : frame) :
  df <> [] ->
  (cast_column df (c, op) = Ok df' <->
   exists col cells,
     column c df = Ok col /\ cast_cells op col = Ok cells /\
     df' = set_column c df cells).
Proof.
  intros Hne; destruct df as [|r0 df0]; [contradiction|].
  assert (Hmap : forall f,
    (cells <- mapM (fun row => v <- getitem row c ;; f v) (r0 :: df0) ;;
     Ok (map (fun rc => dict_set (fst rc) c (snd rc))
             (combine (r0 :: df0) cells)))
      = Ok df' <->
    exists col cells, mapM (fun row => getitem row c) (r0 :: df0) = Ok col /\
                      mapM f col = Ok cells /\
                      df' = set_column c (r0 :: df0) cells).
  { intros f; split.
    - intros H; apply bind_Ok in H as (cells & Hc & H); injection H as <-.
      apply mapM_bind in Hc as (col & Hcol & Hcells).
      exists col, cells; auto.
    - intros (col & cells & Hcol & Hcells & ->).
      rewrite (proj2 (mapM_bind _ f (r0 :: df0) cells)); [reflexivity|]; eauto. }
  destruct op.
  - exact (Hmap astype_string).
  - exact (Hmap astype_int).
  - change (cast_column (r0 :: df0) (c, ToNumeric))
      with (col <- column c (r0 :: df0) ;;
            Ok (set_column c (r0 :: df0) (to_numeric_coerce col))).
    cbn [cast_cells]; split.
    + intros H; apply bind_Ok in H as (col & Hcol & H); injection H as <-.
      exists col, (to_numeric_coerce col); auto.
    + intros (col & cells & Hcol & [= <-] & ->).
      rewrite Hcol; reflexivity.
Qed.

Lemma cast_cells_length (op : cast) (col cells : list value) :
  cast_cells op col = Ok cells -> List.length cells = List.length col.
Proof.
  destruct op; cbn [cast_cells]; try apply mapM_length.
  intros [= <-]; apply to_numeric_coerce_length.
Qed.

Lemma mapM_fixed {A : Type} (f g : A -> result A) (l l' : list A) :
  (forall x y, f x = Ok y -> g y = Ok y) ->
  mapM f l = Ok l' -> mapM g l' = Ok l'.
Proof.
  intros Hfg H; apply mapM_Forall2 in H; apply mapM_Forall2.
  induction H; constructor; eauto.
Qed.

Lemma cast_cells_settles (op : cast) (col cells : list value) :
  cast_cells op col = Ok cells -> cast_cells op cells = Ok cells.
Proof.
  destruct op; cbn [cast_cells].
  - apply mapM_fixed; intros [s|z|f] y; simpl; intros [= <-]; reflexivity.
  - apply mapM_fixed; intros x y; unfold astype_int; intros H.
    apply bind_Ok in H as (z & _ & [= <-]); reflexivity.
  - intros [= <-]; f_equal.
    apply to_numeric_coerce_fixed, to_numeric_coerce_dtype.
Qed.

Lemma cast_column_settles (c : string) (op : cast) (df df' : frame) :
  df <> [] -> cast_column df (c, op) = Ok df' -> settled c op df'.
Proof.
  intros Hne H.
  apply (cast_column_columns c op df df' Hne) in H
    as (col & cells & Hcol & Hcells & ->).
  exists cells; split.
  - apply (column_set_column c df col cells Hcol).
    exact (cast_cells_length _ _ _ Hcells).
  - exact (cast_cells_settles _ _ _ Hcells).
Qed.

Lemma cast_column_other (c c' : string) (op : cast) (df df' : frame) :
  df <> [] -> c' <> c -> cast_column df (c, op) = Ok df' ->
  column c' df' = column c' df.
Proof.
  intros Hne Hc H.
  apply (cast_column_columns c op df df' Hne) in H
    as (col & cells & Hcol & Hcells & ->).
  apply column_set_other; [exact Hc|].
  rewrite (cast_cells_length _ _ _ Hcells); exact (column_length _ _ _ Hcol).
Qed.

Lemma cast_column_nonempty (step : string * cast) (df df' : frame) :
  cast_column df step = Ok df' -> df <> [] /\ df' <> [].
Proof.
  destruct step as [c op]; intros H.
  assert (Hne : df <> []).
  { intros ->; destruct op; discriminate H. }
  split; [exact Hne|].
  apply cast_column_spec, Forall2_length_eq in H.
  intros ->; destruct df; [contradiction | discriminate].
Qed.

Lemma foldM_cast_other (steps : list (string * cast)) (df df' : frame)
    (c : string) :
  ~ In c (map fst steps) -> foldM cast_column steps df = Ok df' ->
  column c df' = column c df.
Proof.
  revert df; induction steps as [|[c1 op1] rest IH]; intros df Hc; simpl.
  - intros [= <-]; reflexivity.
  - intros H; apply bind_Ok in H as (df1 & H1 & H2).
    simpl in Hc.
    rewrite (IH df1) by tauto.
    destruct (cast_column_nonempty _ _ _ H1) as [Hne _].
    apply (cast_column_other c1 c op1 df df1 Hne); [|exact H1].
    intros ->; tauto.
Qed.

Lemma foldM_cast_settles (steps : list (string * cast)) (df df' : frame) :
  NoDup (map fst steps) -> foldM cast_column steps df = Ok df' ->
  forall c op, In (c, op) steps -> settled c op df'.
Proof.
  revert df; induction steps as [|[c1 op1] rest IH]; intros df ND H c op Hin;
    [destruct Hin|].
  inversion ND as [|? ? Hnotin ND']; subst.
  simpl in H; apply bind_Ok in H as (df1 & H1 & H2).
  destruct Hin as [[= <- <-]|Hin]; [|exact (IH df1 ND' H2 c op Hin)].
  destruct (cast_column_nonempty _ _ _ H1) as [Hne _].
  destruct (cast_column_settles _ _ _ _ Hne H1) as (col & Hcol & Hcast).
  exists col; split; [|exact Hcast].
  rewrite (foldM_cast_other rest df1 df' c1 Hnotin H2); exact Hcol.
Qed.

Lemma foldM_cast_settled (steps : list (string * cast)) (df : frame) :
  df <> [] -> (forall c op, In (c, op) steps -> settled c op df) ->
  foldM cast_column steps df = Ok df.
Proof.
  intros Hne; induction steps as [|[c op] rest IH]; intros Hall;
    [reflexivity|].
  simpl.
  destruct (Hall c op (or_introl eq_refl)) as (col & Hcol & Hcast).
  rewrite (proj2 (cast_column_columns c op df df Hne)).
  - cbn [bind]; apply IH; intros c' op' Hin; apply Hall; right; exact Hin.
  - exists col, col; repeat split; try assumption.
    symmetry; exact (set_column_same _ _ _ Hcol).
Qed.

(** X10.  Running the type-casting cell a second time changes nothing: on
    the frame it returned the cell returns that very frame.  A string
    column is kept by [astype('string')], an integer column by
    [astype(int)], and a numeric column by [pd.to_numeric]. *)
Theorem type_cast_twice (df df' : frame) :
  type_cast df = Ok df' -> type_cast df' = Ok df'.
Proof.
  intros H; unfold type_cast in *.
  apply foldM_cast_settled.
  - destruct (type_cast_rel _ _ H) as [Hlen _].
    intros ->; destruct df; [discriminate H | discriminate Hlen].
  - exact (foldM_cast_settles _ _ _ type_cast_steps_NoDup H).
Qed.

Lemma type_cast_twice_witness :
  exists df', type_cast (frame_of storm_1954_16) = Ok df' /\
              type_cast df' = Ok df'.
Proof.
  destruct (type_cast (frame_of storm_1954_16)) as [df'|e] eqn:E;
    [|vm_compute in E; discriminate].
  exists df'; split; [reflexivity|].
  exact (type_cast_twice (frame_of storm_1954_16) df' E).
Defined.

(** ** The pruning cell *)

Lemma dict_get_filter (p : string -> bool) (c : string) (r : dict) :
  dict_get c (filter (fun kv => p (fst kv)) r) =
  if p c then dict_get c r else None.
Proof.
  induction r as [|[k v] r IH]; simpl; [destruct (p c); reflexivity|].
  destruct (p k) eqn:Ek; simpl; destruct (String.eqb c k) eqn:E.
  - apply String.eqb_eq in E; subst; rewrite Ek; reflexivity.
  - exact IH.
  - apply String.eqb_eq in E; subst; rewrite Ek in IH; rewrite IH, Ek.
    reflexivity.
  - exact IH.
Qed.

Lemma present_filter (p : string -> bool) (c : string) (df : frame) :
  present c (map (filter (fun kv => p (fst kv))) df) =
  if p c then present c df else [].
Proof.
  unfold present; induction df as [|r df IH]; simpl;
    [destruct (p c); reflexivity|].
  rewrite IH, dict_get_filter; destruct (p c); reflexivity.
Qed.

Lemma varies_prune (df : frame) (c : string) :
  varies (prune df) c = varies df c.
Proof.
  unfold varies at 1, prune.
  rewrite (present_filter (varies df) c df).
  destruct (varies df c) eqn:E; [exact E | reflexivity].
Qed.

Lemma filter_twice {A : Type} (p q : A -> bool) (l : list A) :
  (forall x, q x = p x) -> filter q (filter p l) = filter p l.
Proof.
  intros H; induction l as [|a l IH]; simpl; [reflexivity|].
  destruct (p a) eqn:E; simpl; [rewrite H, E, IH; reflexivity | exact IH].
Qed.

(** X11.  The pruning cell keeps every row; in each row it keeps, in
    place and unchanged, the cells of the columns that hold at least two
    distinct values over the frame, and drops the others; pruning a second
    time drops nothing more. *)
Theorem prune_keeps_varying_columns (df : frame) :
  List.length (prune df) = List.length df /\
  Forall2 (fun r r' =>
             forall c, dict_get c r' =
                       if varies df c then dict_get c r else None)
          df (prune df) /\
  prune (prune df) = prune df.
Proof.
  split; [apply length_map|]. split.
  - unfold prune; generalize (varies df); intros p.
    induction df as [|r df IH]; simpl; constructor; [|exact IH].
    intros c; apply dict_get_filter.
  - unfold prune at 1 2; rewrite map_map.
    apply map_ext; intros r.
    apply filter_twice; intros [k v]; apply varies_prune.
Qed.

Lemma float_eqb_refl (x : float) :
  x <> S754_nan -> float_eqb x x = true.
Proof.
  unfold float_eqb, SFeqb; destruct x as [s|s| |s m e]; simpl;
    try (destruct s; reflexivity); [congruence|].
  intros _; destruct s; rewrite Z.compare_refl, ?Pos.compare_refl; simpl;
    try rewrite Pos.compare_refl; reflexivity.
Qed.

Lemma value_eqb_refl (v : value) :
  is_nan v = false -> value_eqb v v = true.
Proof.
  destruct v as [s|z|f]; simpl; intros H.
  - apply String.eqb_refl.
  - apply Z.eqb_refl.
  - apply float_eqb_refl; intros ->; discriminate.
Qed.

Lemma unique_In (col : list value) (w : value) :
  In w (unique col) -> In w col.
Proof.
  induction col as [|v rest IH]; simpl; [auto|].
  intros [->|H]; [auto|].
  apply filter_In in H as [H _]; auto.
Qed.

Lemma unique_constant (col : list value) (v : value) :
  value_eqb v v = true -> (forall w, In w col -> w = v) ->
  (List.length (unique col) <= 1)%nat.
Proof.
  intros Hv Hall; destruct col as [|a rest]; simpl; [lia|].
  assert (E : filter (fun w => negb (value_eqb a w)) (unique rest) = []).
  { apply filter_nil_iff; intros w Hw.
    apply unique_In in Hw.
    rewrite (Hall a (or_introl eq_refl)), (Hall w (or_intror Hw)), Hv.
    reflexivity. }
  rewrite E; simpl; lia.
Qed.

Lemma nunique_constant (col : list value) (v : value) :
  (forall w, In w col -> w = v) -> (nunique col <= 1)%nat.
Proof.
  intros Hall; unfold nunique.
  destruct (is_nan v) eqn:Ev.
  - assert (E : filter (fun w => negb (is_nan w)) col = []).
    { apply filter_nil_iff; intros w Hw; rewrite (Hall w Hw), Ev; reflexivity. }
    rewrite E; simpl; lia.
  - apply (unique_constant _ v (value_eqb_refl v Ev)).
    intros w Hw; apply filter_In in Hw as [Hw _]; auto.
Qed.

Lemma constant_column_pruned (df : frame) (c : string) (v : value) :
  Forall (fun r => forall w, dict_get c r = Some w -> w = v) df ->
  varies df c = false /\
  Forall (fun r => dict_get c r = None) (prune df).
Proof.
  intros Hall.
  assert (Hv : varies df c = false).
  { unfold varies; apply Nat.ltb_ge, (nunique_constant _ v).
    intros w Hw; unfold present in Hw.
    apply in_flat_map in Hw as (r & Hr & Hw).
    rewrite Forall_forall in Hall.
    destruct (dict_get c r) as [u|] eqn:Eu; [|destruct Hw].
    destruct Hw as [<-|[]]; exact (Hall r Hr u Eu). }
  split; [exact Hv|].
  unfold prune; apply Forall_forall; intros r' Hr'.
  apply in_map_iff in Hr' as (r & <- & _).
  rewrite (dict_get_filter (varies df) c r), Hv; reflexivity.
Qed.

Lemma mapM_getitem_missing {B : Type} (c : string) (k : value -> result B)
    (r : dict) (df : frame) :
  dict_get c r = None ->
  mapM (fun row => v <- getitem row c ;; k v) (r :: df) = Raise KeyError.
Proof.
  intros H; simpl; unfold getitem; rewrite H; reflexivity.
Qed.

Lemma cast_first_column_missing (c : string) (op : cast)
    (rest : list (string * cast)) (df : frame) :
  Forall (fun r => dict_get c r = None) df ->
  foldM cast_column ((c, op) :: rest) df = Raise KeyError.
Proof.
  intros H; simpl.
  destruct df as [|r df]; [destruct op; reflexivity|].
  inversion H as [|? ? Hr _]; subst.
  assert (E : cast_column (r :: df) (c, op) = Raise KeyError).
  { unfold cast_column, map_column, to_numeric_column; cbn [fst snd].
    destruct op.
    - rewrite (mapM_getitem_missing c astype_string r df Hr); reflexivity.
    - rewrite (mapM_getitem_missing c astype_int r df Hr); reflexivity.
    - simpl; unfold getitem; rewrite Hr; reflexivity. }
  rewrite E; reflexivity.
Qed.

Lemma startswith_AL_field (line : string) :
  startswith line "AL" = true -> field 0 2 line = VStr "AL".
Proof.
  destruct line as [|c1 [|c2 rest]]; cbn [startswith]; try discriminate.
  - destruct (Ascii.eqb "A" c1); discriminate.
  - destruct (Ascii.eqb "A" c1) eqn:E1; [|discriminate].
    destruct (Ascii.eqb "L" c2) eqn:E2; [|discriminate].
    apply Ascii.eqb_eq in E1, E2; subst; intros _.
    unfold field, slice; simpl; destruct rest; reflexivity.
Qed.

(** X12.  The assembler accepts only headers that start with [AL], so the
    basin column of every frame it returns holds that one value: the
    pruning cell always drops it, and after the pruning cell the validator,
    which groups by basin, can only raise [KeyError]. *)
Theorem basin_is_always_pruned (lines : list string) (df : frame) :
  parse_hurdat2 lines = Ok df ->
  Forall (fun r => dict_get "Basin" r = Some (VStr "AL")) df /\
  varies df "Basin" = false /\
  Forall (fun r => dict_get "Basin" r = None) (prune df) /\
  test_entries_count (prune df) = Raise KeyError.
Proof.
  intros H.
  pose proof (emits_record_of _ _ (proj1 (parse_hurdat2_emits _ _) H)) as Hrec.
  assert (Hal : Forall (fun r => dict_get "Basin" r = Some (VStr "AL")) df).
  { eapply Forall_impl; [|exact Hrec].
    intros r (hraw & raw & n & _ & _ & Hh & _ & Hr).
    destruct (data_record_get _ _ _ Hr) as (lat & lon & _ & Hget).
    rewrite Hget; cbn.
    rewrite (startswith_AL_field _ Hh); reflexivity. }
  destruct (constant_column_pruned df "Basin" (VStr "AL")) as [Hv Hnone].
  { eapply Forall_impl; [|exact Hal]; intros r Hr w Hw; congruence. }
  repeat split; try assumption.
  unfold test_entries_count, select.
  destruct (prune df) as [|r' rest]; [reflexivity|].
  inversion Hnone as [|? ? Hr' _]; subst.
  simpl; unfold getitem at 1; rewrite Hr'; reflexivity.
Qed.

Lemma basin_is_always_pruned_witness :
  varies (frame_of varied_storms) "Basin" = false /\
  test_entries_count (prune (frame_of varied_storms)) = Raise KeyError.
Proof.
  destruct (basin_is_always_pruned varied_storms (frame_of varied_storms))
    as (_ & H1 & _ & H2); [vm_compute; reflexivity|].
  split; assumption.
Defined.

(** X13.  The pruning cell comes before the type-casting cell: the casts
    can only return when each of the twenty-five columns they assign holds
    at least two distinct values over the frame, since a column with fewer
    is gone by then. *)
Theorem cast_after_pruning_needs_variation (df : frame) :
  returns (type_cast (prune df)) ->
  Forall (fun c => varies df c = true) (map fst type_cast_steps).
Proof.
  intros [df' H].
  apply Forall_forall; intros c Hc.
  apply in_map_iff in Hc as ([c' op] & <- & Hin); cbn [fst].
  pose proof (type_cast_column _ _ c' op Hin H) as Hcol.
  destruct (prune df) as [|r' rest] eqn:Ep; [discriminate H|].
  inversion Hcol as [|? r'' ? ? (v0 & v & Hv0 & _) _]; subst.
  assert (Hr' : In r' (prune df)) by (rewrite Ep; left; reflexivity).
  unfold prune in Hr'; apply in_map_iff in Hr' as (r & <- & _).
  rewrite (dict_get_filter (varies df) c' r) in Hv0.
  destruct (varies df c'); [reflexivity | discriminate].
Qed.

Lemma cast_after_pruning_needs_variation_witness :
  Forall (fun c => varies (frame_of varied_storms) c = true)
         (map fst type_cast_steps).
Proof.
  apply cast_after_pruning_needs_variation.
  destruct (type_cast (prune (frame_of varied_storms))) as [df'|e] eqn:E;
    [exists df'; reflexivity | vm_compute in E; discriminate].
Defined.

(** X14.  A frame whose rows all carry one cyclone number, as the frame of
    a file that holds a single storm does, loses that column to the pruning
    cell; the type-casting cell, whose first assignment reads it, then
    raises [KeyError].  The same holds of the frame without rows. *)
Theorem one_cyclone_number_cannot_be_cast (df : frame) (v : value) :
  Forall (fun r => dict_get "CycloneID" r = Some v) df ->
  varies df "CycloneID" = false /\
  type_cast (prune df) = Raise KeyError.
Proof.
  intros Hall.
  destruct (constant_column_pruned df "CycloneID" v) as [Hv Hnone].
  { eapply Forall_impl; [|exact Hall]; intros r Hr w Hw; congruence. }
  split; [exact Hv|].
  exact (cast_first_column_missing "CycloneID" AsString _ _ Hnone).
Qed.

Lemma one_cyclone_number_cannot_be_cast_witness :
  type_cast (prune (frame_of storm_1954_16)) = Raise KeyError.
Proof.
  apply (one_cyclone_number_cannot_be_cast (frame_of storm_1954_16) (VStr "16")).
  repeat constructor.
Defined.

(** ** The columns the parsers read *)

Lemma take_ext (n : nat) (s1 s2 : string) :
  (forall i, (i < n)%nat -> String.get i s1 = String.get i s2) ->
  take n s1 = take n s2.
Proof.
  revert s1 s2; induction n as [|n IH]; intros s1 s2 H; [reflexivity|].
  pose proof (H 0%nat ltac:(lia)) as H0.
  destruct s1 as [|c1 r1], s2 as [|c2 r2]; simpl in *; try discriminate;
    [reflexivity|].
  injection H0 as <-; f_equal.
  apply IH; intros i Hi; exact (H (S i) ltac:(lia)).
Qed.

Lemma same_char_eq (a b : option ascii) : same_char a b = true -> a = b.
Proof.
  destruct a, b; simpl; try discriminate; [|reflexivity].
  intros H; apply Ascii.eqb_eq in H; congruence.
Qed.

Lemma agree_slice (layout : list (string * (nat * nat))) (l1 l2 : string)
    (col : string * (nat * nat)) :
  agree layout l1 l2 = true -> In col layout ->
  extract l1 col = extract l2 col.
Proof.
  unfold agree; intros H Hin.
  rewrite forallb_forall in H; specialize (H col Hin).
  rewrite forallb_forall in H.
  unfold extract, field, slice; do 3 f_equal.
  apply take_ext; intros i Hi; rewrite !get_drop.
  apply same_char_eq, H, in_seq; lia.
Qed.

Lemma agree_extract (layout : list (string * (nat * nat))) (l1 l2 : string) :
  agree layout l1 l2 = true ->
  map (extract l1) layout = map (extract l2) layout.
Proof.
  intros H; apply map_ext_in; intros col Hin.
  exact (agree_slice layout l1 l2 col H Hin).
Qed.

Lemma agree_get (layout : list (string * (nat * nat))) (l1 l2 : string)
    (col : string * (nat * nat)) (i : nat) :
  agree layout l1 l2 = true -> In col layout ->
  (fst (snd col) <= i < snd (snd col))%nat ->
  String.get i l1 = String.get i l2.
Proof.
  unfold agree; intros H Hin Hi.
  rewrite forallb_forall in H; specialize (H col Hin).
  rewrite forallb_forall in H.
  apply same_char_eq, H, in_seq; lia.
Qed.

Lemma agree_startswith (l1 l2 : string) :
  agree data_layout l1 l2 = true ->
  startswith l1 "AL" = startswith l2 "AL".
Proof.
  intros H.
  assert (Hin : In ("Year", (0, 4))%nat data_layout) by (left; reflexivity).
  pose proof (agree_get _ _ _ _ 0%nat H Hin ltac:(simpl; lia)) as H0.
  pose proof (agree_get _ _ _ _ 1%nat H Hin ltac:(simpl; lia)) as H1.
  destruct l1 as [|a1 [|b1 r1]], l2 as [|a2 [|b2 r2]]; simpl in H0, H1;
    try discriminate; try reflexivity.
  - injection H0 as <-; cbn [startswith].
    destruct (Ascii.eqb "A" a1); reflexivity.
  - injection H0 as <-; injection H1 as <-; reflexivity.
Qed.

Lemma agree_parse_header (l1 l2 : string) :
  agree header_layout l1 l2 = true ->
  parse_header_line l1 = parse_header_line l2.
Proof.
  intros H.
  change (Ok (map (extract l1) header_layout)
          = Ok (map (extract l2) header_layout)).
  rewrite (agree_extract _ _ _ H); reflexivity.
Qed.

Lemma agree_parse_data (l1 l2 : string) :
  agree data_layout l1 l2 = true ->
  parse_data_line l1 = parse_data_line l2.
Proof.
  intros H.
  change (Ok (map (extract l1) data_layout)
          = Ok (map (extract l2) data_layout)).
  rewrite (agree_extract _ _ _ H); reflexivity.
Qed.

Lemma agree_data_record (header : dict) (r1 r2 : string) :
  agree data_layout (strip r1) (strip r2) = true ->
  data_record header r1 = data_record header r2.
Proof.
  intros H; unfold data_record.
  rewrite (agree_parse_data _ _ H); reflexivity.
Qed.

Lemma mapM_Forall2_ext {A B : Type} (f : A -> result B) (l1 l2 : list A) :
  Forall2 (fun x y => f x = f y) l1 l2 -> mapM f l1 = mapM f l2.
Proof.
  induction 1 as [|x y l1 l2 Hxy _ IH]; simpl; [reflexivity|].
  rewrite Hxy, IH; reflexivity.
Qed.

Lemma Forall2_firstn {A B : Type} (R : A -> B -> Prop) (n : nat)
    (l1 : list A) (l2 : list B) :
  Forall2 R l1 l2 -> Forall2 R (firstn n l1) (firstn n l2).
Proof.
  intros H; revert n; induction H; intros [|n]; simpl; constructor; auto.
Qed.

Lemma Forall2_skipn {A B : Type} (R : A -> B -> Prop) (n : nat)
    (l1 : list A) (l2 : list B) :
  Forall2 R l1 l2 -> Forall2 R (skipn n l1) (skipn n l2).
Proof.
  intros H; revert n; induction H; intros [|n]; simpl;
    try constructor; auto.
Qed.

Lemma same_fields_spec (r1 r2 : string) :
  same_fields r1 r2 = true ->
  agree data_layout (strip r1) (strip r2) = true /\
  startswith (strip r1) "AL" = startswith (strip r2) "AL" /\
  (startswith (strip r2) "AL" = true ->
   agree header_layout (strip r1) (strip r2) = true).
Proof.
  unfold same_fields; intros H; apply andb_prop in H as [Hd Hh].
  split; [exact Hd|]. split; [exact (agree_startswith _ _ Hd)|].
  intros Hal; rewrite Hal in Hh; exact Hh.
Qed.

Lemma while_loop_agree (lines1 lines2 : list string) (data : list dict) :
  Forall2 (fun r1 r2 => same_fields r1 r2 = true) lines1 lines2 ->
  while_loop lines1 data = while_loop lines2 data.
Proof.
  remember (List.length lines1) as len eqn:Hlen.
  revert lines1 lines2 data Hlen.
  induction len as [len IH] using lt_wf_ind; intros lines1 lines2 data Hlen H.
  destruct H as [|r1 r2 rest1 rest2 Hr Hrest]; [reflexivity|].
  apply same_fields_spec in Hr as (Hd & Hal & Hh).
  rewrite !while_loop_cons, Hal.
  destruct (startswith (strip r2) "AL").
  - rewrite (agree_parse_header _ _ (Hh eq_refl)).
    destruct (parse_header_line (strip r2)) as [header|e]; cbn [bind];
      [|reflexivity].
    destruct (getitem header "Entries") as [e0|e]; cbn [bind]; [|reflexivity].
    destruct (int_ e0) as [entries|e]; cbn [bind]; [|reflexivity].
    rewrite !for_range_eq.
    rewrite (mapM_Forall2_ext _ (firstn (Z.to_nat entries) rest1)
                              (firstn (Z.to_nat entries) rest2)).
    + destruct (mapM _ (firstn (Z.to_nat entries) rest2)) as [recs|e];
        cbn [bind]; [|reflexivity].
      rewrite <- (Forall2_length_eq _ _ _ Hrest).
      destruct (Z.to_nat entries <=? List.length rest2)%nat; [|reflexivity].
      apply (IH (List.length (skipn (Z.to_nat entries) rest1)));
        [rewrite length_skipn; simpl in Hlen; lia | reflexivity|].
      apply Forall2_skipn; exact Hrest.
    + apply Forall2_firstn.
      eapply Forall2_impl; [|exact Hrest].
      intros x y Hxy; apply same_fields_spec in Hxy as (Hxy & _).
      apply agree_data_record; exact Hxy.
  - apply (IH (List.length rest1)); [simpl in Hlen; lia | reflexivity|].
    exact Hrest.
Qed.

(** X15.  The parsers read a line at the column ranges of their layouts
    and nowhere else.  Two lines that, once stripped, hold the same
    characters in the ranges of the data layout are told apart by none of
    the prefix test and the data parser; if they start with [AL] and agree
    on the ranges of the header layout too, the header parser gives the
    same record; and two inputs whose lines correspond in this way give the
    same frame or the same error.  The separators between the fields, and
    on a data line whatever follows the last column, are never looked
    at. *)
Theorem assembler_reads_only_layout_columns (lines1 lines2 : list string) :
  Forall2 (fun r1 r2 => same_fields r1 r2 = true) lines1 lines2 ->
  parse_hurdat2 lines1 = parse_hurdat2 lines2 /\
  Forall2 (fun r1 r2 =>
             parse_data_line (strip r1) = parse_data_line (strip r2) /\
             startswith (strip r1) "AL" = startswith (strip r2) "AL" /\
             (startswith (strip r2) "AL" = true ->
              parse_header_line (strip r1) = parse_header_line (strip r2)))
          lines1 lines2.
Proof.
  intros H; split; [exact (while_loop_agree _ _ [] H)|].
  eapply Forall2_impl; [|exact H].
  intros r1 r2 Hr; apply same_fields_spec in Hr as (Hd & Hal & Hh).
  split; [exact (agree_parse_data _ _ Hd)|].
  split; [exact Hal|].
  intros E; exact (agree_parse_header _ _ (Hh E)).
Qed.

Lemma assembler_reads_only_layout_columns_witness :
  parse_hurdat2 storm_1954_16_garbled = parse_hurdat2 storm_1954_16.
Proof.
  apply (assembler_reads_only_layout_columns storm_1954_16_garbled storm_1954_16).
  unfold storm_1954_16_garbled, storm_1954_16.
  constructor; [vm_compute; reflexivity|].
  constructor; [vm_compute; reflexivity|].
  constructor; [vm_compute; reflexivity|].
  constructor.
Defined.

(** ** The declared count *)

Lemma digit_val_range (c : ascii) :
  is_digit c = true -> 0 <= digit_val c <= 9.
Proof.
  unfold is_digit, digit_val; intros H.
  apply andb_prop in H as [H1 H2].
  apply Nat.leb_le in H1, H2; lia.
Qed.

Lemma digitpart_bound (s : string) (acc : Z) (cnt : nat) (ad : bool)
    (v : Z) (c : nat) (r : string) :
  0 <= acc -> digitpart acc cnt ad s = Some (v, c, r) ->
  0 <= v < (acc + 1) * 10 ^ Z.of_nat (String.length s).
Proof.
  revert acc cnt ad; induction s as [|ch s IH]; intros acc cnt ad Hacc H.
  - simpl in H; destruct ad; [|discriminate].
    injection H as <- _ _; simpl; lia.
  - assert (Hpow : 10 ^ Z.of_nat (String.length (String ch s))
                   = 10 * 10 ^ Z.of_nat (String.length s)).
    { cbn [String.length]; rewrite Nat2Z.inj_succ, Z.pow_succ_r by lia.
      reflexivity. }
    assert (Hpos : 0 < 10 ^ Z.of_nat (String.length s))
      by (apply Z.pow_pos_nonneg; lia).
    assert (Hstop : (if ad then Some (acc, cnt, String ch s) else None)
                    = Some (v, c, r) ->
                    0 <= v < (acc + 1) * 10 ^ Z.of_nat (String.length (String ch s))).
    { destruct ad; [|discriminate]; intros [= <- _ _]; rewrite Hpow; nia. }
    cbn [digitpart] in H.
    destruct (is_digit ch) eqn:Hd.
    + pose proof (digit_val_range ch Hd) as Hv.
      apply IH in H; [|lia]; rewrite Hpow; nia.
    + destruct (Ascii.eqb ch "_"); [|exact (Hstop H)].
      destruct s as [|d s']; [exact (Hstop H)|].
      destruct (ad && is_digit d)%bool; [|exact (Hstop H)].
      apply IH in H; [|lia]; rewrite Hpow; nia.
Qed.

Lemma py_int_bound (s : string) (n : Z) :
  py_int s = Ok n ->
  - 10 ^ (Z.of_nat (String.length (strip s)) - 1) < n
    < 10 ^ Z.of_nat (String.length (strip s)).
Proof.
  unfold py_int.
  set (t := strip s).
  assert (Hb : forall body neg,
             (String.length body <= String.length t)%nat ->
             (neg = true -> (S (String.length body) <= String.length t)%nat) ->
             match digitpart 0 0 false body with
             | Some (v, _, EmptyString) => Ok (if neg then - v else v)
             | _ => Raise ValueError
             end = Ok n ->
             - 10 ^ (Z.of_nat (String.length t) - 1) < n
               < 10 ^ Z.of_nat (String.length t)).
  { intros body neg Hlen Hneg H.
    destruct (digitpart 0 0 false body) as [[[v c] r]|] eqn:E0; [|discriminate].
    destruct r; [|discriminate]; injection H as <-.
    pose proof (digitpart_bound body 0 0%nat false v c "" (Z.le_refl 0) E0) as E.
    remember (10 ^ Z.of_nat (String.length body)) as pb eqn:Epb.
    remember (10 ^ Z.of_nat (String.length t)) as pt eqn:Ept.
    remember (10 ^ (Z.of_nat (String.length t) - 1)) as pt' eqn:Ept'.
    destruct neg.
    - specialize (Hneg eq_refl).
      assert (pb <= pt') by (subst; apply Z.pow_le_mono_r; lia).
      assert (0 < pt) by (subst; apply Z.pow_pos_nonneg; lia).
      lia.
    - assert (pb <= pt) by (subst; apply Z.pow_le_mono_r; lia).
      assert (0 < pt').
      { destruct body as [|b body']; [discriminate E0|].
        subst; apply Z.pow_pos_nonneg; simpl in Hlen; lia. }
      lia. }
  destruct t as [|c r] eqn:Et.
  - apply (Hb "" false); [simpl; lia | discriminate].
  - destruct (Ascii.eqb c "+") eqn:Ep.
    + apply Ascii.eqb_eq in Ep; subst c.
      apply (Hb r false); [simpl; lia | discriminate].
    + destruct (Ascii.eqb c "-") eqn:Em.
      * apply Ascii.eqb_eq in Em; subst c.
        apply (Hb r true); simpl; lia.
      * intros H; apply (Hb (String c r) false); [simpl; lia | discriminate|].
        revert H.
        destruct c as [[] [] [] [] [] [] [] []]; try discriminate;
          exact (fun H => H).
Qed.

Lemma field_count_bound (line : string) (n : Z) :
  int_ (field 33 36 line) = Ok n -> -99 <= n <= 999.
Proof.
  unfold field; cbn [int_]; intros H.
  apply py_int_bound in H.
  pose proof (strip_length (strip (slice 33 36 line))) as L1.
  pose proof (strip_length (slice 33 36 line)) as L2.
  pose proof (slice_length 33 36 line) as L3.
  remember (String.length (strip (strip (slice 33 36 line)))) as len eqn:E.
  assert (Hlen : (len <= 3)%nat) by lia.
  clear - H Hlen.
  destruct len as [|[|[|[|len]]]]; simpl in H; lia.
Qed.

Lemma emits_entries (lines : list string) (df : list dict) :
  emits lines df ->
  Forall (fun r => exists n, dict_get "Entries" r = Some (VInt n) /\
                             1 <= n <= 999) df.
Proof.
  induction 1 as [|raw rest out Hal _ IH
                  |raw rest entries recs out Hal He Hn Hb _ IH].
  - constructor.
  - exact IH.
  - apply Forall_app; split; [|exact IH].
    pose proof (field_count_bound _ _ He) as Hrange.
    assert (Hpos : recs <> [] -> 1 <= entries).
    { intros Hne.
      destruct (Z.to_nat entries) eqn:E; [|lia].
      simpl in Hb; inversion Hb; subst; contradiction. }
    apply Forall_forall; intros r Hr.
    assert (Hne : recs <> []) by (intros ->; destruct Hr).
    specialize (Hpos Hne).
    destruct (Forall2_In_l _ _ _ r (Forall2_flip Hb) Hr) as (l & _ & Hl).
    destruct (data_record_get _ _ _ Hl) as (lat & lon & _ & Hget).
    exists entries; split; [rewrite Hget; reflexivity | lia].
Qed.

(** X16.  The count of a header is read from three columns, so [int]
    can only give a number from -99 to 999; a record is built only under a
    header whose count is at least 1, so the count every row of the frame
    carries lies between 1 and 999. *)
Theorem declared_count_bounds (lines : list string) (df : frame) :
  parse_hurdat2 lines = Ok df ->
  Forall (fun r => exists n, dict_get "Entries" r = Some (VInt n) /\
                             1 <= n <= 999) df /\
  (forall line n, int_ (field 33 36 line) = Ok n -> -99 <= n <= 999).
Proof.
  intros H; split; [|exact field_count_bound].
  exact (emits_entries _ _ (proj1 (parse_hurdat2_emits _ _) H)).
Qed.

Lemma declared_count_bounds_witness :
  Forall (fun r => exists n, dict_get "Entries" r = Some (VInt n) /\
                             1 <= n <= 999) (frame_of storm_1954_16).
Proof.
  exact (proj1 (declared_count_bounds storm_1954_16 (frame_of storm_1954_16)
                  eq_refl)).
Defined.

(** ** The unique-id cell after the casts *)

Lemma record_of_columns (lines : list string) (r : dict) :
  record_of lines r -> map fst r = frame_columns.
Proof.
  intros (hraw & raw & n & _ & _ & _ & _ & Hr).
  rewrite data_record_eq in Hr.
  destruct (line_coordinates (strip raw)) as [[lat lon]|e]; cbn [bind] in Hr;
    [|discriminate].
  assert (E : r = dict_merge (assembled_header (strip hraw) n)
                             (converted_data (strip raw) lat lon))
    by congruence.
  rewrite combined_dict_eq in E; subst r; reflexivity.
Qed.

Lemma dict_get_absent (k : string) (d : dict) :
  ~ In k (map fst d) -> dict_get k d = None.
Proof.
  induction d as [|[k' v] d IH]; simpl; [reflexivity|].
  intros H; destruct (String.eqb k k') eqn:E.
  - apply String.eqb_eq in E; subst; tauto.
  - apply IH; tauto.
Qed.

Lemma dict_set_new (d : dict) (k : string) (v : value) :
  dict_get k d = None -> map fst (dict_set d k v) = (map fst d ++ [k])%list.
Proof.
  induction d as [|[k' v'] d IH]; simpl; [reflexivity|].
  destruct (String.eqb k k'); [discriminate|].
  intros H; simpl; rewrite (IH H); reflexivity.
Qed.

Lemma add_unique_id_spec (df df' : frame) :
  add_unique_id df = Ok df' ->
  Forall2 (fun r r' => exists id, unique_id r = Ok id /\
                                  r' = dict_set r "UniqueID" (VStr id)) df df'.
Proof.
  unfold add_unique_id; destruct df as [|r0 df0]; [discriminate|].
  generalize (r0 :: df0); intros df H.
  apply bind_Ok in H as (ids & Hids & H); injection H as <-.
  apply mapM_Forall2 in Hids.
  eapply Forall2_impl;
    [|apply (Forall2_map_combine _
               (fun ri => dict_set (fst ri) "UniqueID" (VStr (snd ri))) _ _ Hids)].
  intros r r' (id & Hid & ->); exists id; auto.
Qed.

Lemma append_same_length (a b c1 c2 : string) :
  String.length c1 = String.length c2 ->
  (a ++ c1 = b ++ c2)%string -> a = b /\ c1 = c2.
Proof.
  intros Hlen; revert b; induction a as [|x a IH]; intros [|y b] H;
    simpl in H.
  - auto.
  - apply (f_equal String.length) in H; simpl in H.
    rewrite append_length in H; lia.
  - apply (f_equal String.length) in H; simpl in H.
    rewrite append_length in H; lia.
  - injection H as <- H; destruct (IH b H) as [-> ->]; auto.
Qed.

Lemma Forall2_and {A B : Type} (P Q : A -> B -> Prop) (l : list A)
    (l' : list B) :
  Forall2 P l l' -> Forall2 Q l l' ->
  Forall2 (fun x y => P x y /\ Q x y) l l'.
Proof.
  induction 1; intros HQ; inversion HQ; subst; constructor; auto.
Qed.

Lemma Forall2_Forall_l {A B : Type} (P : A -> Prop) (R : A -> B -> Prop)
    (l : list A) (l' : list B) :
  Forall P l -> Forall2 R l l' ->
  Forall2 (fun x y => P x /\ R x y) l l'.
Proof.
  intros HP HR; induction HR; inversion HP; subst; constructor; auto.
Qed.

Lemma unique_id_not_a_column : ~ In "UniqueID" frame_columns.
Proof.
  intros Hin; simpl in Hin.
  repeat (destruct Hin as [Hin|Hin]; [discriminate|]); exact Hin.
Qed.

(** X17.  Run on the type-cast frame (the pruning and date-time cells
    in between left aside), the unique-id cell always returns, on every
    frame the assembler built: it keeps the rows and appends one column,
    last, that holds the decimal writing of the year followed by the
    cyclone number.  Among rows whose cyclone numbers have the same length
    (two characters in the reference file), two rows get the same id
    exactly when they have the same year and the same cyclone number. *)
Theorem unique_id_after_casts (lines : list string) (df df' : frame) :
  parse_hurdat2 lines = Ok df ->
  type_cast df = Ok df' ->
  exists df'',
    add_unique_id df' = Ok df'' /\
    List.length df'' = List.length df /\
    Forall2 (fun r' r'' =>
               map fst r'' = (frame_columns ++ ["UniqueID"])%list /\
               (forall k, k <> "UniqueID" -> dict_get k r'' = dict_get k r') /\
               exists z c,
                 dict_get "Year" r' = Some (VInt z) /\
                 dict_get "CycloneID" r' = Some (VStr c) /\
                 dict_get "UniqueID" r'' = Some (VStr (py_str_of_int z ++ c)))
            df' df'' /\
    (forall z1 c1 z2 c2,
        String.length c1 = String.length c2 ->
        (py_str_of_int z1 ++ c1 = py_str_of_int z2 ++ c2)%string <->
        z1 = z2 /\ c1 = c2).
Proof.
  intros H Hcast.
  pose proof (emits_record_of _ _ (proj1 (parse_hurdat2_emits _ _) H)) as Hrec.
  pose proof (type_cast_unique_id lines df df' Hrec Hcast) as Hid.
  destruct (type_cast_rel _ _ Hcast) as [Hlen Hrel].
  assert (Hc : In ("CycloneID", AsString) type_cast_steps)
    by (left; reflexivity).
  pose proof (type_cast_column df df' "CycloneID" AsString Hc Hcast) as Hcyc.
  assert (Hfacts : Forall (fun r' =>
             map fst r' = frame_columns /\
             exists z c, dict_get "Year" r' = Some (VInt z) /\
                         dict_get "CycloneID" r' = Some (VStr c) /\
                         unique_id r' = Ok (py_str_of_int z ++ c)%string) df').
  { eapply Forall2_Forall_transfer;
      [|exact Hrec|exact (Forall2_and _ _ _ _ Hrel (Forall2_and _ _ _ _ Hid Hcyc))].
    intros r r' Hr (Hrr' & (y & z & c & _ & _ & Hc0 & Hy & Hu)
                        & (v0 & v & Hv0 & Hs & Hv)).
    split; [rewrite (cast_rel_keys _ _ _ Hrr'); exact (record_of_columns _ _ Hr)|].
    exists z, c; split; [exact Hy|]. split; [|exact Hu].
    rewrite Hc0 in Hv0; injection Hv0 as <-.
    cbn in Hs; injection Hs as <-; exact Hv. }
  assert (Hne : df' <> []).
  { intros ->; destruct df; [discriminate Hcast | discriminate Hlen]. }
  assert (Hret : returns (add_unique_id df')).
  { unfold add_unique_id; destruct df' as [|r0 df0]; [contradiction|].
    destruct (mapM_returns unique_id (r0 :: df0)) as [ids Hids].
    - eapply Forall_impl; [|exact Hfacts].
      intros r' (_ & z & c & _ & _ & Hu); eexists; exact Hu.
    - rewrite Hids; eexists; reflexivity. }
  destruct Hret as [df'' Hadd].
  pose proof (add_unique_id_spec _ _ Hadd) as Hspec.
  exists df''; split; [exact Hadd|].
  split; [rewrite (Forall2_length_eq _ _ _ Hspec); exact Hlen|].
  split.
  - eapply Forall2_impl; [|exact (Forall2_Forall_l _ _ _ _ Hfacts Hspec)].
    intros r' r'' ((Hk & z & c & Hy & Hcy & Hu) & id & Hid' & ->).
    assert (id = (py_str_of_int z ++ c)%string) by congruence; subst id.
    split; [|split].
    + rewrite dict_set_new, Hk; [reflexivity|].
      apply dict_get_absent; rewrite Hk; exact unique_id_not_a_column.
    + intros k Hne'; apply dict_get_set_other; exact Hne'.
    + exists z, c; repeat split; try assumption.
      apply dict_get_set_same.
  - intros z1 c1 z2 c2 Hl; split.
    + intros E; apply (append_same_length _ _ _ _ Hl) in E as [E ->].
      split; [exact (py_str_of_int_injective _ _ E) | reflexivity].
    + intros [-> ->]; reflexivity.
Qed.

Lemma unique_id_after_casts_witness :
  exists df' df'',
    type_cast (frame_of storm_1954_16) = Ok df' /\
    add_unique_id df' = Ok df'' /\
    List.length df'' = List.length (frame_of storm_1954_16).
Proof.
  destruct (type_cast (frame_of storm_1954_16)) as [df'|e] eqn:E;
    [|vm_compute in E; discriminate].
  destruct (unique_id_after_casts storm_1954_16 (frame_of storm_1954_16) df'
              eq_refl E) as (df'' & Hadd & Hlen & _).
  exists df', df''; auto.
Defined.

(** ** Rows in file order *)

Lemma subseq_refl {A : Type} (l : list A) : subseq l l.
Proof. induction l; constructor; assumption. Qed.

Lemma subseq_app {A : Type} (a a' b b' : list A) :
  subseq a a' -> subseq b b' -> subseq (a ++ b) (a' ++ b').
Proof.
  intros Ha Hb; induction Ha; simpl; try constructor; assumption.
Qed.

Lemma subseq_length {A : Type} (l1 l2 : list A) :
  subseq l1 l2 -> (List.length l1 <= List.length l2)%nat.
Proof. induction 1; simpl; lia. Qed.

Lemma emits_in_order (lines : list string) (df : list dict) :
  emits lines df ->
  exists used,
    subseq used lines /\
    (lines <> [] -> (List.length used < List.length lines)%nat) /\
    Forall2 (fun raw r =>
               exists hraw entries,
                 In hraw lines /\
                 startswith (strip hraw) "AL" = true /\
                 int_ (field 33 36 (strip hraw)) = Ok entries /\
                 data_record (assembled_header (strip hraw) entries) raw = Ok r)
            used df.
Proof.
  induction 1 as [|raw rest out Hal _ IH
                  |raw rest entries recs out Hal He Hn Hb _ IH].
  - exists []; split; [constructor|]. split; [congruence | constructor].
  - destruct IH as (used & Hsub & _ & Hall).
    exists used; split; [constructor; exact Hsub|].
    split; [intros _; apply subseq_length in Hsub; simpl; lia|].
    eapply Forall2_impl; [|exact Hall].
    intros l r (hraw & n & Hin & H1 & H2 & H3).
    exists hraw, n; repeat split; try assumption; right; exact Hin.
  - destruct IH as (used & Hsub & _ & Hall).
    set (n := Z.to_nat entries) in *.
    assert (Hsplit : subseq (firstn n rest ++ used) rest).
    { rewrite <- (firstn_skipn n rest) at 2.
      apply subseq_app; [apply subseq_refl | exact Hsub]. }
    exists (firstn n rest ++ used)%list.
    split; [constructor; exact Hsplit|].
    split; [intros _; apply subseq_length in Hsplit; simpl; lia|].
    apply Forall2_app.
    + eapply Forall2_impl; [|exact Hb].
      intros l r Hr; exists raw, entries; repeat split; try assumption.
      left; reflexivity.
    + eapply Forall2_impl; [|exact Hall].
      intros l r (hraw & m & Hin & H1 & H2 & H3).
      exists hraw, m; repeat split; try assumption.
      right; rewrite <- (firstn_skipn n rest).
      apply in_or_app; right; exact Hin.
Qed.

(** X18.  The rows of the frame follow the file: they are built, one
    each and in order, from a selection of the input lines taken in input
    order, each under a header line of the input; no line gives two rows,
    and a non-empty input always has more lines than the frame has rows. *)
Theorem rows_follow_the_input (lines : list string) (df : frame) :
  parse_hurdat2 lines = Ok df ->
  exists used,
    subseq used lines /\
    List.length df = List.length used /\
    (lines <> [] -> (List.length df < List.length lines)%nat) /\
    Forall2 (fun raw r =>
               exists hraw entries,
                 In hraw lines /\
                 startswith (strip hraw) "AL" = true /\
                 int_ (field 33 36 (strip hraw)) = Ok entries /\
                 data_record (assembled_header (strip hraw) entries) raw = Ok r)
            used df.
Proof.
  intros H; apply parse_hurdat2_emits in H.
  destruct (emits_in_order _ _ H) as (used & Hsub & Hlt & Hall).
  pose proof (Forall2_length_eq _ _ _ Hall) as Hlen.
  exists used; repeat split; try assumption.
  intros Hne; specialize (Hlt Hne); lia.
Qed.

Lemma rows_follow_the_input_witness :
  exists used,
    subseq used storm_1954_16 /\
    List.length (frame_of storm_1954_16) = List.length used.
Proof.
  destruct (rows_follow_the_input storm_1954_16 (frame_of storm_1954_16)
              eq_refl) as (used & Hsub & Hlen & _).
  exists used; auto.
Defined.

(** * The unique id in the notebook's order *)

(** ** Years written with digits *)

Lemma is_digit_not_space (c : ascii) : is_digit c = true -> is_space c = false.
Proof.
  unfold is_digit, is_space; intros H.
  apply andb_prop in H as [H1 H2]; apply Nat.leb_le in H1, H2.
  apply Bool.orb_false_iff; split; apply Bool.andb_false_iff.
  - right; apply Nat.leb_gt; lia.
  - right; apply Nat.leb_gt; lia.
Qed.

Lemma rstrip_digits (s : string) : all_digits s = true -> rstrip s = s.
Proof.
  induction s as [|c r IH]; simpl; [reflexivity|].
  intros H; apply andb_prop in H as [Hc Hr].
  rewrite (IH Hr); destruct r; [|reflexivity].
  rewrite (is_digit_not_space c Hc); reflexivity.
Qed.

Lemma strip_digits (s : string) : all_digits s = true -> strip s = s.
Proof.
  intros H; unfold strip.
  rewrite lstrip_fixed; [exact (rstrip_digits s H)|].
  destruct s as [|c r]; simpl in *; [exact I|].
  apply andb_prop in H as [Hc _]; exact (is_digit_not_space c Hc).
Qed.

Lemma py_int_digits (s : string) :
  all_digits s = true ->
  py_int s = match digitpart 0 0 false s with
             | Some (v, _, EmptyString) => Ok v
             | _ => Raise ValueError
             end.
Proof.
  intros H; unfold py_int; rewrite (strip_digits s H).
  destruct s as [|c r]; [reflexivity|].
  simpl in H; apply andb_prop in H as [Hc _].
  destruct c as [[] [] [] [] [] [] [] []];
    try (vm_compute in Hc; discriminate Hc); reflexivity.
Qed.

Lemma digit_val_injective (c1 c2 : ascii) :
  digit_val c1 = digit_val c2 -> c1 = c2.
Proof.
  unfold digit_val; intros H.
  rewrite <- (ascii_nat_embedding c1), <- (ascii_nat_embedding c2).
  f_equal; lia.
Qed.

Lemma digitpart_digits_injective (s1 : string) :
  forall (s2 : string) (a1 a2 : Z) (n1 n2 : nat) (d1 d2 : bool)
         (v : Z) (m1 m2 : nat) (t1 t2 : string),
    all_digits s1 = true -> all_digits s2 = true ->
    String.length s1 = String.length s2 ->
    0 <= a1 -> 0 <= a2 ->
    digitpart a1 n1 d1 s1 = Some (v, m1, t1) ->
    digitpart a2 n2 d2 s2 = Some (v, m2, t2) ->
    a1 = a2 /\ s1 = s2.
Proof.
  induction s1 as [|c1 r1 IH]; intros [|c2 r2] a1 a2 n1 n2 d1 d2 v m1 m2 t1 t2
    H1 H2 Hlen Ha1 Ha2 E1 E2; simpl in Hlen; try discriminate.
  - simpl in E1, E2; destruct d1, d2; try discriminate.
    injection E1 as <- _ _; injection E2 as <- _ _; auto.
  - simpl in H1, H2.
    apply andb_prop in H1 as [Hc1 Hr1]; apply andb_prop in H2 as [Hc2 Hr2].
    cbn [digitpart] in E1, E2; rewrite Hc1 in E1; rewrite Hc2 in E2.
    pose proof (digit_val_range c1 Hc1) as V1.
    pose proof (digit_val_range c2 Hc2) as V2.
    destruct (IH r2 (10 * a1 + digit_val c1) (10 * a2 + digit_val c2)
                 (S n1) (S n2) true true v m1 m2 t1 t2 Hr1 Hr2) as [Ha ->];
      [lia | lia | lia | exact E1 | exact E2 |].
    assert (a1 = a2 /\ digit_val c1 = digit_val c2) as [-> Hd] by lia.
    rewrite (digit_val_injective c1 c2 Hd); auto.
Qed.

(** Two years of four digits that [int] reads as the same number are the
    same string. *)
Lemma py_int_year_injective (y1 y2 : string) (z : Z) :
  four_digits y1 = true -> four_digits y2 = true ->
  py_int y1 = Ok z -> py_int y2 = Ok z -> y1 = y2.
Proof.
  unfold four_digits; intros H1 H2 E1 E2.
  apply andb_prop in H1 as [L1 D1]; apply andb_prop in H2 as [L2 D2].
  apply Nat.eqb_eq in L1, L2.
  rewrite (py_int_digits y1 D1) in E1; rewrite (py_int_digits y2 D2) in E2.
  destruct (digitpart 0 0 false y1) as [[[v1 m1] t1]|] eqn:P1; [|discriminate].
  destruct t1; [|discriminate]; injection E1 as ->.
  destruct (digitpart 0 0 false y2) as [[[v2 m2] t2]|] eqn:P2; [|discriminate].
  destruct t2; [|discriminate]; injection E2 as ->.
  exact (proj2 (digitpart_digits_injective y1 y2 0 0 _ _ _ _ z _ _ _ _
                  D1 D2 ltac:(lia) (Z.le_refl 0) (Z.le_refl 0) P1 P2)).
Qed.

(** ** The cells that lead to the unique id *)

Lemma Forall2_nth_error {A B : Type} (R : A -> B -> Prop) (l : list A)
    (l' : list B) (i : nat) (x : A) (y : B) :
  Forall2 R l l' -> nth_error l i = Some x -> nth_error l' i = Some y -> R x y.
Proof.
  intros H; revert i; induction H as [|a b l l' Hab _ IH]; intros [|i] Hx Hy;
    simpl in *; try discriminate.
  - congruence.
  - exact (IH i Hx Hy).
Qed.

Lemma Forall2_same {A : Type} (R : A -> A -> Prop) (l : list A) :
  (forall x, R x x) -> Forall2 R l l.
Proof. intros H; induction l; constructor; auto. Qed.

Lemma Forall2_chain {A B C : Type} (P : A -> B -> Prop) (Q : B -> C -> Prop)
    (l1 : list A) (l2 : list B) (l3 : list C) :
  Forall2 P l1 l2 -> Forall2 Q l2 l3 ->
  Forall2 (fun x z => exists y, P x y /\ Q y z) l1 l3.
Proof.
  intros H; revert l3; induction H as [|x y l1 l2 Hxy _ IH]; intros l3 HQ;
    inversion HQ; subst; constructor; eauto.
Qed.

(** The rows of the pruned frame hold cells of the rows they come from. *)
Lemma prune_cells (df : frame) :
  Forall2 (fun r p => forall c v, dict_get c p = Some v -> dict_get c r = Some v)
          df (prune df).
Proof.
  unfold prune; generalize (varies df); intros keep.
  induction df as [|r df IH]; simpl; constructor; [|exact IH].
  intros c v; rewrite (dict_get_filter keep c r).
  destruct (keep c); [exact (fun H => H) | discriminate].
Qed.

(** The unique id stored for a record: the casts and the unique-id cell
    run on a frame [fr] whose rows hold cells of the rows of [df]. *)
Lemma unique_ids_of_years (df fr df' df'' : frame) :
  Forall2 (fun r p => forall c v, dict_get c p = Some v -> dict_get c r = Some v)
          df fr ->
  type_cast fr = Ok df' ->
  add_unique_id df' = Ok df'' ->
  Forall2 (fun r q => forall y c,
             dict_get "Year" r = Some (VStr y) ->
             dict_get "CycloneID" r = Some (VStr c) ->
             exists z, py_int y = Ok z /\
                       dict_get "UniqueID" q =
                       Some (VStr (py_str_of_int z ++ c)))
          df df''.
Proof.
  intros Hsub Hcast Hadd.
  assert (Hy : In ("Year", AsInt) type_cast_steps) by (right; left; reflexivity).
  assert (Hc : In ("CycloneID", AsString) type_cast_steps) by (left; reflexivity).
  pose proof (Forall2_and _ _ _ _
                (type_cast_column fr df' "Year" AsInt Hy Hcast)
                (type_cast_column fr df' "CycloneID" AsString Hc Hcast)) as Hcols.
  pose proof (add_unique_id_spec _ _ Hadd) as Hspec.
  pose proof (Forall2_chain _ _ _ _ _ Hsub (Forall2_chain _ _ _ _ _ Hcols Hspec))
    as Hall.
  eapply Forall2_impl; [|exact Hall].
  intros r q (p & Hrp & r' & ((v0 & v & Hv0 & Hs & Hv) & (w0 & w & Hw0 & Ht & Hw))
                & id & Hid & ->) y c Hyear Hcyc.
  apply Hrp in Hv0; apply Hrp in Hw0.
  rewrite Hyear in Hv0; injection Hv0 as <-.
  rewrite Hcyc in Hw0; injection Hw0 as <-.
  cbn [step_cell] in Hs, Ht; unfold astype_int, int_ in Hs.
  destruct (py_int y) as [z|e]; cbn [bind] in Hs; [|discriminate].
  injection Hs as <-; cbn in Ht; injection Ht as <-.
  exists z; split; [reflexivity|].
  rewrite dict_get_set_same; do 2 f_equal.
  unfold unique_id, getitem in Hid; rewrite Hv, Hw in Hid; cbn in Hid.
  congruence.
Qed.

(** C9.  In every record the assembler emits, the year is the year field
    of the record's own data line (columns 0 to 3), which overwrites the
    year of the header (columns 4 to 7) in the merge, while the cyclone
    number is the header's.  So two data lines read under one header whose
    year fields differ give records with two different years and the same
    cyclone number.  The unique id stored for a record, by the casts and
    the unique-id cell run on the assembled frame or, as the notebook
    does, on the pruned frame, is the decimal writing of [int] of that
    data-line year followed by the cyclone number; two records with the
    same cyclone number whose years are two different strings of four
    digits get two different unique ids. *)
Theorem year_comes_from_data_line (lines : list string) (df : frame) :
  parse_hurdat2 lines = Ok df ->
  Forall (fun r => exists hraw raw entries,
              In hraw lines /\ In raw lines /\
              startswith (strip hraw) "AL" = true /\
              int_ (field 33 36 (strip hraw)) = Ok entries /\
              data_record (assembled_header (strip hraw) entries) raw = Ok r /\
              dict_get "Year" r = Some (field 0 4 (strip raw)) /\
              dict_get "CycloneID" r = Some (field 2 4 (strip hraw))) df /\
  (forall hline entries raw1 raw2 r1 r2,
     data_record (assembled_header hline entries) raw1 = Ok r1 ->
     data_record (assembled_header hline entries) raw2 = Ok r2 ->
     field 0 4 (strip raw1) <> field 0 4 (strip raw2) ->
     dict_get "Year" r1 <> dict_get "Year" r2 /\
     dict_get "CycloneID" r1 = dict_get "CycloneID" r2) /\
  (forall fr df' df'',
     fr = df \/ fr = prune df ->
     type_cast fr = Ok df' ->
     add_unique_id df' = Ok df'' ->
     Forall2 (fun r q => exists y z c,
                  dict_get "Year" r = Some (VStr y) /\ py_int y = Ok z /\
                  dict_get "CycloneID" r = Some (VStr c) /\
                  dict_get "UniqueID" q = Some (VStr (py_str_of_int z ++ c)))
             df df'' /\
     forall i j r1 r2 q1 q2 y1 y2,
       nth_error df i = Some r1 -> nth_error df j = Some r2 ->
       nth_error df'' i = Some q1 -> nth_error df'' j = Some q2 ->
       dict_get "CycloneID" r1 = dict_get "CycloneID" r2 ->
       dict_get "Year" r1 = Some (VStr y1) ->
       dict_get "Year" r2 = Some (VStr y2) ->
       four_digits y1 = true -> four_digits y2 = true -> y1 <> y2 ->
       exists id1 id2,
         dict_get "UniqueID" q1 = Some (VStr id1) /\
         dict_get "UniqueID" q2 = Some (VStr id2) /\
         id1 <> id2).
Proof.
  intros H.
  pose proof (emits_record_of _ _ (proj1 (parse_hurdat2_emits _ _) H)) as Hrec.
  assert (Hcells : Forall (fun r => exists hraw raw entries,
              In hraw lines /\ In raw lines /\
              startswith (strip hraw) "AL" = true /\
              int_ (field 33 36 (strip hraw)) = Ok entries /\
              data_record (assembled_header (strip hraw) entries) raw = Ok r /\
              dict_get "Year" r = Some (field 0 4 (strip raw)) /\
              dict_get "CycloneID" r = Some (field 2 4 (strip hraw))) df).
  { eapply Forall_impl; [|exact Hrec].
    intros r (hraw & raw & n & H1 & H2 & H3 & H4 & Hr).
    exists hraw, raw, n.
    destruct (data_record_cells _ _ _ Hr)
      as (Hy & _ & _ & _ & _ & _ & _ & Hc & _).
    repeat split; auto. }
  split; [exact Hcells|]. split.
  - intros hline entries raw1 raw2 r1 r2 H1 H2 Hne.
    destruct (data_record_cells _ _ _ H1)
      as (Hy1 & _ & _ & _ & _ & _ & _ & Hc1 & _).
    destruct (data_record_cells _ _ _ H2)
      as (Hy2 & _ & _ & _ & _ & _ & _ & Hc2 & _).
    split; [|congruence].
    rewrite Hy1, Hy2; intros E; apply Hne; congruence.
  - intros fr df' df'' Hfr Hcast Hadd.
    assert (Hsub : Forall2 (fun r p => forall c v, dict_get c p = Some v ->
                                                   dict_get c r = Some v) df fr).
    { destruct Hfr as [-> | ->];
        [apply Forall2_same; auto | apply prune_cells]. }
    pose proof (unique_ids_of_years df fr df' df'' Hsub Hcast Hadd) as Hids.
    split.
    + eapply Forall2_impl; [|exact (Forall2_Forall_l _ _ _ _ Hcells Hids)].
      intros r q ((hraw & raw & n & _ & _ & _ & _ & _ & Hy & Hc) & Hq).
      unfold field in Hy, Hc.
      destruct (Hq _ _ Hy Hc) as (z & Hz & Hu).
      eexists; exists z; eexists; repeat split; eassumption.
    + intros i j r1 r2 q1 q2 y1 y2 Hi Hj Hi' Hj' Hsame Hy1 Hy2 D1 D2 Hne.
      assert (Hc1 : exists c, dict_get "CycloneID" r1 = Some (VStr c)).
      { apply nth_error_In in Hi.
        destruct (proj1 (Forall_forall _ _) Hcells r1 Hi)
          as (hraw & raw & n & _ & _ & _ & _ & _ & _ & Hc).
        eexists; exact Hc. }
      destruct Hc1 as [c Hc1].
      assert (Hc2 : dict_get "CycloneID" r2 = Some (VStr c)) by congruence.
      destruct (Forall2_nth_error _ _ _ i r1 q1 Hids Hi Hi' y1 c Hy1 Hc1)
        as (z1 & Hz1 & Hu1).
      destruct (Forall2_nth_error _ _ _ j r2 q2 Hids Hj Hj' y2 c Hy2 Hc2)
        as (z2 & Hz2 & Hu2).
      exists (py_str_of_int z1 ++ c)%string, (py_str_of_int z2 ++ c)%string.
      split; [exact Hu1|]. split; [exact Hu2|].
      intros E; apply Hne.
      apply append_cancel_r, py_str_of_int_injective in E; subst z2.
      exact (py_int_year_injective y1 y2 z1 D1 D2 Hz1 Hz2).
Qed.

Lemma year_comes_from_data_line_witness :
  exists df' df'' q1 q2,
    type_cast (prune (frame_of new_year_storms)) = Ok df' /\
    add_unique_id df' = Ok df'' /\
    nth_error df'' 0 = Some q1 /\ nth_error df'' 1 = Some q2 /\
    exists id1 id2,
      dict_get "UniqueID" q1 = Some (VStr id1) /\
      dict_get "UniqueID" q2 = Some (VStr id2) /\
      id1 <> id2.
Proof.
  destruct (type_cast (prune (frame_of new_year_storms))) as [df'|e] eqn:E1;
    [|vm_compute in E1; discriminate].
  destruct (add_unique_id df') as [df''|e] eqn:E2;
    [|pose proof E1 as E; vm_compute in E; injection E as <-;
      vm_compute in E2; discriminate].
  destruct (nth_error df'' 0) as [q1|] eqn:N1;
    [|pose proof E1 as E; vm_compute in E; injection E as <-;
      pose proof E2 as E'; vm_compute in E'; injection E' as <-;
      vm_compute in N1; discriminate].
  destruct (nth_error df'' 1) as [q2|] eqn:N2;
    [|pose proof E1 as E; vm_compute in E; injection E as <-;
      pose proof E2 as E'; vm_compute in E'; injection E' as <-;
      vm_compute in N2; discriminate].
  exists df', df'', q1, q2.
  split; [reflexivity|]. split; [exact E2|].
  split; [exact N1|]. split; [exact N2|].
  apply (proj2 (proj2 (proj2 (year_comes_from_data_line new_year_storms
                                (frame_of new_year_storms) eq_refl))
                  (prune (frame_of new_year_storms)) df' df''
                  (or_intror eq_refl) E1 E2)
           0%nat 1%nat
           (nth 0 (frame_of new_year_storms) [])
           (nth 1 (frame_of new_year_storms) [])
           q1 q2 "2005" "2006");
    try (vm_compute; reflexivity); try assumption.
  discriminate.
Defined.

(** ** One storm, in the notebook's order *)

(** C1 (amended).  A header line that encodes basin [AL], cyclone number
    [01], year [1851], name [UNNAMED] and a count that reads as 5, followed
    by exactly 5 well-formed data lines dated 1851, is assembled into
    exactly 5 records, and the validator returns [True] on them.  In the
    notebook's order no unique id is stored for them: the 5 records share
    one cyclone number, so the pruning cell drops the CycloneID column and
    the type-casting cell that follows raises [KeyError].  With the pruning
    cell left out, the casts and the unique-id cell return, and the id
    stored in every record is the string [185101], the year followed by
    the cyclone number, without the basin code. *)
Theorem storm_of_five_lines (hraw : string) (ds : list string) :
  field 0 2 (strip hraw) = VStr "AL" ->
  field 2 4 (strip hraw) = VStr "01" ->
  field 4 8 (strip hraw) = VStr "1851" ->
  field 18 28 (strip hraw) = VStr "UNNAMED" ->
  int_ (field 33 36 (strip hraw)) = Ok 5 ->
  List.length ds = 5%nat ->
  Forall (fun raw => well_formed_data_line raw = true /\
                     field 0 4 (strip raw) = VStr "1851") ds ->
  exists df,
    parse_hurdat2 (hraw :: ds) = Ok df /\ List.length df = 5%nat /\
    test_entries_count df = Ok true /\
    varies df "CycloneID" = false /\
    Forall (fun r => dict_get "CycloneID" r = None) (prune df) /\
    type_cast (prune df) = Raise KeyError /\
    exists df' df'',
      type_cast df = Ok df' /\ add_unique_id df' = Ok df'' /\
      List.length df'' = 5%nat /\
      Forall (fun r => dict_get "UniqueID" r = Some (VStr "185101")) df''.
Proof.
  intros Hb Hc Hy Hn He Hlen Hds.
  pose proof (field_basin_AL _ Hb) as Hal.
  set (header := assembled_header (strip hraw) 5).
  destruct (mapM_returns (data_record header) ds) as [df Hdf].
  { eapply Forall_impl; [|exact Hds].
    intros raw [Hwf _]; apply data_record_returns; exact Hwf. }
  assert (Hparse : parse_hurdat2 (hraw :: ds) = Ok df).
  { rewrite (parse_hurdat2_header hraw ds Hal), He; cbn [bind].
    change (Z.to_nat 5) with 5%nat.
    rewrite firstn_all2, skipn_all2 by lia.
    fold header; rewrite Hdf; cbn [bind].
    rewrite Hlen; simpl; rewrite app_nil_r; reflexivity. }
  pose proof (proj1 (mapM_Forall2 _ _ _) Hdf) as H2.
  assert (Hdflen : List.length df = 5%nat).
  { rewrite (mapM_length _ _ _ Hdf); exact Hlen. }
  assert (Hne : df <> []) by (intros ->; discriminate).
  assert (Hcells : Forall (fun r =>
            (dict_get "Basin" r = Some (VStr "AL") /\
             dict_get "CycloneID" r = Some (VStr "01") /\
             dict_get "Year" r = Some (VStr "1851") /\
             dict_get "Name" r = Some (VStr "UNNAMED") /\
             dict_get "Entries" r = Some (VInt 5)) /\
            castable type_cast_steps r) df).
  { eapply Forall2_Forall_transfer; [|exact Hds|exact H2].
    intros raw r [Hwf Hyear] Hr; cbv beta in Hr; split.
    - destruct (data_record_cells _ _ _ Hr)
        as (Hy' & _ & _ & _ & _ & _ & Hb' & Hc' & Hn' & He' & _).
      rewrite Hy', Hb', Hc', Hn', He', Hyear.
      unfold header, assembled_header; cbn [dict_get String.eqb Ascii.eqb Bool.eqb].
      rewrite Hb, Hc, Hn; auto.
    - exact (data_record_castable _ _ _ _ Hr Hwf). }
  assert (Htest : test_entries_count df = Ok true).
  { rewrite (test_entries_count_one_storm df "AL" "01" "1851" "UNNAMED" 5 Hne).
    - rewrite Hdflen; reflexivity.
    - eapply Forall_impl; [|exact Hcells]; intros r [H _]; exact H. }
  destruct (constant_column_pruned df "CycloneID" (VStr "01")) as [Hv Hnone].
  { eapply Forall_impl; [|exact Hcells].
    intros r [(_ & Hc' & _) _] w Hw; congruence. }
  assert (Hkey : type_cast (prune df) = Raise KeyError)
    by exact (cast_first_column_missing "CycloneID" AsString
                (tl type_cast_steps) (prune df) Hnone).
  destruct (foldM_cast_returns type_cast_steps df type_cast_steps_NoDup Hne)
    as [df' Hcast].
  { eapply Forall_impl; [|exact Hcells]; intros r [_ H]; exact H. }
  pose proof (proj1 (type_cast_rel _ _ Hcast)) as Hlen'.
  pose proof (emits_record_of _ _ (proj1 (parse_hurdat2_emits _ _) Hparse)) as Hrec.
  assert (Hids : Forall (fun r' => unique_id r' = Ok "185101") df').
  { eapply Forall2_Forall_transfer;
      [|exact Hcells|exact (type_cast_unique_id _ _ _ Hrec Hcast)].
    intros r r' [(_ & Hc' & Hy' & _) _] (y & z & c & Hy0 & Hz & Hc0 & _ & Hid).
    rewrite Hy' in Hy0; injection Hy0 as <-.
    rewrite Hc' in Hc0; injection Hc0 as <-.
    vm_compute in Hz; injection Hz as <-; exact Hid. }
  destruct (add_unique_id_uniform df' "185101") as (df'' & Hadd & Hlen'' & Hcol);
    [intros ->; rewrite Hdflen in Hlen'; discriminate | exact Hids |].
  exists df.
  repeat (split; [assumption|]).
  exists df', df''.
  repeat (split; [assumption|]).
  split; [congruence | exact Hcol].
Qed.

Lemma storm_of_five_lines_witness :
  exists df,
    parse_hurdat2 storm_1851_01 = Ok df /\ List.length df = 5%nat /\
    test_entries_count df = Ok true /\
    varies df "CycloneID" = false /\
    Forall (fun r => dict_get "CycloneID" r = None) (prune df) /\
    type_cast (prune df) = Raise KeyError /\
    exists df' df'',
      type_cast df = Ok df' /\ add_unique_id df' = Ok df'' /\
      List.length df'' = 5%nat /\
      Forall (fun r => dict_get "UniqueID" r = Some (VStr "185101")) df''.
Proof.
  change storm_1851_01 with (hd "" storm_1851_01 :: tl storm_1851_01).
  apply storm_of_five_lines.
  1-6: vm_compute; reflexivity.
  repeat constructor; vm_compute; reflexivity.
Defined.

(** C1, as stated, fails: on the sample storm, one header for [AL], [01],
    [1851], [UNNAMED] with the count [0005] and its 5 data lines, the
    notebook stores no unique id at all, the casts raising [KeyError] on
    the pruned frame; and with the pruning cell left out the unique id of
    the 5 records is [185101], not [1851AL01]. *)
Lemma storm_of_five_lines_counterexample :
  List.length storm_1851_01 = 6%nat /\
  List.length (frame_of storm_1851_01) = 5%nat /\
  test_entries_count (frame_of storm_1851_01) = Ok true /\
  (df' <- type_cast (prune (frame_of storm_1851_01)) ;; add_unique_id df') =
    Raise KeyError /\
  (df' <- type_cast (frame_of storm_1851_01) ;;
   df'' <- add_unique_id df' ;;
   Ok (map (dict_get "UniqueID") df'')) =
    Ok (repeat (Some (VStr "185101")) 5) /\
  ~ (exists fr df' df'',
       (fr = frame_of storm_1851_01 \/ fr = prune (frame_of storm_1851_01)) /\
       type_cast fr = Ok df' /\
       add_unique_id df' = Ok df'' /\
       Forall (fun r => dict_get "UniqueID" r = Some (VStr "1851AL01")) df'').
Proof.
  split; [reflexivity|].
  split; [vm_compute; reflexivity|].
  split; [vm_compute; reflexivity|].
  split; [vm_compute; reflexivity|].
  split; [vm_compute; reflexivity|].
  intros (fr & df' & df'' & [-> | ->] & Hcast & Hadd & Hall).
  - vm_compute in Hcast; injection Hcast as <-.
    vm_compute in Hadd; injection Hadd as <-.
    inversion Hall as [|r l Hr _]; subst.
    vm_compute in Hr; discriminate.
  - vm_compute in Hcast; discriminate.
Qed.

(** ** The numeric columns of the layout *)

Lemma plain_int_py_int (s : string) (z : Z) :
  plain_int s = Some z -> py_int s = Ok z.
Proof.
  unfold plain_int.
  generalize (match s with
              | String "+" r => r
              | String "-" r => r
              | _ => s
              end); intros body.
  destruct body; [discriminate|].
  destruct (all_digits _); [|discriminate].
  destruct (py_int s); [congruence | discriminate].
Qed.

Lemma to_numeric_cell_bound (s : string) (z : Z) :
  (String.length s <= 4)%nat ->
  to_numeric_cell (VStr s) = VInt z -> -999 <= z <= 9999.
Proof.
  intros Hlen; cbn [to_numeric_cell]; unfold pd_number.
  destruct (plain_int (strip s)) as [z'|] eqn:E.
  - intros [= <-].
    apply plain_int_py_int, py_int_bound in E.
    pose proof (strip_length (strip s)) as L1.
    pose proof (strip_length s) as L2.
    remember (String.length (strip (strip s))) as len eqn:El.
    assert (Hl : (len <= 4)%nat) by lia.
    clear - E Hl.
    destruct len as [|[|[|[|[|len]]]]]; simpl in E; lia.
  - destruct (has_underscore s); [discriminate|].
    destruct (py_float s); discriminate.
Qed.

(** X9.  [pd.to_numeric(..., errors='coerce')] on a column of strings of
    at most four characters, as the numeric fields of the layout are: the
    column keeps its length; the result has one dtype, either integers,
    all between -999 and 9999 and so well within the 64-bit range, or
    floats; and coercing a second time changes nothing.  Nothing is said
    here of the value of a float cell. *)
Theorem to_numeric_coerce_one_dtype (col : list value) :
  Forall (fun v => exists s, v = VStr s /\ (String.length s <= 4)%nat) col ->
  List.length (to_numeric_coerce col) = List.length col /\
  (Forall (fun v => exists z, v = VInt z /\ -999 <= z <= 9999)
          (to_numeric_coerce col) \/
   Forall (fun v => exists f, v = VFloat f) (to_numeric_coerce col)) /\
  to_numeric_coerce (to_numeric_coerce col) = to_numeric_coerce col.
Proof.
  intros Hcol.
  split; [apply to_numeric_coerce_length|]. split.
  - destruct (forallb is_int_cell (map to_numeric_cell col)) eqn:E.
    + left; rewrite (to_numeric_coerce_int _ E).
      rewrite forallb_forall in E.
      apply Forall_forall; intros v Hv.
      pose proof (E v Hv) as Hint.
      apply in_map_iff in Hv as (v0 & <- & Hv0).
      destruct (proj1 (Forall_forall _ _) Hcol v0 Hv0) as (s & -> & Hlen).
      destruct (to_numeric_cell (VStr s)) as [t|z|f] eqn:Ez; try discriminate.
      exists z; split; [reflexivity|].
      exact (to_numeric_cell_bound s z Hlen Ez).
    + right.
      destruct (to_numeric_coerce_dtype col) as [H|H].
      * rewrite (to_numeric_coerce_float _ E) in H.
        rewrite (to_numeric_coerce_float _ E).
        apply Forall_forall; intros v Hv.
        apply in_map_iff in Hv as (w & <- & Hw).
        apply in_map_iff in Hw as (u & <- & _).
        pose proof (as_float_cell_float _ (to_numeric_cell_number u)) as Hf.
        destruct (as_float_cell (to_numeric_cell u)); try discriminate.
        eexists; reflexivity.
      * rewrite forallb_forall in H.
        apply Forall_forall; intros v Hv.
        specialize (H v Hv); destruct v; try discriminate.
        eexists; reflexivity.
  - apply to_numeric_coerce_fixed, to_numeric_coerce_dtype.
Qed.

Lemma to_numeric_coerce_one_dtype_witness :
  Forall (fun v => exists z, v = VInt z /\ -999 <= z <= 9999)
         (to_numeric_coerce [VStr "-999"; VStr "80"]) /\
  Forall (fun v => exists f, v = VFloat f)
         (to_numeric_coerce [VStr ""; VStr "80"]).
Proof.
  split.
  - destruct (to_numeric_coerce_one_dtype [VStr "-999"; VStr "80"])
      as (_ & [H|H] & _).
    + constructor; [exists "-999"%string; split; [reflexivity | simpl; lia]|].
      constructor; [exists "80"%string; split; [reflexivity | simpl; lia]|].
      constructor.
    + exact H.
    + inversion H as [|v l [f Hf] _]; vm_compute in Hf; discriminate.
  - destruct (to_numeric_coerce_one_dtype [VStr ""; VStr "80"])
      as (_ & [H|H] & _).
    + constructor; [exists ""%string; split; [reflexivity | simpl; lia]|].
      constructor; [exists "80"%string; split; [reflexivity | simpl; lia]|].
      constructor.
    + inversion H as [|v l [z [Hz _]] _]; vm_compute in Hz; discriminate.
    + exact H.
Defined.
